(** * Hyperbahn service-dispatch core: a shallow embedding

    The development follows the JavaScript sources of the router:
    - [circuits.js]                 (module [Circuits]),
    - the advertisement handler     (module [HyperbahnHandler]),
    - the service dispatch handler  (module [ServiceProxy]),
    - the updates of the remote configuration that reach the dispatcher
      (module [ApplicationClients]).

    JavaScript objects used as maps are association lists in insertion
    order, which is the order in which [Object.keys] and [for .. in]
    enumerate string keys.  Numbers that the code only uses as integers
    (timestamps, counters, limits, octets) are [Z]; a value that may be
    [NaN] or [undefined] is an [option].  Logger calls are left out
    wherever the log is not part of the property at hand. *)

From Stdlib Require Import ZArith List String Ascii Bool Lia.
Import ListNotations.

Local Open Scope string_scope.
Local Open Scope Z_scope.

(** ** JavaScript values and objects *)

Module Js.

Section Obj.
Context {V : Type}.

(** An object used as a map from string keys. *)
Definition obj : Type := list (string * V).

(** [o[k]] *)
Fixpoint get (k : string) (o : obj) : option V :=
  match o with
  | [] => None
  | (k', v) :: o' => if String.eqb k k' then Some v else get k o'
  end.

(** [o[k] = v]: an existing key keeps its place, a new key goes last. *)
Fixpoint put (k : string) (v : V) (o : obj) : obj :=
  match o with
  | [] => [(k, v)]
  | (k', v') :: o' =>
      if String.eqb k k' then (k, v) :: o' else (k', v') :: put k v o'
  end.

(** [delete o[k]] *)
Definition del (k : string) (o : obj) : obj :=
  filter (fun kv => negb (String.eqb k (fst kv))) o.

(** [Object.keys(o)] *)
Definition keys (o : obj) : list string := map fst o.

(** [k in o], also the truthiness of [o[k]] when the values are objects. *)
Definition has (k : string) (o : obj) : bool :=
  match get k o with Some _ => true | None => false end.

End Obj.

Arguments obj : clear implicits.

(** [isObjectEmpty(obj)]: a [for .. in] loop that returns at the first key. *)
Definition isObjectEmpty {V} (o : obj V) : bool :=
  match o with [] => true | _ :: _ => false end.

(** Truthiness of a number that is never [NaN]. *)
Definition truthy (z : Z) : bool := negb (z =? 0).

(** Truthiness of a string that may be [undefined]. *)
Definition truthyStr (s : option string) : bool :=
  match s with
  | Some s => negb (String.eqb s "")
  | None => false
  end.

(** [a || b] on strings, [a] possibly [undefined]. *)
Definition orStr (a : option string) (b : string) : string :=
  match a with
  | Some s => if String.eqb s "" then b else s
  | None => b
  end.

(** *** Decimal rendering of integers ([String(n)], ['' + n]) *)

Definition digitChar (d : Z) : ascii := ascii_of_N (48 + Z.to_N d).

Fixpoint digits (fuel : nat) (n : Z) (acc : string) : string :=
  let acc' := String (digitChar (n mod 10)) acc in
  match fuel with
  | O => acc'
  | S fuel' => if n / 10 =? 0 then acc' else digits fuel' (n / 10) acc'
  end.

Definition numToString (n : Z) : string :=
  if n <? 0 then "-" ++ digits (Z.to_nat (Z.log2 (- n))) (- n) ""
  else digits (Z.to_nat (Z.log2 n)) n "".

(** *** [parseInt(s, 10)] *)

Definition isDigit (c : ascii) : bool :=
  let n := N_of_ascii c in (48 <=? n)%N && (n <=? 57)%N.

Definition digitVal (c : ascii) : Z := Z.of_N (N_of_ascii c) - 48.

Definition isSpace (c : ascii) : bool :=
  let n := N_of_ascii c in
  (n =? 32)%N || ((9 <=? n)%N && (n <=? 13)%N).

Fixpoint skipSpaces (s : string) : string :=
  match s with
  | String c s' => if isSpace c then skipSpaces s' else s
  | EmptyString => s
  end.

(** The longest prefix of decimal digits; [None] when there is none. *)
Fixpoint parseDigits (s : string) (acc : option Z) : option Z :=
  match s with
  | String c s' =>
      if isDigit c
      then parseDigits s'
             (Some (10 * match acc with Some a => a | None => 0 end + digitVal c))
      else acc
  | EmptyString => acc
  end.

(** [parseInt(s, 10)]; [None] is [NaN].  An [undefined] argument is first
    turned into the string "undefined", which has no digits. *)
Definition parseInt (arg : option string) : option Z :=
  match arg with
  | None => None
  | Some s =>
      match skipSpaces s with
      | String "-" s' => option_map Z.opp (parseDigits s' None)
      | String "+" s' => parseDigits s' None
      | s' => parseDigits s' None
      end
  end.

(** *** [s.split(sep)] for a one-character separator *)

Fixpoint splitAux (sep : ascii) (s : string) (cur : string) : list string :=
  match s with
  | EmptyString => [cur]
  | String c s' =>
      if Ascii.eqb c sep then cur :: splitAux sep s' ""
      else splitAux sep s' (cur ++ String c "")
  end.

Definition split (sep : ascii) (s : string) : list string := splitAux sep s "".

(** *** 32-bit integer operations *)

(** [ToInt32]: wrap into the signed 32-bit range. *)
Definition toInt32 (z : Z) : Z := (z + 2 ^ 31) mod 2 ^ 32 - 2 ^ 31.

(** [x << n] for [0 <= n < 32]; a [NaN] operand counts as [0]. *)
Definition shl (x : option Z) (n : Z) : Z :=
  match x with
  | Some v => toInt32 (Z.shiftl (toInt32 v) n)
  | None => 0
  end.

(** [x + y] where [x] may be [NaN]. *)
Definition addNum (x : option Z) (y : Z) : option Z :=
  option_map (fun v => v + y) x.

End Js.

(** ** circuits.js *)

Module Circuits.

Import Js.

Record Circuit := {
  callerName : string;
  serviceName : string;
  endpointName : string;
  healthy : bool
}.

(** [EndpointCircuits.circuitsByEndpointName] *)
Definition EndpointCircuits := obj Circuit.

(** [ServiceCircuits.circuitsByCallerName] *)
Definition ServiceCircuits := obj EndpointCircuits.

(** [Circuits.circuitsByServiceName]; [isExitFor] is the ring view's answer
    ([egressNodes.isExitFor]) at the time of the call. *)
Definition CircuitsByServiceName := obj ServiceCircuits.

Definition newCircuit (cn sn en : string) : Circuit :=
  {| callerName := if String.eqb cn "" then "no-cn" else cn;
     serviceName := sn;
     endpointName := en;
     healthy := true |}.

Definition EndpointCircuits_getCircuit (self : EndpointCircuits)
    (cn sn en : string) : EndpointCircuits * Circuit :=
  match get ("$" ++ en) self with
  | Some circuit => (self, circuit)
  | None =>
      let circuit := newCircuit cn sn en in
      (put ("$" ++ en) circuit self, circuit)
  end.

Definition ServiceCircuits_getCircuit (self : ServiceCircuits)
    (cn sn en : string) : ServiceCircuits * Circuit :=
  let circuits :=
    match get ("$" ++ cn) self with
    | Some circuits => circuits
    | None => []
    end in
  let '(circuits', circuit) := EndpointCircuits_getCircuit circuits cn sn en in
  (put ("$" ++ cn) circuits' self, circuit).

Definition getCircuit (self : CircuitsByServiceName)
    (cn sn en : string) : CircuitsByServiceName * Circuit :=
  let circuits :=
    match get ("$" ++ sn) self with
    | Some circuits => circuits
    | None => []
    end in
  let '(circuits', circuit) := ServiceCircuits_getCircuit circuits cn sn en in
  (put ("$" ++ sn) circuits' self, circuit).

(** The loop of [updateServices] over [Object.keys(circuitsByServiceName)]:
    the loop variable [serviceName] is the property key itself. *)
Fixpoint updateServices_loop (isExitFor : string -> bool)
    (serviceNames : list string) (self : CircuitsByServiceName)
    : CircuitsByServiceName :=
  match serviceNames with
  | [] => self
  | serviceName :: rest =>
      updateServices_loop isExitFor rest
        (if negb (isExitFor serviceName) then del serviceName self else self)
  end.

Definition updateServices (isExitFor : string -> bool)
    (self : CircuitsByServiceName) : CircuitsByServiceName :=
  updateServices_loop isExitFor (keys self) self.

(** The services that have a circuit subtree. *)
Definition hasService (self : CircuitsByServiceName) (sn : string) : bool :=
  has ("$" ++ sn) self.

(** *** The tuples of the registry *)

(** A tuple [[callerName, serviceName, endpointName]]. *)
Definition CircuitTuple : Type := string * string * string.

(** [EndpointCircuits.collectCircuitTuples(tuples)]; a key that was just
    enumerated is always found. *)
Definition EndpointCircuits_collectCircuitTuples (self : EndpointCircuits)
    (tuples : list CircuitTuple) : list CircuitTuple :=
  fold_left
    (fun tuples key =>
       match get key self with
       | Some circuit =>
           (tuples
            ++ [(callerName circuit, serviceName circuit, endpointName circuit)])%list
       | None => tuples
       end)
    (keys self) tuples.

(** [ServiceCircuits.collectCircuitTuples(tuples)] *)
Definition ServiceCircuits_collectCircuitTuples (self : ServiceCircuits)
    (tuples : list CircuitTuple) : list CircuitTuple :=
  fold_left
    (fun tuples key =>
       match get key self with
       | Some circuit => EndpointCircuits_collectCircuitTuples circuit tuples
       | None => tuples
       end)
    (keys self) tuples.

(** [getCircuitTuples()] *)
Definition getCircuitTuples (self : CircuitsByServiceName) : list CircuitTuple :=
  fold_left
    (fun tuples key =>
       match get key self with
       | Some circuits => ServiceCircuits_collectCircuitTuples circuits tuples
       | None => tuples
       end)
    (keys self) [].

(** *** The circuit of a request *)

(** A request as [getCircuitForRequest] reads it: [req.headers.cn],
    [req.serviceName] and [String(req.arg1)]. *)
Record CircuitRequest := {
  req_cn : option string;
  req_serviceName : option string;
  req_arg1 : string
}.

(** [new Result(err, value)] with an [ErrorFrame] or a circuit. *)
Inductive CircuitResult :=
| ErrorFrame (codeName message : string)
| Value (circuit : Circuit).

(** [getCircuitForRequest(req)].  [shouldRequest] is the answer
    [circuit.state.shouldRequest()] of the state machine of the circuit,
    which is not among the sources. *)
Definition getCircuitForRequest (shouldRequest : Circuit -> bool)
    (self : CircuitsByServiceName) (req : CircuitRequest)
    : CircuitsByServiceName * CircuitResult :=
  let cn := orStr (req_cn req) "no-cn" in
  if negb (truthyStr (req_serviceName req)) then
    (self, ErrorFrame "BadRequest" "All requests must have a service name")
  else
    let sn := orStr (req_serviceName req) "" in
    let '(self', circuit) := getCircuit self cn sn (req_arg1 req) in
    if negb (shouldRequest circuit) then
      (self', ErrorFrame "Declined" "Service is not healthy")
    else (self', Value circuit).

End Circuits.

(** ** The transport (tchannel)

    The transport library is not part of the router.  The dispatcher uses
    its peer table, its sub-channels and the drain of a peer; this module
    fixes the interface the dispatcher relies on. *)

Module TChannel.

Import Js.

Inductive DrainGoal := DRAIN_GOAL_CLOSE_DRAINED | DRAIN_GOAL_CLOSE_PEER.

Inductive Direction := DirIn | DirOut | DirBoth.

(** The callbacks the dispatcher hands to [peer.drain]. *)
Inductive DrainCallback :=
| unadvertiseThenDeleteIt (hostPort : string)
| reapThenDeleteIt (hostPort : string)
| thenResetPeer.

(** The options of [peer.drain(options, callback)], kept in [peer.draining]
    while the drain runs. *)
Record Drain := {
  goal : DrainGoal;
  reason : string;
  direction : Direction;
  timeout : Z;
  callback : DrainCallback
}.

(** A peer of the transport.  [serviceProxyServices] is the field the
    dispatcher punches into the peer object; the object is shared by the
    root peer table and every sub-channel that holds the peer. *)
Record Peer := {
  draining : option Drain;
  connectedOut : bool;
  serviceProxyServices : list string
}.

Definition newPeer : Peer :=
  {| draining := None; connectedOut := false; serviceProxyServices := [] |}.

Inductive Mode := exit | forward.

(** A sub-channel, keyed by its [serviceName] in [subChannels].
    [chanPeers] are the host-ports of [subChannel.peers] in insertion order;
    the peer objects themselves live in the root peer table.
    [serviceProxyMode] is [None] for a sub-channel that is not a service
    channel ([undefined]). *)
Record SubChannel := {
  serviceProxyMode : option Mode;
  chanPeers : list string;
  preferConnectionDirectionOut : bool;
  (** [handler.type === 'tchannel.relay-handler'] *)
  handlerIsRelay : bool;
  (** whether [handler.handleLazily] is defined *)
  handlerHandlesLazily : bool;
  (** whether the relay handler holds the circuit registry *)
  handlerCircuits : bool
}.

Definition set_chanPeers (ps : list string) (c : SubChannel) : SubChannel :=
  {| serviceProxyMode := serviceProxyMode c;
     chanPeers := ps;
     preferConnectionDirectionOut := preferConnectionDirectionOut c;
     handlerIsRelay := handlerIsRelay c;
     handlerHandlesLazily := handlerHandlesLazily c;
     handlerCircuits := handlerCircuits c |}.

Definition set_serviceProxyMode (m : option Mode) (c : SubChannel) : SubChannel :=
  {| serviceProxyMode := m;
     chanPeers := chanPeers c;
     preferConnectionDirectionOut := preferConnectionDirectionOut c;
     handlerIsRelay := handlerIsRelay c;
     handlerHandlesLazily := handlerHandlesLazily c;
     handlerCircuits := handlerCircuits c |}.

Definition set_handlerCircuits (b : bool) (c : SubChannel) : SubChannel :=
  {| serviceProxyMode := serviceProxyMode c;
     chanPeers := chanPeers c;
     preferConnectionDirectionOut := preferConnectionDirectionOut c;
     handlerIsRelay := handlerIsRelay c;
     handlerHandlesLazily := handlerHandlesLazily c;
     handlerCircuits := b |}.

Definition set_draining (d : option Drain) (p : Peer) : Peer :=
  {| draining := d;
     connectedOut := connectedOut p;
     serviceProxyServices := serviceProxyServices p |}.

Definition set_connectedOut (b : bool) (p : Peer) : Peer :=
  {| draining := draining p;
     connectedOut := b;
     serviceProxyServices := serviceProxyServices p |}.

Definition set_serviceProxyServices (l : list string) (p : Peer) : Peer :=
  {| draining := draining p;
     connectedOut := connectedOut p;
     serviceProxyServices := l |}.

(** Membership of a host-port in a list of host-ports. *)
Definition mem (hostPort : string) (l : list string) : bool :=
  existsb (String.eqb hostPort) l.

(** Removal of a host-port from a list of host-ports. *)
Definition remove (hostPort : string) (l : list string) : list string :=
  filter (fun h => negb (String.eqb hostPort h)) l.

(** [array.sort()] on strings: insertion sort by the code-unit order. *)
Fixpoint insertSorted (s : string) (l : list string) : list string :=
  match l with
  | [] => [s]
  | x :: l' => if String.leb s x then s :: l else x :: insertSorted s l'
  end.

Definition sort (l : list string) : list string :=
  fold_right insertSorted [] l.

End TChannel.

(** ** The ring view (egress nodes)

    [exitsFor] gives the keys of the object the ring returns, in the order
    [Object.keys] enumerates them; [isExitFor] says whether this router is
    one of them. *)

Module EgressNodes.

Record t := {
  exitsFor : string -> list string;
  isExitFor : string -> bool
}.

End EgressNodes.

(** ** Partial ranges

    [partial_range.js] is not among the sources.  The dispatcher only
    constructs a range, recomputes it, asks whether it is valid and reads
    its affine workers, so the range is an interface here. *)

Module PartialRange.

Class Ops (PR : Type) := {
  (** [new PartialRange(relayHostPort, minPeersPerWorker, minPeersPerRelay)] *)
  create : string -> Z -> Z -> PR;
  (** [compute(relays, workers, now)]; a [null] argument keeps the list *)
  compute : option (list string) -> option (list string) -> Z -> PR -> PR;
  isValid : PR -> bool;
  affineWorkers : PR -> list string;
  addWorker : string -> Z -> PR -> PR;
  removeWorker : string -> Z -> PR -> PR
}.

End PartialRange.

(** ** The rate limiter

    Modelled from the spec: [rate_limiter.js] is not among the sources, only
    its test is.  The spec gives the counters ([totalRequestCounter],
    [serviceCounters], [edgeCounters], [ksCounters] with the limit
    [totalKillSwitchBuffer * serviceLimit]), says that exempt services
    bypass all checks, and that a request is rate-limited when the counter
    is over its limit.  The test fixes the boundary: a counter whose [rps]
    stands at its limit is not over it ([shouldRateLimitTotalRequest] is
    false at 10 requests with the limit 10, and true at 7 with the limit
    3).  The test does not reach the boundary of the other checks (the
    kill switch trips at 5 with the limit 4 and not at 2 with the limit
    8); they are taken to read their counters in the same way.  The
    sliding window is not modelled: [rps] is the number of increments in
    the current window.  [ksTotalCounter] is
    the counter behind [incrementKillSwitchTotalCounter] and
    [shouldKillSwitchTotalRequest], which the dispatcher calls. *)

Module RateLimiter.

Import Js.

Record RateLimitCounter := { rps : Z; rpsLimit : Z }.

Record t := {
  totalRequestCounter : RateLimitCounter;
  serviceCounters : obj RateLimitCounter;
  edgeCounters : obj RateLimitCounter;
  ksCounters : obj RateLimitCounter;
  ksTotalCounter : RateLimitCounter;
  exemptServices : list string;
  rpsLimitForServiceName : obj Z;
  defaultServiceRpsLimit : Z;
  totalKillSwitchBuffer : Z
}.

Definition set_totalRequestCounter (v : RateLimitCounter) (s : t) : t :=
  {| totalRequestCounter := v;
     serviceCounters := serviceCounters s;
     edgeCounters := edgeCounters s;
     ksCounters := ksCounters s;
     ksTotalCounter := ksTotalCounter s;
     exemptServices := exemptServices s;
     rpsLimitForServiceName := rpsLimitForServiceName s;
     defaultServiceRpsLimit := defaultServiceRpsLimit s;
     totalKillSwitchBuffer := totalKillSwitchBuffer s |}.

Definition set_serviceCounters (v : obj RateLimitCounter) (s : t) : t :=
  {| totalRequestCounter := totalRequestCounter s;
     serviceCounters := v;
     edgeCounters := edgeCounters s;
     ksCounters := ksCounters s;
     ksTotalCounter := ksTotalCounter s;
     exemptServices := exemptServices s;
     rpsLimitForServiceName := rpsLimitForServiceName s;
     defaultServiceRpsLimit := defaultServiceRpsLimit s;
     totalKillSwitchBuffer := totalKillSwitchBuffer s |}.

Definition set_edgeCounters (v : obj RateLimitCounter) (s : t) : t :=
  {| totalRequestCounter := totalRequestCounter s;
     serviceCounters := serviceCounters s;
     edgeCounters := v;
     ksCounters := ksCounters s;
     ksTotalCounter := ksTotalCounter s;
     exemptServices := exemptServices s;
     rpsLimitForServiceName := rpsLimitForServiceName s;
     defaultServiceRpsLimit := defaultServiceRpsLimit s;
     totalKillSwitchBuffer := totalKillSwitchBuffer s |}.

Definition set_ksCounters (v : obj RateLimitCounter) (s : t) : t :=
  {| totalRequestCounter := totalRequestCounter s;
     serviceCounters := serviceCounters s;
     edgeCounters := edgeCounters s;
     ksCounters := v;
     ksTotalCounter := ksTotalCounter s;
     exemptServices := exemptServices s;
     rpsLimitForServiceName := rpsLimitForServiceName s;
     defaultServiceRpsLimit := defaultServiceRpsLimit s;
     totalKillSwitchBuffer := totalKillSwitchBuffer s |}.

Definition set_ksTotalCounter (v : RateLimitCounter) (s : t) : t :=
  {| totalRequestCounter := totalRequestCounter s;
     serviceCounters := serviceCounters s;
     edgeCounters := edgeCounters s;
     ksCounters := ksCounters s;
     ksTotalCounter := v;
     exemptServices := exemptServices s;
     rpsLimitForServiceName := rpsLimitForServiceName s;
     defaultServiceRpsLimit := defaultServiceRpsLimit s;
     totalKillSwitchBuffer := totalKillSwitchBuffer s |}.

Definition increment (c : RateLimitCounter) : RateLimitCounter :=
  {| rps := rps c + 1; rpsLimit := rpsLimit c |}.

Definition incrementIn (k : string) (o : obj RateLimitCounter)
    : obj RateLimitCounter :=
  match get k o with
  | Some c => put k (increment c) o
  | None => o
  end.

Definition createIn (k : string) (limit : Z) (o : obj RateLimitCounter)
    : obj RateLimitCounter :=
  match get k o with
  | Some _ => o
  | None => put k {| rps := 0; rpsLimit := limit |} o
  end.

Definition isExempt (self : t) (serviceName : string) : bool :=
  existsb (String.eqb serviceName) (exemptServices self).

Definition getRpsLimitForService (self : t) (serviceName : string) : Z :=
  match get serviceName (rpsLimitForServiceName self) with
  | Some limit => limit
  | None => defaultServiceRpsLimit self
  end.

(** The edge counters are for statistics only; they carry no limit. *)
Definition incrementEdgeCounter (name : string) (self : t) : t :=
  set_edgeCounters (incrementIn name (createIn name 0 (edgeCounters self))) self.

Definition createServiceCounter (serviceName : string) (self : t) : t :=
  set_serviceCounters
    (createIn serviceName (getRpsLimitForService self serviceName)
       (serviceCounters self)) self.

Definition createKillSwitchServiceCounter (serviceName : string) (self : t) : t :=
  set_ksCounters
    (createIn serviceName
       (totalKillSwitchBuffer self * getRpsLimitForService self serviceName)
       (ksCounters self)) self.

Definition removeServiceCounter (serviceName : string) (self : t) : t :=
  set_serviceCounters (del serviceName (serviceCounters self)) self.

Definition removeKillSwitchCounter (serviceName : string) (self : t) : t :=
  set_ksCounters (del serviceName (ksCounters self)) self.

Definition incrementTotalCounter (serviceName : string) (self : t) : t :=
  set_totalRequestCounter (increment (totalRequestCounter self)) self.

Definition incrementServiceCounter (serviceName : string) (self : t) : t :=
  set_serviceCounters (incrementIn serviceName (serviceCounters self)) self.

Definition incrementKillSwitchTotalCounter (serviceName : string) (self : t) : t :=
  set_ksTotalCounter (increment (ksTotalCounter self)) self.

Definition incrementKillSwitchServiceCounter (serviceName : string) (self : t) : t :=
  set_ksCounters (incrementIn serviceName (ksCounters self)) self.

(** A counter is over when its [rps] is above its limit; at the limit it
    is not. *)
Definition over (c : RateLimitCounter) : bool := rpsLimit c <? rps c.

Definition overIn (k : string) (o : obj RateLimitCounter) : bool :=
  match get k o with
  | Some c => over c
  | None => false
  end.

Definition shouldRateLimitTotalRequest (self : t) (serviceName : string) : bool :=
  if isExempt self serviceName then false
  else over (totalRequestCounter self).

Definition shouldRateLimitService (self : t) (serviceName : string) : bool :=
  if isExempt self serviceName then false
  else overIn serviceName (serviceCounters self).

Definition shouldKillSwitchTotalRequest (self : t) (serviceName : string) : bool :=
  if isExempt self serviceName then false
  else over (ksTotalCounter self).

Definition shouldKillSwitchService (self : t) (serviceName : string) : bool :=
  if isExempt self serviceName then false
  else overIn serviceName (ksCounters self).

End RateLimiter.

(** ** The service dispatch handler *)

Module ServiceProxy.

Import Js TChannel.

Definition SERVICE_PURGE_PERIOD : Z := 5 * 60 * 1000.
Definition DEFAULT_MIN_PEERS_PER_WORKER : Z := 5.
Definition DEFAULT_MIN_PEERS_PER_RELAY : Z := 5.
Definition DEFAULT_REAP_PEERS_PERIOD : Z := 5 * 60 * 1000.
Definition DEFAULT_PRUNE_PEERS_PERIOD : Z := 2 * 60 * 1000.
Definition DEFAULT_DRAIN_TIMEOUT : Z := 30 * 1000.

Inductive RateLimitReason :=
| RATE_LIMIT_TOTAL
| RATE_LIMIT_SERVICE
| RATE_LIMIT_KILLSWITCH
| RATE_LIMIT_NONE.

(** [peersToPrune[hostPort]] *)
Record PruneInfo := { lastRefresh : Z; pruneReason : string }.

(** A result that may be a thrown [TypeError]; the state reached at the
    throw is kept. *)
Inductive result (A : Type) :=
| Ok (a : A)
| Throw (message : string) (a : A).

Arguments Ok {A} a.
Arguments Throw {A} message a.

(** The state a result carries, thrown or not. *)
Definition stateOf {A : Type} (r : result A) : A :=
  match r with
  | Ok a => a
  | Throw _ a => a
  end.

(** [options.x || DEFAULT] for a number. *)
Definition orNum (o : option Z) (d : Z) : Z :=
  match o with
  | Some v => if v =? 0 then d else v
  | None => d
  end.

(** [x > y] where [y] may be [undefined]: the comparison with [NaN] is
    false. *)
Definition gtNum (x : Z) (y : option Z) : bool :=
  match y with
  | Some v => v <? x
  | None => false
  end.

(** [addIndexEntry(index, keya, keyb, value)] *)
Definition addIndexEntry (index : obj (obj Z)) (keya keyb : string) (value : Z)
    : obj (obj Z) :=
  let level := match get keya index with Some level => level | None => [] end in
  put keya (put keyb value level) index.

(** [deleteIndexEntry(index, keya, keyb)]: the entry goes only when its
    value is truthy. *)
Definition deleteIndexEntry (index : obj (obj Z)) (keya keyb : string)
    : obj (obj Z) :=
  match get keya index with
  | Some level =>
      match get keyb level with
      | Some value =>
          if truthy value then
            let level' := del keyb level in
            if isObjectEmpty level' then del keya index
            else put keya level' index
          else index
      | None => index
      end
  | None => index
  end.

(** [ToNumber] of a string, for the strings that are blank or decimal
    digits between blanks; every other string counts as [NaN].  (Names
    that are hexadecimal, fractional, signed or exponent literals, or
    "Infinity", are outside this fragment.) *)
Fixpoint allSpaces (s : string) : bool :=
  match s with
  | EmptyString => true
  | String c s' => isSpace c && allSpaces s'
  end.

Fixpoint digitsThenSpaces (s : string) (acc : Z) : option Z :=
  match s with
  | EmptyString => Some acc
  | String c s' =>
      if isDigit c then digitsThenSpaces s' (10 * acc + digitVal c)
      else if allSpaces s then Some acc else None
  end.

Definition StringToNumber (s : string) : option Z :=
  digitsThenSpaces (skipSpaces s) 0.

(** [i < array]: the array is turned into the string of its elements
    joined by commas, and that string into a number. *)
Definition ltNumArray (i : Z) (array : list string) : bool :=
  match StringToNumber (String.concat "," array) with
  | Some n => i <? n
  | None => false
  end.

(** The value an interval scan hands to [each] next to the key: the
    argument [serviceNames] of [reapSinglePeer] is either an array of
    names or, as stored in [peersToReap], a level of the index. *)
Inductive ServiceNames :=
| NamesArray (names : list string)
| NamesLevel (level : obj Z).

(** [serviceNames.length]; [None] is [undefined]. *)
Definition namesLength (serviceNames : ServiceNames) : option Z :=
  match serviceNames with
  | NamesArray names => Some (Z.of_nat (List.length names))
  | NamesLevel level => get "length" level
  end.

(** [serviceNames[i]] turned into a property key, as every use of it is:
    a name is itself, a number is its decimal string, and a missing
    element is "undefined". *)
Definition namesKey (serviceNames : ServiceNames) (i : Z) : string :=
  match serviceNames with
  | NamesArray names =>
      match nth_error names (Z.to_nat i) with
      | Some name => name
      | None => "undefined"
      end
  | NamesLevel level =>
      match get (numToString i) level with
      | Some value => numToString value
      | None => "undefined"
      end
  end.

Section WithPartialRange.

Context {PR : Type} {prOps : PartialRange.Ops PR}.

Record Dispatcher := {
  (** [self.channel.hostPort] *)
  hostPort : string;
  egressNodes : EgressNodes.t;
  circuitsEnabled : bool;
  rateLimiterEnabled : bool;
  partialAffinityEnabled : bool;
  minPeersPerWorker : Z;
  minPeersPerRelay : Z;
  drainTimeout : Z;
  (** [self.servicePurgePeriod]; [None] is [undefined] *)
  servicePurgePeriod : option Z;
  (** the [interval] of the three interval scans *)
  servicePurgerInterval : Z;
  peerReaperInterval : Z;
  peerPrunerInterval : Z;
  (** [self.channel.subChannels] *)
  subChannels : obj SubChannel;
  (** [self.channel.peers], the transport peer table *)
  peers : obj Peer;
  (** the sub-channels on which [close()] was called *)
  closedChannels : list string;
  relaysFor : obj (list string);
  partialRanges : obj PR;
  exitServices : obj Z;
  connectedServicePeers : obj (obj Z);
  connectedPeerServices : obj (obj Z);
  peersToReap : obj (obj Z);
  knownPeers : obj (obj Z);
  peersToPrune : obj PruneInfo;
  rateLimiter : RateLimiter.t;
  circuits : option Circuits.CircuitsByServiceName;
  blockingTable : option (obj Z);
  blockingTableRemoteConfig : option (obj Z)
}.

Definition set_egressNodes (v : EgressNodes.t) (s : Dispatcher) : Dispatcher :=
  {| hostPort := hostPort s;
     egressNodes := v;
     circuitsEnabled := circuitsEnabled s;
     rateLimiterEnabled := rateLimiterEnabled s;
     partialAffinityEnabled := partialAffinityEnabled s;
     minPeersPerWorker := minPeersPerWorker s;
     minPeersPerRelay := minPeersPerRelay s;
     drainTimeout := drainTimeout s;
     servicePurgePeriod := servicePurgePeriod s;
     servicePurgerInterval := servicePurgerInterval s;
     peerReaperInterval := peerReaperInterval s;
     peerPrunerInterval := peerPrunerInterval s;
     subChannels := subChannels s;
     peers := peers s;
     closedChannels := closedChannels s;
     relaysFor := relaysFor s;
     partialRanges := partialRanges s;
     exitServices := exitServices s;
     connectedServicePeers := connectedServicePeers s;
     connectedPeerServices := connectedPeerServices s;
     peersToReap := peersToReap s;
     knownPeers := knownPeers s;
     peersToPrune := peersToPrune s;
     rateLimiter := rateLimiter s;
     circuits := circuits s;
     blockingTable := blockingTable s;
     blockingTableRemoteConfig := blockingTableRemoteConfig s |}.

Definition set_circuitsEnabled (v : bool) (s : Dispatcher) : Dispatcher :=
  {| hostPort := hostPort s;
     egressNodes := egressNodes s;
     circuitsEnabled := v;
     rateLimiterEnabled := rateLimiterEnabled s;
     partialAffinityEnabled := partialAffinityEnabled s;
     minPeersPerWorker := minPeersPerWorker s;
     minPeersPerRelay := minPeersPerRelay s;
     drainTimeout := drainTimeout s;
     servicePurgePeriod := servicePurgePeriod s;
     servicePurgerInterval := servicePurgerInterval s;
     peerReaperInterval := peerReaperInterval s;
     peerPrunerInterval := peerPrunerInterval s;
     subChannels := subChannels s;
     peers := peers s;
     closedChannels := closedChannels s;
     relaysFor := relaysFor s;
     partialRanges := partialRanges s;
     exitServices := exitServices s;
     connectedServicePeers := connectedServicePeers s;
     connectedPeerServices := connectedPeerServices s;
     peersToReap := peersToReap s;
     knownPeers := knownPeers s;
     peersToPrune := peersToPrune s;
     rateLimiter := rateLimiter s;
     circuits := circuits s;
     blockingTable := blockingTable s;
     blockingTableRemoteConfig := blockingTableRemoteConfig s |}.

Definition set_rateLimiterEnabled (v : bool) (s : Dispatcher) : Dispatcher :=
  {| hostPort := hostPort s;
     egressNodes := egressNodes s;
     circuitsEnabled := circuitsEnabled s;
     rateLimiterEnabled := v;
     partialAffinityEnabled := partialAffinityEnabled s;
     minPeersPerWorker := minPeersPerWorker s;
     minPeersPerRelay := minPeersPerRelay s;
     drainTimeout := drainTimeout s;
     servicePurgePeriod := servicePurgePeriod s;
     servicePurgerInterval := servicePurgerInterval s;
     peerReaperInterval := peerReaperInterval s;
     peerPrunerInterval := peerPrunerInterval s;
     subChannels := subChannels s;
     peers := peers s;
     closedChannels := closedChannels s;
     relaysFor := relaysFor s;
     partialRanges := partialRanges s;
     exitServices := exitServices s;
     connectedServicePeers := connectedServicePeers s;
     connectedPeerServices := connectedPeerServices s;
     peersToReap := peersToReap s;
     knownPeers := knownPeers s;
     peersToPrune := peersToPrune s;
     rateLimiter := rateLimiter s;
     circuits := circuits s;
     blockingTable := blockingTable s;
     blockingTableRemoteConfig := blockingTableRemoteConfig s |}.

Definition set_partialAffinityEnabled (v : bool) (s : Dispatcher) : Dispatcher :=
  {| hostPort := hostPort s;
     egressNodes := egressNodes s;
     circuitsEnabled := circuitsEnabled s;
     rateLimiterEnabled := rateLimiterEnabled s;
     partialAffinityEnabled := v;
     minPeersPerWorker := minPeersPerWorker s;
     minPeersPerRelay := minPeersPerRelay s;
     drainTimeout := drainTimeout s;
     servicePurgePeriod := servicePurgePeriod s;
     servicePurgerInterval := servicePurgerInterval s;
     peerReaperInterval := peerReaperInterval s;
     peerPrunerInterval := peerPrunerInterval s;
     subChannels := subChannels s;
     peers := peers s;
     closedChannels := closedChannels s;
     relaysFor := relaysFor s;
     partialRanges := partialRanges s;
     exitServices := exitServices s;
     connectedServicePeers := connectedServicePeers s;
     connectedPeerServices := connectedPeerServices s;
     peersToReap := peersToReap s;
     knownPeers := knownPeers s;
     peersToPrune := peersToPrune s;
     rateLimiter := rateLimiter s;
     circuits := circuits s;
     blockingTable := blockingTable s;
     blockingTableRemoteConfig := blockingTableRemoteConfig s |}.

Definition set_subChannels (v : obj SubChannel) (s : Dispatcher) : Dispatcher :=
  {| hostPort := hostPort s;
     egressNodes := egressNodes s;
     circuitsEnabled := circuitsEnabled s;
     rateLimiterEnabled := rateLimiterEnabled s;
     partialAffinityEnabled := partialAffinityEnabled s;
     minPeersPerWorker := minPeersPerWorker s;
     minPeersPerRelay := minPeersPerRelay s;
     drainTimeout := drainTimeout s;
     servicePurgePeriod := servicePurgePeriod s;
     servicePurgerInterval := servicePurgerInterval s;
     peerReaperInterval := peerReaperInterval s;
     peerPrunerInterval := peerPrunerInterval s;
     subChannels := v;
     peers := peers s;
     closedChannels := closedChannels s;
     relaysFor := relaysFor s;
     partialRanges := partialRanges s;
     exitServices := exitServices s;
     connectedServicePeers := connectedServicePeers s;
     connectedPeerServices := connectedPeerServices s;
     peersToReap := peersToReap s;
     knownPeers := knownPeers s;
     peersToPrune := peersToPrune s;
     rateLimiter := rateLimiter s;
     circuits := circuits s;
     blockingTable := blockingTable s;
     blockingTableRemoteConfig := blockingTableRemoteConfig s |}.

Definition set_peers (v : obj Peer) (s : Dispatcher) : Dispatcher :=
  {| hostPort := hostPort s;
     egressNodes := egressNodes s;
     circuitsEnabled := circuitsEnabled s;
     rateLimiterEnabled := rateLimiterEnabled s;
     partialAffinityEnabled := partialAffinityEnabled s;
     minPeersPerWorker := minPeersPerWorker s;
     minPeersPerRelay := minPeersPerRelay s;
     drainTimeout := drainTimeout s;
     servicePurgePeriod := servicePurgePeriod s;
     servicePurgerInterval := servicePurgerInterval s;
     peerReaperInterval := peerReaperInterval s;
     peerPrunerInterval := peerPrunerInterval s;
     subChannels := subChannels s;
     peers := v;
     closedChannels := closedChannels s;
     relaysFor := relaysFor s;
     partialRanges := partialRanges s;
     exitServices := exitServices s;
     connectedServicePeers := connectedServicePeers s;
     connectedPeerServices := connectedPeerServices s;
     peersToReap := peersToReap s;
     knownPeers := knownPeers s;
     peersToPrune := peersToPrune s;
     rateLimiter := rateLimiter s;
     circuits := circuits s;
     blockingTable := blockingTable s;
     blockingTableRemoteConfig := blockingTableRemoteConfig s |}.

Definition set_closedChannels (v : list string) (s : Dispatcher) : Dispatcher :=
  {| hostPort := hostPort s;
     egressNodes := egressNodes s;
     circuitsEnabled := circuitsEnabled s;
     rateLimiterEnabled := rateLimiterEnabled s;
     partialAffinityEnabled := partialAffinityEnabled s;
     minPeersPerWorker := minPeersPerWorker s;
     minPeersPerRelay := minPeersPerRelay s;
     drainTimeout := drainTimeout s;
     servicePurgePeriod := servicePurgePeriod s;
     servicePurgerInterval := servicePurgerInterval s;
     peerReaperInterval := peerReaperInterval s;
     peerPrunerInterval := peerPrunerInterval s;
     subChannels := subChannels s;
     peers := peers s;
     closedChannels := v;
     relaysFor := relaysFor s;
     partialRanges := partialRanges s;
     exitServices := exitServices s;
     connectedServicePeers := connectedServicePeers s;
     connectedPeerServices := connectedPeerServices s;
     peersToReap := peersToReap s;
     knownPeers := knownPeers s;
     peersToPrune := peersToPrune s;
     rateLimiter := rateLimiter s;
     circuits := circuits s;
     blockingTable := blockingTable s;
     blockingTableRemoteConfig := blockingTableRemoteConfig s |}.

Definition set_relaysFor (v : obj (list string)) (s : Dispatcher) : Dispatcher :=
  {| hostPort := hostPort s;
     egressNodes := egressNodes s;
     circuitsEnabled := circuitsEnabled s;
     rateLimiterEnabled := rateLimiterEnabled s;
     partialAffinityEnabled := partialAffinityEnabled s;
     minPeersPerWorker := minPeersPerWorker s;
     minPeersPerRelay := minPeersPerRelay s;
     drainTimeout := drainTimeout s;
     servicePurgePeriod := servicePurgePeriod s;
     servicePurgerInterval := servicePurgerInterval s;
     peerReaperInterval := peerReaperInterval s;
     peerPrunerInterval := peerPrunerInterval s;
     subChannels := subChannels s;
     peers := peers s;
     closedChannels := closedChannels s;
     relaysFor := v;
     partialRanges := partialRanges s;
     exitServices := exitServices s;
     connectedServicePeers := connectedServicePeers s;
     connectedPeerServices := connectedPeerServices s;
     peersToReap := peersToReap s;
     knownPeers := knownPeers s;
     peersToPrune := peersToPrune s;
     rateLimiter := rateLimiter s;
     circuits := circuits s;
     blockingTable := blockingTable s;
     blockingTableRemoteConfig := blockingTableRemoteConfig s |}.

Definition set_partialRanges (v : obj PR) (s : Dispatcher) : Dispatcher :=
  {| hostPort := hostPort s;
     egressNodes := egressNodes s;
     circuitsEnabled := circuitsEnabled s;
     rateLimiterEnabled := rateLimiterEnabled s;
     partialAffinityEnabled := partialAffinityEnabled s;
     minPeersPerWorker := minPeersPerWorker s;
     minPeersPerRelay := minPeersPerRelay s;
     drainTimeout := drainTimeout s;
     servicePurgePeriod := servicePurgePeriod s;
     servicePurgerInterval := servicePurgerInterval s;
     peerReaperInterval := peerReaperInterval s;
     peerPrunerInterval := peerPrunerInterval s;
     subChannels := subChannels s;
     peers := peers s;
     closedChannels := closedChannels s;
     relaysFor := relaysFor s;
     partialRanges := v;
     exitServices := exitServices s;
     connectedServicePeers := connectedServicePeers s;
     connectedPeerServices := connectedPeerServices s;
     peersToReap := peersToReap s;
     knownPeers := knownPeers s;
     peersToPrune := peersToPrune s;
     rateLimiter := rateLimiter s;
     circuits := circuits s;
     blockingTable := blockingTable s;
     blockingTableRemoteConfig := blockingTableRemoteConfig s |}.

Definition set_exitServices (v : obj Z) (s : Dispatcher) : Dispatcher :=
  {| hostPort := hostPort s;
     egressNodes := egressNodes s;
     circuitsEnabled := circuitsEnabled s;
     rateLimiterEnabled := rateLimiterEnabled s;
     partialAffinityEnabled := partialAffinityEnabled s;
     minPeersPerWorker := minPeersPerWorker s;
     minPeersPerRelay := minPeersPerRelay s;
     drainTimeout := drainTimeout s;
     servicePurgePeriod := servicePurgePeriod s;
     servicePurgerInterval := servicePurgerInterval s;
     peerReaperInterval := peerReaperInterval s;
     peerPrunerInterval := peerPrunerInterval s;
     subChannels := subChannels s;
     peers := peers s;
     closedChannels := closedChannels s;
     relaysFor := relaysFor s;
     partialRanges := partialRanges s;
     exitServices := v;
     connectedServicePeers := connectedServicePeers s;
     connectedPeerServices := connectedPeerServices s;
     peersToReap := peersToReap s;
     knownPeers := knownPeers s;
     peersToPrune := peersToPrune s;
     rateLimiter := rateLimiter s;
     circuits := circuits s;
     blockingTable := blockingTable s;
     blockingTableRemoteConfig := blockingTableRemoteConfig s |}.

Definition set_connectedServicePeers (v : obj (obj Z)) (s : Dispatcher) : Dispatcher :=
  {| hostPort := hostPort s;
     egressNodes := egressNodes s;
     circuitsEnabled := circuitsEnabled s;
     rateLimiterEnabled := rateLimiterEnabled s;
     partialAffinityEnabled := partialAffinityEnabled s;
     minPeersPerWorker := minPeersPerWorker s;
     minPeersPerRelay := minPeersPerRelay s;
     drainTimeout := drainTimeout s;
     servicePurgePeriod := servicePurgePeriod s;
     servicePurgerInterval := servicePurgerInterval s;
     peerReaperInterval := peerReaperInterval s;
     peerPrunerInterval := peerPrunerInterval s;
     subChannels := subChannels s;
     peers := peers s;
     closedChannels := closedChannels s;
     relaysFor := relaysFor s;
     partialRanges := partialRanges s;
     exitServices := exitServices s;
     connectedServicePeers := v;
     connectedPeerServices := connectedPeerServices s;
     peersToReap := peersToReap s;
     knownPeers := knownPeers s;
     peersToPrune := peersToPrune s;
     rateLimiter := rateLimiter s;
     circuits := circuits s;
     blockingTable := blockingTable s;
     blockingTableRemoteConfig := blockingTableRemoteConfig s |}.

Definition set_connectedPeerServices (v : obj (obj Z)) (s : Dispatcher) : Dispatcher :=
  {| hostPort := hostPort s;
     egressNodes := egressNodes s;
     circuitsEnabled := circuitsEnabled s;
     rateLimiterEnabled := rateLimiterEnabled s;
     partialAffinityEnabled := partialAffinityEnabled s;
     minPeersPerWorker := minPeersPerWorker s;
     minPeersPerRelay := minPeersPerRelay s;
     drainTimeout := drainTimeout s;
     servicePurgePeriod := servicePurgePeriod s;
     servicePurgerInterval := servicePurgerInterval s;
     peerReaperInterval := peerReaperInterval s;
     peerPrunerInterval := peerPrunerInterval s;
     subChannels := subChannels s;
     peers := peers s;
     closedChannels := closedChannels s;
     relaysFor := relaysFor s;
     partialRanges := partialRanges s;
     exitServices := exitServices s;
     connectedServicePeers := connectedServicePeers s;
     connectedPeerServices := v;
     peersToReap := peersToReap s;
     knownPeers := knownPeers s;
     peersToPrune := peersToPrune s;
     rateLimiter := rateLimiter s;
     circuits := circuits s;
     blockingTable := blockingTable s;
     blockingTableRemoteConfig := blockingTableRemoteConfig s |}.

Definition set_peersToReap (v : obj (obj Z)) (s : Dispatcher) : Dispatcher :=
  {| hostPort := hostPort s;
     egressNodes := egressNodes s;
     circuitsEnabled := circuitsEnabled s;
     rateLimiterEnabled := rateLimiterEnabled s;
     partialAffinityEnabled := partialAffinityEnabled s;
     minPeersPerWorker := minPeersPerWorker s;
     minPeersPerRelay := minPeersPerRelay s;
     drainTimeout := drainTimeout s;
     servicePurgePeriod := servicePurgePeriod s;
     servicePurgerInterval := servicePurgerInterval s;
     peerReaperInterval := peerReaperInterval s;
     peerPrunerInterval := peerPrunerInterval s;
     subChannels := subChannels s;
     peers := peers s;
     closedChannels := closedChannels s;
     relaysFor := relaysFor s;
     partialRanges := partialRanges s;
     exitServices := exitServices s;
     connectedServicePeers := connectedServicePeers s;
     connectedPeerServices := connectedPeerServices s;
     peersToReap := v;
     knownPeers := knownPeers s;
     peersToPrune := peersToPrune s;
     rateLimiter := rateLimiter s;
     circuits := circuits s;
     blockingTable := blockingTable s;
     blockingTableRemoteConfig := blockingTableRemoteConfig s |}.

Definition set_knownPeers (v : obj (obj Z)) (s : Dispatcher) : Dispatcher :=
  {| hostPort := hostPort s;
     egressNodes := egressNodes s;
     circuitsEnabled := circuitsEnabled s;
     rateLimiterEnabled := rateLimiterEnabled s;
     partialAffinityEnabled := partialAffinityEnabled s;
     minPeersPerWorker := minPeersPerWorker s;
     minPeersPerRelay := minPeersPerRelay s;
     drainTimeout := drainTimeout s;
     servicePurgePeriod := servicePurgePeriod s;
     servicePurgerInterval := servicePurgerInterval s;
     peerReaperInterval := peerReaperInterval s;
     peerPrunerInterval := peerPrunerInterval s;
     subChannels := subChannels s;
     peers := peers s;
     closedChannels := closedChannels s;
     relaysFor := relaysFor s;
     partialRanges := partialRanges s;
     exitServices := exitServices s;
     connectedServicePeers := connectedServicePeers s;
     connectedPeerServices := connectedPeerServices s;
     peersToReap := peersToReap s;
     knownPeers := v;
     peersToPrune := peersToPrune s;
     rateLimiter := rateLimiter s;
     circuits := circuits s;
     blockingTable := blockingTable s;
     blockingTableRemoteConfig := blockingTableRemoteConfig s |}.

Definition set_peersToPrune (v : obj PruneInfo) (s : Dispatcher) : Dispatcher :=
  {| hostPort := hostPort s;
     egressNodes := egressNodes s;
     circuitsEnabled := circuitsEnabled s;
     rateLimiterEnabled := rateLimiterEnabled s;
     partialAffinityEnabled := partialAffinityEnabled s;
     minPeersPerWorker := minPeersPerWorker s;
     minPeersPerRelay := minPeersPerRelay s;
     drainTimeout := drainTimeout s;
     servicePurgePeriod := servicePurgePeriod s;
     servicePurgerInterval := servicePurgerInterval s;
     peerReaperInterval := peerReaperInterval s;
     peerPrunerInterval := peerPrunerInterval s;
     subChannels := subChannels s;
     peers := peers s;
     closedChannels := closedChannels s;
     relaysFor := relaysFor s;
     partialRanges := partialRanges s;
     exitServices := exitServices s;
     connectedServicePeers := connectedServicePeers s;
     connectedPeerServices := connectedPeerServices s;
     peersToReap := peersToReap s;
     knownPeers := knownPeers s;
     peersToPrune := v;
     rateLimiter := rateLimiter s;
     circuits := circuits s;
     blockingTable := blockingTable s;
     blockingTableRemoteConfig := blockingTableRemoteConfig s |}.

Definition set_rateLimiter (v : RateLimiter.t) (s : Dispatcher) : Dispatcher :=
  {| hostPort := hostPort s;
     egressNodes := egressNodes s;
     circuitsEnabled := circuitsEnabled s;
     rateLimiterEnabled := rateLimiterEnabled s;
     partialAffinityEnabled := partialAffinityEnabled s;
     minPeersPerWorker := minPeersPerWorker s;
     minPeersPerRelay := minPeersPerRelay s;
     drainTimeout := drainTimeout s;
     servicePurgePeriod := servicePurgePeriod s;
     servicePurgerInterval := servicePurgerInterval s;
     peerReaperInterval := peerReaperInterval s;
     peerPrunerInterval := peerPrunerInterval s;
     subChannels := subChannels s;
     peers := peers s;
     closedChannels := closedChannels s;
     relaysFor := relaysFor s;
     partialRanges := partialRanges s;
     exitServices := exitServices s;
     connectedServicePeers := connectedServicePeers s;
     connectedPeerServices := connectedPeerServices s;
     peersToReap := peersToReap s;
     knownPeers := knownPeers s;
     peersToPrune := peersToPrune s;
     rateLimiter := v;
     circuits := circuits s;
     blockingTable := blockingTable s;
     blockingTableRemoteConfig := blockingTableRemoteConfig s |}.

Definition set_circuits (v : option Circuits.CircuitsByServiceName) (s : Dispatcher) : Dispatcher :=
  {| hostPort := hostPort s;
     egressNodes := egressNodes s;
     circuitsEnabled := circuitsEnabled s;
     rateLimiterEnabled := rateLimiterEnabled s;
     partialAffinityEnabled := partialAffinityEnabled s;
     minPeersPerWorker := minPeersPerWorker s;
     minPeersPerRelay := minPeersPerRelay s;
     drainTimeout := drainTimeout s;
     servicePurgePeriod := servicePurgePeriod s;
     servicePurgerInterval := servicePurgerInterval s;
     peerReaperInterval := peerReaperInterval s;
     peerPrunerInterval := peerPrunerInterval s;
     subChannels := subChannels s;
     peers := peers s;
     closedChannels := closedChannels s;
     relaysFor := relaysFor s;
     partialRanges := partialRanges s;
     exitServices := exitServices s;
     connectedServicePeers := connectedServicePeers s;
     connectedPeerServices := connectedPeerServices s;
     peersToReap := peersToReap s;
     knownPeers := knownPeers s;
     peersToPrune := peersToPrune s;
     rateLimiter := rateLimiter s;
     circuits := v;
     blockingTable := blockingTable s;
     blockingTableRemoteConfig := blockingTableRemoteConfig s |}.

Definition set_blockingTable (v : option (obj Z)) (s : Dispatcher) : Dispatcher :=
  {| hostPort := hostPort s;
     egressNodes := egressNodes s;
     circuitsEnabled := circuitsEnabled s;
     rateLimiterEnabled := rateLimiterEnabled s;
     partialAffinityEnabled := partialAffinityEnabled s;
     minPeersPerWorker := minPeersPerWorker s;
     minPeersPerRelay := minPeersPerRelay s;
     drainTimeout := drainTimeout s;
     servicePurgePeriod := servicePurgePeriod s;
     servicePurgerInterval := servicePurgerInterval s;
     peerReaperInterval := peerReaperInterval s;
     peerPrunerInterval := peerPrunerInterval s;
     subChannels := subChannels s;
     peers := peers s;
     closedChannels := closedChannels s;
     relaysFor := relaysFor s;
     partialRanges := partialRanges s;
     exitServices := exitServices s;
     connectedServicePeers := connectedServicePeers s;
     connectedPeerServices := connectedPeerServices s;
     peersToReap := peersToReap s;
     knownPeers := knownPeers s;
     peersToPrune := peersToPrune s;
     rateLimiter := rateLimiter s;
     circuits := circuits s;
     blockingTable := v;
     blockingTableRemoteConfig := blockingTableRemoteConfig s |}.

Definition set_blockingTableRemoteConfig (v : option (obj Z)) (s : Dispatcher) : Dispatcher :=
  {| hostPort := hostPort s;
     egressNodes := egressNodes s;
     circuitsEnabled := circuitsEnabled s;
     rateLimiterEnabled := rateLimiterEnabled s;
     partialAffinityEnabled := partialAffinityEnabled s;
     minPeersPerWorker := minPeersPerWorker s;
     minPeersPerRelay := minPeersPerRelay s;
     drainTimeout := drainTimeout s;
     servicePurgePeriod := servicePurgePeriod s;
     servicePurgerInterval := servicePurgerInterval s;
     peerReaperInterval := peerReaperInterval s;
     peerPrunerInterval := peerPrunerInterval s;
     subChannels := subChannels s;
     peers := peers s;
     closedChannels := closedChannels s;
     relaysFor := relaysFor s;
     partialRanges := partialRanges s;
     exitServices := exitServices s;
     connectedServicePeers := connectedServicePeers s;
     connectedPeerServices := connectedPeerServices s;
     peersToReap := peersToReap s;
     knownPeers := knownPeers s;
     peersToPrune := peersToPrune s;
     rateLimiter := rateLimiter s;
     circuits := circuits s;
     blockingTable := blockingTable s;
     blockingTableRemoteConfig := v |}.

(** *** The constructor *)

Record Options := {
  channel_hostPort : string;
  channel_subChannels : obj SubChannel;
  channel_peers : obj Peer;
  opt_egressNodes : EgressNodes.t;
  (** [new RateLimiter({...})], built from the rate limiting options *)
  opt_rateLimiter : RateLimiter.t;
  opt_rateLimiterEnabled : bool;
  opt_partialAffinityEnabled : bool;
  opt_minPeersPerWorker : option Z;
  opt_minPeersPerRelay : option Z;
  opt_drainTimeout : option Z;
  opt_servicePurgePeriod : option Z;
  opt_reapPeersPeriod : option Z;
  opt_prunePeersPeriod : option Z;
  (** [options.circuitsConfig && options.circuitsConfig.enabled] *)
  opt_circuitsEnabled : bool
}.

(** [enableCircuits()] *)
Definition enableCircuits (s : Dispatcher) : Dispatcher :=
  if circuitsEnabled s then s
  else
    let s1 := set_circuitsEnabled true s in
    let s2 :=
      match circuits s1 with
      | Some _ => s1
      | None => set_circuits (Some []) s1
      end in
    set_subChannels
      (map (fun kc : string * SubChannel =>
              let c := snd kc in
              (fst kc,
               match serviceProxyMode c with
               | Some exit =>
                   if handlerIsRelay c then
                     {| serviceProxyMode := serviceProxyMode c;
                        chanPeers := chanPeers c;
                        preferConnectionDirectionOut := preferConnectionDirectionOut c;
                        handlerIsRelay := handlerIsRelay c;
                        handlerHandlesLazily := handlerHandlesLazily c;
                        handlerCircuits := true |}
                   else c
               | _ => c
               end))
         (subChannels s2)) s2.

(** [disableCircuits()] *)
Definition disableCircuits (s : Dispatcher) : Dispatcher :=
  if negb (circuitsEnabled s) then s
  else
    let s1 := set_circuitsEnabled false s in
    set_subChannels
      (map (fun kc : string * SubChannel =>
              let c := snd kc in
              (fst kc,
               match serviceProxyMode c with
               | Some exit =>
                   if handlerIsRelay c then set_handlerCircuits false c else c
               | _ => c
               end))
         (subChannels s1)) s1.

(** [enableRateLimiter()] *)
Definition enableRateLimiter (s : Dispatcher) : Dispatcher :=
  set_rateLimiterEnabled true s.

(** [disableRateLimiter()] *)
Definition disableRateLimiter (s : Dispatcher) : Dispatcher :=
  set_rateLimiterEnabled false s.

(** [setPartialAffinityEnabled(enabled)] *)
Definition setPartialAffinityEnabled (enabled : bool) (s : Dispatcher)
    : Dispatcher :=
  set_connectedPeerServices []
    (set_connectedServicePeers []
       (set_partialRanges [] (set_partialAffinityEnabled enabled s))).

(** [new ServiceDispatchHandler(options)].  The purge period of the options
    becomes the interval of the service purger; no statement of the
    constructor, nor of any method, assigns [self.servicePurgePeriod]. *)
Definition ServiceDispatchHandler (options : Options) : Dispatcher :=
  let s :=
    {| hostPort := channel_hostPort options;
       egressNodes := opt_egressNodes options;
       circuitsEnabled := false;
       rateLimiterEnabled := opt_rateLimiterEnabled options;
       partialAffinityEnabled := opt_partialAffinityEnabled options;
       minPeersPerWorker :=
         orNum (opt_minPeersPerWorker options) DEFAULT_MIN_PEERS_PER_WORKER;
       minPeersPerRelay :=
         orNum (opt_minPeersPerRelay options) DEFAULT_MIN_PEERS_PER_RELAY;
       drainTimeout := orNum (opt_drainTimeout options) DEFAULT_DRAIN_TIMEOUT;
       servicePurgePeriod := None;
       servicePurgerInterval :=
         orNum (opt_servicePurgePeriod options) SERVICE_PURGE_PERIOD;
       peerReaperInterval :=
         orNum (opt_reapPeersPeriod options) DEFAULT_REAP_PEERS_PERIOD;
       peerPrunerInterval :=
         orNum (opt_prunePeersPeriod options) DEFAULT_PRUNE_PEERS_PERIOD;
       subChannels := channel_subChannels options;
       peers := channel_peers options;
       closedChannels := [];
       relaysFor := [];
       partialRanges := [];
       exitServices := [];
       connectedServicePeers := [];
       connectedPeerServices := [];
       peersToReap := [];
       knownPeers := [];
       peersToPrune := [];
       rateLimiter := opt_rateLimiter options;
       circuits := None;
       blockingTable := None;
       blockingTableRemoteConfig := None |} in
  if opt_circuitsEnabled options then enableCircuits s else s.

(** *** Sub-channels and their peers *)

(** A mutation of the sub-channel object registered under [name]. *)
Definition withChannel (name : string) (f : SubChannel -> SubChannel)
    (s : Dispatcher) : Dispatcher :=
  match get name (subChannels s) with
  | Some c => set_subChannels (put name (f c) (subChannels s)) s
  | None => s
  end.

(** A mutation of the peer object of [hostPort]. *)
Definition withPeer (hostPort : string) (f : Peer -> Peer)
    (s : Dispatcher) : Dispatcher :=
  match get hostPort (peers s) with
  | Some p => set_peers (put hostPort (f p) (peers s)) s
  | None => s
  end.

Definition modeOf (name : string) (s : Dispatcher) : option Mode :=
  match get name (subChannels s) with
  | Some c => serviceProxyMode c
  | None => None
  end.

Definition peersOf (name : string) (s : Dispatcher) : list string :=
  match get name (subChannels s) with
  | Some c => chanPeers c
  | None => []
  end.

(** [subChannel.peers.get(hostPort)] *)
Definition subPeers_get (name hostPort : string) (s : Dispatcher) : option Peer :=
  if mem hostPort (peersOf name s) then get hostPort (peers s) else None.

(** [subChannel.peers.add(hostPort)]: the peer comes from the root table,
    which creates it when it is new. *)
Definition subPeers_add (name hostPort : string) (s : Dispatcher) : Dispatcher :=
  let s1 :=
    if has hostPort (peers s) then s
    else set_peers (put hostPort newPeer (peers s)) s in
  withChannel name
    (fun c => if mem hostPort (chanPeers c) then c
              else set_chanPeers (chanPeers c ++ [hostPort]) c) s1.

(** [subChannel.peers.delete(hostPort)] *)
Definition subPeers_delete (name hostPort : string) (s : Dispatcher) : Dispatcher :=
  withChannel name (fun c => set_chanPeers (remove hostPort (chanPeers c)) c) s.

(** [subChannel.peers.clear()] *)
Definition subPeers_clear (name : string) (s : Dispatcher) : Dispatcher :=
  withChannel name (set_chanPeers []) s.

(** [self.channel.peers.delete(hostPort)]: the root table also takes the
    peer out of every sub-channel. *)
Definition rootPeers_delete (hostPort : string) (s : Dispatcher) : Dispatcher :=
  set_peers (del hostPort (peers s))
    (set_subChannels
       (map (fun kc : string * SubChannel =>
               (fst kc, set_chanPeers (remove hostPort (chanPeers (snd kc))) (snd kc)))
          (subChannels s)) s).

(** [peer.clearDrain(reason)] *)
Definition clearDrain (hostPort : string) (s : Dispatcher) : Dispatcher :=
  withPeer hostPort (set_draining None) s.

(** [peer.drain(options, callback)] *)
Definition drain (hostPort : string) (d : Drain) (s : Dispatcher) : Dispatcher :=
  withPeer hostPort (set_draining (Some d)) s.

(** [peer.connectTo()]; the out connection counts as open from then on. *)
Definition connectTo (hostPort : string) (s : Dispatcher) : Dispatcher :=
  withPeer hostPort (set_connectedOut true) s.

(** [_getServicePeer(serviceChannel, hostPort)] *)
Definition _getServicePeer (name hostPort : string) (s : Dispatcher) : Dispatcher :=
  let s1 :=
    match subPeers_get name hostPort s with
    | Some _ => s
    | None => subPeers_add name hostPort s
    end in
  withPeer hostPort
    (fun p => set_serviceProxyServices
                (if mem name (serviceProxyServices p) then serviceProxyServices p
                 else serviceProxyServices p ++ [name]) p) s1.

(** [createServiceChannel(serviceName)] *)
Definition createServiceChannel (serviceName : string) (s : Dispatcher) : Dispatcher :=
  let exitNames :=
    match get serviceName (relaysFor s) with
    | Some exitNames => exitNames
    | None => sort (EgressNodes.exitsFor (egressNodes s) serviceName)
    end in
  let s1 :=
    match get serviceName (relaysFor s) with
    | Some _ => s
    | None => set_relaysFor (put serviceName exitNames (relaysFor s)) s
    end in
  let isExit := EgressNodes.isExitFor (egressNodes s1) serviceName in
  let serviceChannel :=
    {| serviceProxyMode := Some (if isExit then exit else forward);
       chanPeers := [];
       preferConnectionDirectionOut := isExit;
       handlerIsRelay := true;
       handlerHandlesLazily := true;
       handlerCircuits :=
         isExit && circuitsEnabled s1 &&
         match circuits s1 with Some _ => true | None => false end |} in
  let s2 := set_subChannels (put serviceName serviceChannel (subChannels s1)) s1 in
  if isExit then s2
  else fold_left (fun s' exitName => _getServicePeer serviceName exitName s')
         exitNames s2.

(** [getServiceChannel(serviceName, create)]; the channel is then found
    under [serviceName]. *)
Definition getServiceChannel (serviceName : string) (create : bool)
    (s : Dispatcher) : Dispatcher :=
  if negb (has serviceName (subChannels s)) && create
  then createServiceChannel serviceName s
  else s.

Definition getOrCreateServiceChannel (serviceName : string) (s : Dispatcher)
    : Dispatcher :=
  getServiceChannel serviceName true s.

(** [getServicePeer(serviceName, hostPort)] *)
Definition getServicePeer (serviceName hostPort : string) (s : Dispatcher)
    : Dispatcher :=
  _getServicePeer serviceName hostPort (getOrCreateServiceChannel serviceName s).

(** *** Connecting and disconnecting peers *)

(** [deletePeerIndex(serviceName, hostPort)] *)
Definition deletePeerIndex (serviceName hostPort : string) (s : Dispatcher)
    : Dispatcher :=
  let s1 :=
    if partialAffinityEnabled s then
      let s' :=
        set_connectedServicePeers
          (deleteIndexEntry (connectedServicePeers s) serviceName hostPort) s in
      set_connectedPeerServices
        (deleteIndexEntry (connectedPeerServices s') hostPort serviceName) s'
    else s in
  set_knownPeers (deleteIndexEntry (knownPeers s1) hostPort serviceName) s1.

(** The two secondary indices of a connected peer. *)
Definition addConnectedIndex (serviceName hostPort : string) (now : Z)
    (s : Dispatcher) : Dispatcher :=
  let s' :=
    set_connectedServicePeers
      (addIndexEntry (connectedServicePeers s) serviceName hostPort now) s in
  set_connectedPeerServices
    (addIndexEntry (connectedPeerServices s') hostPort serviceName now) s'.

Definition deleteConnectedIndex (serviceName hostPort : string)
    (s : Dispatcher) : Dispatcher :=
  let s' :=
    set_connectedServicePeers
      (deleteIndexEntry (connectedServicePeers s) serviceName hostPort) s in
  set_connectedPeerServices
    (deleteIndexEntry (connectedPeerServices s') hostPort serviceName) s'.

(** [ensurePeerConnected(serviceName, peer, reason, now)] *)
Definition ensurePeerConnected (serviceName hostPort : string) (now : Z)
    (s : Dispatcher) : Dispatcher :=
  let s1 :=
    if partialAffinityEnabled s then addConnectedIndex serviceName hostPort now s
    else s in
  let s2 := set_peersToPrune (del hostPort (peersToPrune s1)) s1 in
  match get hostPort (peers s2) with
  | Some peer =>
      if connectedOut peer then s2
      else
        let s3 :=
          match draining peer with
          | Some _ => clearDrain hostPort s2
          | None => s2
          end in
        connectTo hostPort s3
  | None => s2
  end.

(** [ensurePeerDisconnected(serviceName, peer, reason, now)] *)
Definition ensurePeerDisconnected (serviceName hostPort reason : string) (now : Z)
    (s : Dispatcher) : Dispatcher :=
  let s1 :=
    if partialAffinityEnabled s then deleteConnectedIndex serviceName hostPort s
    else s in
  match get hostPort (connectedPeerServices s1) with
  | Some (_ :: _) => s1
  | _ =>
      set_peersToPrune
        (put hostPort {| lastRefresh := now; pruneReason := reason |}
           (peersToPrune s1)) s1
  end.

(** [getPartialRange(serviceName, reason, now)]; [None] is [null]. *)
Definition getPartialRange (serviceName : string) (now : Z) (s : Dispatcher)
    : Dispatcher * option PR :=
  let '(s1, partialRange) :=
    match get serviceName (partialRanges s) with
    | Some partialRange => (s, partialRange)
    | None =>
        let s' := getOrCreateServiceChannel serviceName s in
        let relays := get serviceName (relaysFor s') in
        let workers := sort (peersOf serviceName s') in
        let partialRange :=
          PartialRange.compute relays (Some workers) now
            (PartialRange.create (hostPort s') (minPeersPerWorker s')
               (minPeersPerRelay s')) in
        (set_partialRanges (put serviceName partialRange (partialRanges s')) s',
         partialRange)
    end in
  if PartialRange.isValid partialRange then (s1, Some partialRange)
  else (s1, None).

(** The result object of [ensurePartialConnections]. *)
Record AffinityChange := {
  noop : bool;
  toConnect : list string;
  isAffine : list string
}.

(** [ensurePartialConnections(serviceChannel, serviceName, hostPort, reason,
    now)]; [None] is [null]. *)
Definition ensurePartialConnections (serviceName reason : string) (now : Z)
    (s : Dispatcher) : Dispatcher * option AffinityChange :=
  match getPartialRange serviceName now s with
  | (s1, None) => (s1, None)
  | (s1, Some partialRange) =>
      let connectedPeers := get serviceName (connectedServicePeers s1) in
      let connectedPeerKeys :=
        match connectedPeers with
        | Some connectedPeers => keys connectedPeers
        | None => []
        end in
      let affine := PartialRange.affineWorkers partialRange in
      let s2 :=
        fold_left (fun s' worker => _getServicePeer serviceName worker s')
          affine s1 in
      let toConnect := affine in
      let toDisconnect :=
        filter (fun worker =>
                  negb (mem worker affine) && negb (has worker (peersToPrune s2)))
          connectedPeerKeys in
      match toConnect, toDisconnect with
      | [], [] =>
          (s2, Some {| noop := true; toConnect := toConnect; isAffine := affine |})
      | _, _ =>
          let s3 :=
            fold_left
              (fun s' worker =>
                 ensurePeerConnected serviceName worker now
                   (_getServicePeer serviceName worker s'))
              toConnect s2 in
          let s4 :=
            fold_left
              (fun s' worker =>
                 ensurePeerDisconnected serviceName worker
                   "service peer affinity change" now
                   (_getServicePeer serviceName worker s'))
              toDisconnect s3 in
          (s4, Some {| noop := false; toConnect := toConnect; isAffine := affine |})
      end
  end.

(** *** Advertise: [refreshServicePeer] *)

(** [freshenPartialPeer(peer, serviceName, now)] *)
Definition freshenPartialPeer (hostPort serviceName : string) (now : Z)
    (s : Dispatcher) : Dispatcher :=
  let connected :=
    match get serviceName (connectedServicePeers s) with
    | Some connectedPeers =>
        match get hostPort connectedPeers with
        | Some value => truthy value
        | None => false
        end
    | None => false
    end in
  let s1 :=
    if connected then
      let s' := addConnectedIndex serviceName hostPort now s in
      set_peersToPrune (del hostPort (peersToPrune s')) s'
    else deleteConnectedIndex serviceName hostPort s in
  let s2 :=
    set_peersToReap (deleteIndexEntry (peersToReap s1) hostPort serviceName) s1 in
  let s3 :=
    set_knownPeers (addIndexEntry (knownPeers s2) hostPort serviceName now) s2 in
  let '(s4, partialRange) := getPartialRange serviceName now s3 in
  let connected' :=
    match partialRange with
    | Some partialRange =>
        let shouldConnect := mem hostPort (PartialRange.affineWorkers partialRange) in
        if Bool.eqb connected shouldConnect then connected
        else if shouldConnect then truthy now else false
    | None => connected
    end in
  if connected' then ensurePeerConnected serviceName hostPort now s4
  else ensurePeerDisconnected serviceName hostPort
         "service peer affinity refresh" now s4.

(** [refreshServicePeerPartially(serviceName, hostPort, now)] *)
Definition refreshServicePeerPartially (serviceName hostPort : string) (now : Z)
    (s : Dispatcher) : Dispatcher :=
  match subPeers_get serviceName hostPort s with
  | Some _ => freshenPartialPeer hostPort serviceName now s
  | None =>
      let s1 :=
        match get serviceName (partialRanges s) with
        | Some partialRange =>
            set_partialRanges
              (put serviceName (PartialRange.addWorker hostPort now partialRange)
                 (partialRanges s)) s
        | None => s
        end in
      let s2 := _getServicePeer serviceName hostPort s1 in
      let s3 :=
        set_peersToReap (deleteIndexEntry (peersToReap s2) hostPort serviceName) s2 in
      let s4 :=
        set_knownPeers (addIndexEntry (knownPeers s3) hostPort serviceName now) s3 in
      match ensurePartialConnections serviceName "advertise" now s4 with
      | (s5, Some change) =>
          if noop change then
            if mem hostPort (isAffine change) then
              let s' := addConnectedIndex serviceName hostPort now s5 in
              set_peersToPrune (del hostPort (peersToPrune s')) s'
            else deleteConnectedIndex serviceName hostPort s5
          else s5
      | (s5, None) => s5
      end
  end.

(** [refreshServicePeer(serviceName, hostPort)], at the time [now]. *)
Definition refreshServicePeer (serviceName hostPort : string) (now : Z)
    (s : Dispatcher) : Dispatcher :=
  let s1 := getOrCreateServiceChannel serviceName s in
  match modeOf serviceName s1 with
  | Some exit =>
      let s2 := set_exitServices (put serviceName now (exitServices s1)) s1 in
      if partialAffinityEnabled s2 then
        refreshServicePeerPartially serviceName hostPort now s2
      else
        let s3 := set_peersToPrune (del hostPort (peersToPrune s2)) s2 in
        let s4 :=
          set_peersToReap
            (deleteIndexEntry (peersToReap s3) hostPort serviceName) s3 in
        let s5 :=
          set_knownPeers
            (addIndexEntry (knownPeers s4) hostPort serviceName now) s4 in
        let s6 := getServicePeer serviceName hostPort s5 in
        ensurePeerConnected serviceName hostPort now s6
  | _ => s1
  end.

(** *** Unadvertise: [removeServicePeer] *)

(** The loop [for (var i = 0; i < subChanKeys; i++)] that collects the
    remaining services.  The bound is the array itself, not its length.
    Past the end of the array the key is [undefined], and reading [peers]
    of a sub-channel that does not exist throws.  [fuel] bounds the number
    of iterations; the caller gives the bound the guard allows. *)
Fixpoint remainingServices (fuel : nat) (i : Z) (subChanKeys : list string)
    (hostPort : string) (s : Dispatcher) (remain : list string)
    : result (list string) :=
  match fuel with
  | O => Ok remain
  | S fuel' =>
      if ltNumArray i subChanKeys then
        let key :=
          match nth_error subChanKeys (Z.to_nat i) with
          | Some key => key
          | None => "undefined"
          end in
        match get key (subChannels s) with
        | Some _ =>
            let remain' :=
              match subPeers_get key hostPort s with
              | Some _ => (remain ++ [key])%list
              | None => remain
              end in
            remainingServices fuel' (i + 1) subChanKeys hostPort s remain'
        | None => Throw "Cannot read property 'peers' of undefined" remain
        end
      else Ok remain
  end.

(** The number of iterations the guard [i < subChanKeys] allows from 0. *)
Definition remainingServicesBound (subChanKeys : list string) : nat :=
  match StringToNumber (String.concat "," subChanKeys) with
  | Some n => Z.to_nat n
  | None => O
  end.

(** [removeServicePeer(serviceName, hostPort)], at the time [now]. *)
Definition removeServicePeer (serviceName hostPort : string) (now : Z)
    (s : Dispatcher) : result Dispatcher :=
  match get serviceName (subChannels s), get hostPort (peers s) with
  | None, _ => Ok s
  | _, None => Ok s
  | Some _, Some _ =>
      let s1 := subPeers_delete serviceName hostPort s in
      let s2 :=
        if partialAffinityEnabled s1 then
          let s' :=
            match get serviceName (partialRanges s1) with
            | Some partialRange =>
                let workers := sort (peersOf serviceName s1) in
                set_partialRanges
                  (put serviceName
                     (PartialRange.compute None (Some workers) now partialRange)
                     (partialRanges s1)) s1
            | None => s1
            end in
          match ensurePartialConnections serviceName "unadvertise" now s' with
          | (s'', Some change) =>
              if noop change then deleteConnectedIndex serviceName hostPort s''
              else s''
          | (s'', None) => s''
          end
        else s1 in
      let subChanKeys := keys (subChannels s2) in
      match remainingServices (remainingServicesBound subChanKeys) 0
              subChanKeys hostPort s2 [] with
      | Throw message _ => Throw message s2
      | Ok (_ :: _) => Ok s2
      | Ok [] =>
          match get hostPort (peers s2) with
          | None => Ok s2
          | Some peer =>
              let unadvertisementDrain :=
                {| goal := DRAIN_GOAL_CLOSE_PEER;
                   reason := "closing due to unadvertisement";
                   direction := DirBoth;
                   timeout := drainTimeout s2;
                   callback := unadvertiseThenDeleteIt hostPort |} in
              match draining peer with
              | Some d =>
                  if String.prefix "reaped" (reason d) then Ok s2
                  else Ok (drain hostPort unadvertisementDrain
                             (clearDrain hostPort s2))
              | None => Ok (drain hostPort unadvertisementDrain s2)
              end
          end
      end
  end.

(** The completion of the drain of a peer: the transport calls the callback
    that was given to [peer.drain]. *)
Definition drainDone (hostPort : string) (s : Dispatcher) : Dispatcher :=
  match get hostPort (peers s) with
  | Some peer =>
      match draining peer with
      | Some d =>
          match callback d with
          | unadvertiseThenDeleteIt hostPort' => rootPeers_delete hostPort' s
          | reapThenDeleteIt hostPort' => rootPeers_delete hostPort' s
          | thenResetPeer => clearDrain hostPort s
          end
      | None => s
      end
  | None => s
  end.

(** *** Membership changes: [updateServiceChannels] *)

(** [changeToExit(serviceChannel)]; the role transition event has no
    listener inside the dispatcher. *)
Definition changeToExit (name : string) (s : Dispatcher) : Dispatcher :=
  subPeers_clear name (withChannel name (set_serviceProxyMode (Some exit)) s).

(** [updateServiceNodes(serviceChannel, now)] *)
Definition updateServiceNodes (name : string) (now : Z) (s : Dispatcher)
    : Dispatcher :=
  if partialAffinityEnabled s
  then fst (ensurePartialConnections name "topologyChange" now s)
  else s.

(** [changeToForward(exitNodes, serviceChannel, now)] *)
Definition changeToForward (exitNodes : list string) (name : string) (now : Z)
    (s : Dispatcher) : Dispatcher :=
  let s1 := withChannel name (set_serviceProxyMode (Some forward)) s in
  let oldPeers := peersOf name s1 in
  let s2 := subPeers_clear name s1 in
  let s3 :=
    fold_left
      (fun s' hostPort =>
         ensurePeerDisconnected name hostPort "hyperbahn membership change" now s')
      oldPeers s2 in
  fold_left (fun s' exitName => _getServicePeer name exitName s') exitNodes s3.

(** [updateExitNodes(exitNodes, serviceChannel)] *)
Definition updateExitNodes (exitNodes : list string) (name : string)
    (s : Dispatcher) : Dispatcher :=
  let oldNames := peersOf name s in
  let s1 :=
    fold_left
      (fun s' oldName =>
         if mem oldName exitNodes then s' else subPeers_delete name oldName s')
      oldNames s in
  fold_left (fun s' exitName => _getServicePeer name exitName s') exitNodes s1.

(** [updateServiceChannel(serviceChannel, now)] for the sub-channel
    registered under [name]. *)
Definition updateServiceChannel (name : string) (now : Z) (s : Dispatcher)
    : Dispatcher :=
  let exitNodes := EgressNodes.exitsFor (egressNodes s) name in
  let s1 := set_relaysFor (put name (sort exitNodes) (relaysFor s)) s in
  if EgressNodes.isExitFor (egressNodes s1) name then
    let s2 :=
      if partialAffinityEnabled s1 then
        match get name (partialRanges s1) with
        | Some partialRange =>
            set_partialRanges
              (put name
                 (PartialRange.compute (get name (relaysFor s1)) None now partialRange)
                 (partialRanges s1)) s1
        | None => s1
        end
      else s1 in
    match modeOf name s2 with
    | Some forward => changeToExit name s2
    | _ => updateServiceNodes name now s2
    end
  else
    let s2 :=
      if partialAffinityEnabled s1
      then set_partialRanges (del name (partialRanges s1)) s1
      else s1 in
    match modeOf name s2 with
    | Some exit => changeToForward exitNodes name now s2
    | _ => updateExitNodes exitNodes name s2
    end.

(** The loop of [updateServiceChannels] over the names of the
    sub-channels.  A name always finds its sub-channel: it was just
    enumerated and no step removes a sub-channel. *)
Definition updateServiceChannels_step (now : Z) (s : Dispatcher)
    (serviceName : string) : Dispatcher :=
  match modeOf serviceName s with
  | Some _ => updateServiceChannel serviceName now s
  | None => s
  end.

(** [updateServiceChannels()], at the time [now]. *)
Definition updateServiceChannels (now : Z) (s : Dispatcher) : Dispatcher :=
  let serviceNames := keys (subChannels s) in
  let s1 := fold_left (updateServiceChannels_step now) serviceNames s in
  match circuits s1 with
  | Some registry =>
      set_circuits
        (Some (Circuits.updateServices
                 (EgressNodes.isExitFor (egressNodes s1)) registry)) s1
  | None => s1
  end.

(** *** Request admission *)

(** One blocking table; [null] blocks nothing. *)
Definition tableBlocks (table : option (obj Z)) (cn serviceName : string) : bool :=
  match table with
  | Some table =>
      let hit key :=
        match get key table with
        | Some value => truthy value
        | None => false
        end in
      hit (cn ++ "~~" ++ serviceName) || hit ("*~~" ++ serviceName)
      || hit (cn ++ "~~*")
  | None => false
  end.

(** [isBlocked(cn, serviceName)] *)
Definition isBlocked (cn : option string) (serviceName : string)
    (s : Dispatcher) : bool :=
  let cn := orStr cn "*" in
  let serviceName := orStr (Some serviceName) "*" in
  tableBlocks (blockingTable s) cn serviceName
  || tableBlocks (blockingTableRemoteConfig s) cn serviceName.

(** [block(cn, serviceName)], at the time [now]; the assertion refuses
    the pair of two wildcards. *)
Definition block (cn serviceName : option string) (now : Z) (s : Dispatcher)
    : result Dispatcher :=
  let cn := orStr cn "*" in
  let serviceName := orStr serviceName "*" in
  let table := match blockingTable s with Some table => table | None => [] end in
  if String.eqb cn "*" && String.eqb serviceName "*" then
    Throw "at least one of cn/serviceName should be provided"
      (set_blockingTable (Some table) s)
  else
    Ok (set_blockingTable (Some (put (cn ++ "~~" ++ serviceName) now table)) s).

(** [unblock(cn, serviceName)] *)
Definition unblock (cn serviceName : option string) (s : Dispatcher)
    : Dispatcher :=
  match blockingTable s with
  | None => s
  | Some table =>
      let cn := orStr cn "*" in
      let serviceName := orStr serviceName "*" in
      let table := del (cn ++ "~~" ++ serviceName) table in
      match keys table with
      | [] => set_blockingTable None s
      | _ :: _ => set_blockingTable (Some table) s
      end
  end.

(** [blockRemoteConfig(cn, serviceName)], at the time [now]. *)
Definition blockRemoteConfig (cn serviceName : option string) (now : Z)
    (s : Dispatcher) : result Dispatcher :=
  let cn := orStr cn "*" in
  let serviceName := orStr serviceName "*" in
  let table :=
    match blockingTableRemoteConfig s with
    | Some table => table
    | None => []
    end in
  if String.eqb cn "*" && String.eqb serviceName "*" then
    Throw "at least one of cn/serviceName should be provided"
      (set_blockingTableRemoteConfig (Some table) s)
  else
    Ok (set_blockingTableRemoteConfig
          (Some (put (cn ++ "~~" ++ serviceName) now table)) s).

(** [unblockAllRemoteConfig()] *)
Definition unblockAllRemoteConfig (s : Dispatcher) : Dispatcher :=
  set_blockingTableRemoteConfig None s.

(** [isExitFor(serviceName)] of the dispatcher. *)
Definition isExitFor (serviceName : string) (s : Dispatcher) : bool :=
  match get serviceName (subChannels s) with
  | None => EgressNodes.isExitFor (egressNodes s) serviceName
  | Some serviceChannel =>
      match serviceProxyMode serviceChannel with
      | Some exit => true
      | _ => false
      end
  end.

(** A value in a string concatenation; [undefined] prints as such. *)
Definition strOf (x : option string) : string :=
  match x with Some x => x | None => "undefined" end.

(** [rateLimit(cn, serviceName)] *)
Definition rateLimit (cn : option string) (serviceName : string)
    (s : Dispatcher) : Dispatcher * RateLimitReason :=
  let rl := RateLimiter.incrementEdgeCounter
              (strOf cn ++ "~~" ++ serviceName) (rateLimiter s) in
  let isExitNode := isExitFor serviceName s in
  let rl1 :=
    if isExitNode then
      RateLimiter.createKillSwitchServiceCounter serviceName
        (RateLimiter.createServiceCounter serviceName rl)
    else rl in
  if RateLimiter.shouldKillSwitchTotalRequest rl1 serviceName
     || (isExitNode && RateLimiter.shouldKillSwitchService rl1 serviceName)
  then (set_rateLimiter rl1 s, RATE_LIMIT_KILLSWITCH)
  else
    let rl2 := RateLimiter.incrementKillSwitchTotalCounter serviceName rl1 in
    let rl3 :=
      if isExitNode
      then RateLimiter.incrementKillSwitchServiceCounter serviceName rl2
      else rl2 in
    if RateLimiter.shouldRateLimitTotalRequest rl3 serviceName
    then (set_rateLimiter rl3 s, RATE_LIMIT_TOTAL)
    else if isExitNode && RateLimiter.shouldRateLimitService rl3 serviceName
    then (set_rateLimiter rl3 s, RATE_LIMIT_SERVICE)
    else
      let rl4 := RateLimiter.incrementTotalCounter serviceName rl3 in
      let rl5 :=
        if isExitNode then RateLimiter.incrementServiceCounter serviceName rl4
        else rl4 in
      (set_rateLimiter rl5 s, RATE_LIMIT_NONE).

Record Headers := { cn : option string; rd : option string }.

(** An incoming request, as far as admission reads it.  [connectionOps]
    says whether [req.connection && req.connection.ops] holds; it does not
    on a self connection. *)
Record Request := {
  serviceName : string;
  headers : option Headers;
  connectionOps : bool
}.

(** What admission does with a request. *)
Inductive Outcome :=
| sendError (codeName message : string)
| popInReq
| warnUnableToPop
| handlerHandles (serviceName : string)
| handlerDeclines.

Definition totalLimitMessage (totalLimit : Z) : string :=
  "hyperbahn node is rate-limited by the total rps of " ++ numToString totalLimit.

Definition serviceLimitMessage (routingDelegate : option string)
    (serviceName : string) (serviceLimit : Z) : string :=
  if truthyStr routingDelegate then
    "Routing delegate " ++ strOf routingDelegate
    ++ " is rate-limited by the service rps of " ++ numToString serviceLimit
  else
    serviceName ++ " is rate-limited by the service rps of "
    ++ numToString serviceLimit.

(** [handleRequest(req, buildRes)] *)
Definition handleRequest (req : Request) (s : Dispatcher) : Dispatcher * Outcome :=
  if String.eqb (serviceName req) "" then
    (s, sendError "BadRequest" "no service name given")
  else
    let routingDelegate :=
      match headers req with Some h => rd h | None => None end in
    let callerName :=
      match headers req with Some h => cn h | None => None end in
    let nextService := orStr routingDelegate (serviceName req) in
    if isBlocked callerName nextService s then (s, popInReq)
    else
      let dispatch (s' : Dispatcher) :=
        (getServiceChannel nextService true s', handlerHandles nextService) in
      if rateLimiterEnabled s then
        match rateLimit callerName nextService s with
        | (s1, RATE_LIMIT_KILLSWITCH) =>
            if connectionOps req then (s1, popInReq) else (s1, warnUnableToPop)
        | (s1, RATE_LIMIT_TOTAL) =>
            (s1, sendError "Busy"
                   (totalLimitMessage
                      (RateLimiter.rpsLimit
                         (RateLimiter.totalRequestCounter (rateLimiter s1)))))
        | (s1, RATE_LIMIT_SERVICE) =>
            (s1, sendError "Busy"
                   (serviceLimitMessage routingDelegate (serviceName req)
                      (RateLimiter.getRpsLimitForService (rateLimiter s1)
                         nextService)))
        | (s1, RATE_LIMIT_NONE) => dispatch s1
        end
      else dispatch s.

(** A lazily read call request frame: [readService] and [readHeaders] give
    an error ([None]) or a value; the header value may be [null]. *)
Record LazyFrame := {
  readService : option string;
  readHeaders : option (option Headers)
}.

(** What [handleLazily] returns. *)
Inductive Returned := retFalse | retNull | retTrue | retHandler.

(** [handleLazily(conn, reqFrame)] *)
Definition handleLazily (reqFrame : LazyFrame) (s : Dispatcher)
    : Dispatcher * Outcome * Returned :=
  match readService reqFrame with
  | None => (s, sendError "BadRequest" "failed to read serviceName", retFalse)
  | Some serviceName =>
      if String.eqb serviceName "" then
        (s, sendError "BadRequest" "missing serviceName", retFalse)
      else
        match readHeaders reqFrame with
        | None => (s, sendError "BadRequest" "failed to read headers", retFalse)
        | Some value =>
            let routingDelegate :=
              match value with Some h => rd h | None => None end in
            let nextService := orStr routingDelegate serviceName in
            let cn := match value with Some h => cn h | None => None end in
            if negb (truthyStr cn) then
              (s, sendError "BadRequest" "missing cn header", retFalse)
            else if isBlocked cn serviceName s then (s, popInReq, retNull)
            else
              let dispatch (s' : Dispatcher) :=
                let s'' := getServiceChannel nextService true s' in
                match get nextService (subChannels s'') with
                | Some serviceChannel =>
                    if handlerHandlesLazily serviceChannel
                    then (s'', handlerHandles nextService, retHandler)
                    else (s'', handlerDeclines, retFalse)
                | None => (s'', handlerDeclines, retFalse)
                end in
              if rateLimiterEnabled s then
                match rateLimit cn nextService s with
                | (s1, RATE_LIMIT_KILLSWITCH) => (s1, popInReq, retTrue)
                | (s1, RATE_LIMIT_TOTAL) =>
                    (s1, sendError "Busy"
                           (totalLimitMessage
                              (RateLimiter.rpsLimit
                                 (RateLimiter.totalRequestCounter (rateLimiter s1)))),
                     retTrue)
                | (s1, RATE_LIMIT_SERVICE) =>
                    (s1, sendError "Busy"
                           (serviceLimitMessage routingDelegate serviceName
                              (RateLimiter.getRpsLimitForService (rateLimiter s1)
                                 nextService)),
                     retTrue)
                | (s1, RATE_LIMIT_NONE) => dispatch s1
                end
              else dispatch s
        end
  end.

(** *** The interval scans: prune, reap, purge *)

(** [pruneSinglePeer(hostPort, pruneInfo)] *)
Definition pruneSinglePeer (hostPort : string) (pruneInfo : PruneInfo)
    (s : Dispatcher) : Dispatcher :=
  match get hostPort (peers s) with
  | None => s
  | Some peer =>
      match draining peer with
      | Some _ => s
      | None =>
          drain hostPort
            {| goal := DRAIN_GOAL_CLOSE_DRAINED;
               reason := "peer pruned because " ++ pruneReason pruneInfo;
               direction := DirOut;
               timeout := drainTimeout s;
               callback := thenResetPeer |} s
      end
  end.

(** The body of the loop of [reapSinglePeer] for one service name. *)
Definition reapService (serviceName hostPort : string) (now : Z)
    (s : Dispatcher) : result Dispatcher :=
  let s1 :=
    if has serviceName (subChannels s)
    then subPeers_delete serviceName hostPort s
    else s in
  let s2 := deletePeerIndex serviceName hostPort s1 in
  match get serviceName (partialRanges s2) with
  | Some partialRange =>
      Ok (set_partialRanges
            (put serviceName (PartialRange.removeWorker hostPort now partialRange)
               (partialRanges s2)) s2)
  | None => Throw "Cannot read property 'removeWorker' of undefined" s2
  end.

(** The loop [for (var i = 0; i < serviceNames.length; i++)]; [fuel] is the
    number of iterations left. *)
Fixpoint reapServices (fuel : nat) (i : Z) (serviceNames : ServiceNames)
    (hostPort : string) (now : Z) (s : Dispatcher) : result Dispatcher :=
  match fuel with
  | O => Ok s
  | S fuel' =>
      match reapService (namesKey serviceNames i) hostPort now s with
      | Ok s' => reapServices fuel' (i + 1) serviceNames hostPort now s'
      | Throw message s' => Throw message s'
      end
  end.

(** The number of iterations of that loop: none when [length] is
    [undefined]. *)
Definition reapServicesBound (serviceNames : ServiceNames) : nat :=
  match namesLength serviceNames with
  | Some n => Z.to_nat n
  | None => O
  end.

(** [reapSinglePeer(hostPort, serviceNames, now)] *)
Definition reapSinglePeer (hostPort : string) (serviceNames : ServiceNames)
    (now : Z) (s : Dispatcher) : result Dispatcher :=
  if has hostPort (knownPeers s) then Ok s
  else
    match get hostPort (peers s) with
    | None => Ok s
    | Some peer =>
        let reap (s' : Dispatcher) :=
          match reapServices (reapServicesBound serviceNames) 0 serviceNames
                  hostPort now s' with
          | Ok s'' =>
              Ok (drain hostPort
                    {| goal := DRAIN_GOAL_CLOSE_PEER;
                       reason := "reaped for expired advertisement";
                       direction := DirBoth;
                       timeout := drainTimeout s'';
                       callback := reapThenDeleteIt hostPort |} s'')
          | Throw message s'' => Throw message s''
          end in
        match draining peer with
        | Some d =>
            if String.prefix "peer pruned" (reason d)
            then reap (clearDrain hostPort s)
            else Ok s
        | None => reap s
        end
    end.

(** [maybePurgeEachService(serviceName, lastRefresh)], at the time [now]. *)
Definition maybePurgeEachService (serviceName : string) (lastRefresh now : Z)
    (s : Dispatcher) : Dispatcher :=
  if gtNum (now - lastRefresh) (servicePurgePeriod s) then
    let s1 := set_exitServices (del serviceName (exitServices s)) s in
    if has serviceName (subChannels s1) then
      let s2 := set_closedChannels (closedChannels s1 ++ [serviceName])%list s1 in
      let s3 := set_subChannels (del serviceName (subChannels s2)) s2 in
      set_rateLimiter
        (RateLimiter.removeKillSwitchCounter serviceName
           (RateLimiter.removeServiceCounter serviceName (rateLimiter s3))) s3
    else s1
  else s.

(** Modelled from the spec: [lib/interval-scan.js] is not among the
    sources.  On each tick the scan calls [getCollection], takes the keys
    of the collection and calls [each(key, value, now)] for every entry; an
    exception of [each] ends the run. *)
Fixpoint scanEach {V : Type} (each : string -> V -> Dispatcher -> result Dispatcher)
    (collection : list (string * V)) (s : Dispatcher) : result Dispatcher :=
  match collection with
  | [] => Ok s
  | (key, value) :: rest =>
      match each key value s with
      | Ok s' => scanEach each rest s'
      | Throw message s' => Throw message s'
      end
  end.

(** [getPeersToPrune()] *)
Definition getPeersToPrune (s : Dispatcher) : obj PruneInfo * Dispatcher :=
  (peersToPrune s, set_peersToPrune [] s).

(** [getPeersToReap()] *)
Definition getPeersToReap (s : Dispatcher) : obj (obj Z) * Dispatcher :=
  let collection := peersToReap s in
  let s1 := set_peersToReap (knownPeers s) s in
  (collection, set_knownPeers [] s1).

(** [getExitServices()] *)
Definition getExitServices (s : Dispatcher) : obj Z * Dispatcher :=
  (exitServices s, s).

(** A tick of the peer pruner. *)
Definition peerPruner_run (s : Dispatcher) : result Dispatcher :=
  let '(collection, s1) := getPeersToPrune s in
  scanEach (fun hostPort pruneInfo s' => Ok (pruneSinglePeer hostPort pruneInfo s'))
    collection s1.

(** A tick of the peer reaper, at the time [now]. *)
Definition peerReaper_run (now : Z) (s : Dispatcher) : result Dispatcher :=
  let '(collection, s1) := getPeersToReap s in
  scanEach (fun hostPort level s' => reapSinglePeer hostPort (NamesLevel level) now s')
    collection s1.

(** A tick of the service purger, at the time [now]. *)
Definition servicePurger_run (now : Z) (s : Dispatcher) : result Dispatcher :=
  let '(collection, s1) := getExitServices s in
  scanEach
    (fun serviceName lastRefresh s' =>
       Ok (maybePurgeEachService serviceName lastRefresh now s'))
    collection s1.

End WithPartialRange.

Arguments Dispatcher : clear implicits.

End ServiceProxy.

(** ** The clients of the application: the remote configuration

    Of [ApplicationClients] the development has the updates that the
    remote configuration drives in the dispatcher. *)

Module ApplicationClients.

Import Js TChannel ServiceProxy.

(** [value.split('~~')]: the occurrences of the separator are taken from
    the left and do not overlap. *)
Fixpoint splitTildes (s cur : string) : list string :=
  match s with
  | EmptyString => [cur]
  | String c s' =>
      match s' with
      | String c' s'' =>
          if Ascii.eqb c "~" && Ascii.eqb c' "~"
          then cur :: splitTildes s'' ""
          else splitTildes s' (cur ++ String c "")
      | EmptyString => [cur ++ String c ""]
      end
  end.

Section WithPartialRange.

Context {PR : Type} {prOps : PartialRange.Ops PR}.

(** The loop of [updateKillSwitches] over the kill switches of the remote
    configuration; a failed assertion of [blockRemoteConfig] ends it. *)
Fixpoint updateKillSwitches_loop (killSwitches : list string) (now : Z)
    (s : Dispatcher PR) : result (Dispatcher PR) :=
  match killSwitches with
  | [] => Ok s
  | value :: rest =>
      match splitTildes value "" with
      | [edge0; edge1] =>
          if negb (String.eqb value "*~~*") then
            match blockRemoteConfig (Some edge0) (Some edge1) now s with
            | Ok s' => updateKillSwitches_loop rest now s'
            | Throw message s' => Throw message s'
            end
          else updateKillSwitches_loop rest now s
      | _ => updateKillSwitches_loop rest now s
      end
  end.

(** [updateKillSwitches()], with the value of [killSwitch] in the remote
    configuration, at the time [now]. *)
Definition updateKillSwitches (killSwitches : list string) (now : Z)
    (s : Dispatcher PR) : result (Dispatcher PR) :=
  updateKillSwitches_loop killSwitches now (unblockAllRemoteConfig s).

End WithPartialRange.

End ApplicationClients.

(** ** The advertisement handler *)

Module HyperbahnHandler.

Import Js TChannel.

Definition MAX_RELAY_AD_ATTEMPTS : Z := 2.
Definition RELAY_AD_RETRY_TIME : Z := 1 * 1000.
Definition RELAY_AD_TIMEOUT : Z := 500.

Record HandlerOptions := {
  opt_relayAdTimeout : option Z;
  opt_relayAdRetryTime : option Z;
  opt_maxRelayAdAttempts : option Z
}.

Record Handler := {
  callerName : string;
  relayAdTimeout : Z;
  relayAdRetryTime : Z;
  maxRelayAdAttempts : Z
}.

(** [new HyperbahnHandler(options)] *)
Definition HyperbahnHandler (callerName : string) (options : HandlerOptions)
    : Handler :=
  {| callerName := callerName;
     relayAdTimeout :=
       ServiceProxy.orNum (opt_relayAdTimeout options) RELAY_AD_TIMEOUT;
     relayAdRetryTime :=
       ServiceProxy.orNum (opt_relayAdRetryTime options) RELAY_AD_RETRY_TIME;
     maxRelayAdAttempts :=
       ServiceProxy.orNum (opt_maxRelayAdAttempts options) MAX_RELAY_AD_ATTEMPTS |}.

(** *** [sendRelay] *)

(** The options of one relay: the exit node and the endpoint, [relay-ad] or
    [relay-unad]. *)
Record RelayOpts := {
  relayHostPort : string;
  endpoint : string
}.

Inductive LogLevel := levelError | levelWarn.

Section SendRelay.

(** The errors of the transport, with [Errors.classify] and
    [Errors.isFatal] of the transport library; the error argument may be
    [null]. *)
Context {Err : Type}.
Variable classify : option Err -> string.
Variable isFatal : option Err -> bool.

(** What the network answers to one attempt: either [waitForIdentified]
    fails, or the request is sent and its callback gets an error, a
    response, or both. *)
Inductive Attempt :=
| identifyFailed (err : Err)
| responded (err : option Err) (responseOk : option bool).

(** What [sendRelay] does, in order. *)
Inductive Event :=
| waitForIdentified (host : string)
| send (host endpoint cn : string) (timeout : Z)
| setTimeout (delay : Z)
| logged (level : LogLevel)
| callback (err : option Err).

(** The requests of one attempt, with the arguments of [onResponse]. *)
Definition attemptEvents (self : Handler) (opts : RelayOpts) (a : Attempt)
    : list Event * option Err * option bool :=
  match a with
  | identifyFailed err =>
      ([waitForIdentified (relayHostPort opts)], Some err, None)
  | responded err response =>
      ([waitForIdentified (relayHostPort opts);
        send (relayHostPort opts) (endpoint opts) (callerName self)
          (relayAdTimeout self)],
       err, response)
  end.

(** [logError(err, opts, response)] *)
Definition logError (err : option Err) : Event :=
  if isFatal err then logged levelError else logged levelWarn.

(** The test of [onResponse] for another attempt. *)
Definition shouldRetry (self : Handler) (attempts : Z) (err : option Err) : bool :=
  (attempts <=? maxRelayAdAttempts self)
  && match err with Some _ => true | None => false end
  && (String.eqb (classify err) "NetworkError"
      || String.eqb (classify err) "Timeout").

(** [tryRequest()], with [attempts] the count before the call.  [network]
    gives the answer to each attempt by its number; [fuel] bounds the number
    of attempts and [None] means that it ran out. *)
Fixpoint tryRequest (fuel : nat) (self : Handler) (opts : RelayOpts)
    (network : Z -> Attempt) (attempts : Z) : option (list Event) :=
  match fuel with
  | O => None
  | S fuel' =>
      let attempts := attempts + 1 in
      let '(events, err, response) :=
        attemptEvents self opts (network attempts) in
      match response with
      | Some true => Some (events ++ [callback None])%list
      | _ =>
          if shouldRetry self attempts err then
            match tryRequest fuel' self opts network attempts with
            | Some rest =>
                Some (events ++ setTimeout (relayAdRetryTime self) :: rest)%list
            | None => None
            end
          else Some (events ++ [logError err; callback None])%list
      end
  end.

(** [sendRelay(opts, callback)] *)
Definition sendRelay (self : Handler) (opts : RelayOpts)
    (network : Z -> Attempt) : option (list Event) :=
  tryRequest (S (Z.to_nat (maxRelayAdAttempts self))) self opts network 0.

(** The retry policy in the words of the spec: an attempt that fails with
    a network or timeout error is tried again after [relayAdRetryTime]
    while further attempts are left; any other failure, or the last one,
    is logged and the relay succeeds. *)
Definition retryable (err : option Err) : bool :=
  match err with
  | Some _ =>
      String.eqb (classify err) "NetworkError"
      || String.eqb (classify err) "Timeout"
  | None => false
  end.

Fixpoint relayPolicy (furtherAttempts : nat) (self : Handler) (opts : RelayOpts)
    (network : Z -> Attempt) (attempt : Z) : list Event :=
  let '(events, err, response) := attemptEvents self opts (network attempt) in
  match response with
  | Some true => (events ++ [callback None])%list
  | _ =>
      match furtherAttempts with
      | S further =>
          if retryable err then
            (events ++ setTimeout (relayAdRetryTime self)
               :: relayPolicy further self opts network (attempt + 1))%list
          else
            (events
             ++ [logged (if isFatal err then levelError else levelWarn);
                 callback None])%list
      | O =>
          (events
           ++ [logged (if isFatal err then levelError else levelWarn);
               callback None])%list
      end
  end.

(** The number of requests sent or tried in a trace. *)
Definition isAttempt (e : Event) : bool :=
  match e with waitForIdentified _ => true | _ => false end.

Definition isCallback (e : Event) : bool :=
  match e with callback _ => true | _ => false end.

Definition attemptsMade (trace : list Event) : nat :=
  List.length (filter isAttempt trace).

End SendRelay.

(** *** [advertise] and [unadvertise] of a relayed service *)

Section Relay.

Context {PR : Type} {prOps : PartialRange.Ops PR}.

Definition advertise (serviceName hostPort : string) (now : Z)
    (s : ServiceProxy.Dispatcher PR) : ServiceProxy.Dispatcher PR :=
  ServiceProxy.refreshServicePeer serviceName hostPort now s.

Definition unadvertise (serviceName hostPort : string) (now : Z)
    (s : ServiceProxy.Dispatcher PR)
    : ServiceProxy.result (ServiceProxy.Dispatcher PR) :=
  ServiceProxy.removeServicePeer serviceName hostPort now s.

End Relay.

(** *** The fan-out of an advertisement: [sendRelays] *)

(** A service of an advertisement or of a relay,
    [{serviceName, hostPort, cost}].  A service comes from the worker
    without [hostPort]; [sendRelays] sets the field in every service
    before anything reads it. *)
Record Service := {
  serviceName : string;
  cost : Z;
  hostPort : string
}.

(** [service.hostPort = req.connection.remoteName] *)
Definition stamp (remoteName : string) (service : Service) : Service :=
  {| serviceName := serviceName service;
     cost := cost service;
     hostPort := remoteName |}.

(** The loop over the exit nodes of one service. *)
Definition pushToExits (exitHosts : list string) (service : Service)
    (servicesByExitNode : obj (list Service)) : obj (list Service) :=
  fold_left
    (fun servicesByExitNode exitNode =>
       let relayReq :=
         match get exitNode servicesByExitNode with
         | Some relayReq => relayReq
         | None => []
         end in
       put exitNode (relayReq ++ [service])%list servicesByExitNode)
    exitHosts servicesByExitNode.

(** The loop over the services: [servicesByExitNode]. *)
Definition groupByExitNode (egressNodes : EgressNodes.t) (remoteName : string)
    (services : list Service) : obj (list Service) :=
  fold_left
    (fun servicesByExitNode service =>
       let service := stamp remoteName service in
       if String.eqb (serviceName service) "" then servicesByExitNode
       else
         pushToExits (EgressNodes.exitsFor egressNodes (serviceName service))
           service servicesByExitNode)
    services [].

(** The argument of one call of [sendRelay]. *)
Record Relay := {
  opts : RelayOpts;
  services : list Service
}.

(** What [sendRelays] does before any relay has finished: the relays it
    sends, in the order of the exit nodes, the counter it waits on, and the
    [connectionCount] of the response it will give. *)
Record RelaysSent := {
  relays : list Relay;
  counter : Z;
  connectionCount : Z
}.

(** [sendRelays(req, arg2, arg3, endpoint, cb)], with [remoteName] the
    [req.connection.remoteName]. *)
Definition sendRelays (egressNodes : EgressNodes.t) (remoteName : string)
    (services : list Service) (endpoint : string) : RelaysSent :=
  let servicesByExitNode := groupByExitNode egressNodes remoteName services in
  let exitNodeKeys := keys servicesByExitNode in
  {| relays :=
       map (fun hostPort =>
              {| opts := {| relayHostPort := hostPort; endpoint := endpoint |};
                 services :=
                   match get hostPort servicesByExitNode with
                   | Some exitNodeServices => exitNodeServices
                   | None => []
                   end |})
         exitNodeKeys;
     counter := 1 + Z.of_nat (List.length exitNodeKeys);
     connectionCount := Z.of_nat (List.length exitNodeKeys) |}.

(** [onFinish()]: the counter after the call, and whether the call gave
    the response. *)
Definition onFinish (counter : Z) : Z * bool :=
  (counter - 1, counter - 1 =? 0).

(** A number of calls of [onFinish], one of [sendRelays] itself and one
    by each relay that finishes: which of them gave the response. *)
Fixpoint onFinishes (calls : nat) (counter : Z) : list bool :=
  match calls with
  | O => []
  | S calls' =>
      let '(counter', gaveResponse) := onFinish counter in
      gaveResponse :: onFinishes calls' counter'
  end.

(** [handleAdvertise] and [handleUnadvertise] *)
Definition handleAdvertise (egressNodes : EgressNodes.t) (remoteName : string)
    (services : list Service) : RelaysSent :=
  sendRelays egressNodes remoteName services "relay-ad".

Definition handleUnadvertise (egressNodes : EgressNodes.t) (remoteName : string)
    (services : list Service) : RelaysSent :=
  sendRelays egressNodes remoteName services "relay-unad".

(** *** The relay on the exit node: [handleRelay] *)

Inductive RelayLog :=
| unexpectedEndpoint (endpoint : string) (service : Service).

Section HandleRelay.

Context {PR : Type} {prOps : PartialRange.Ops PR}.

(** [handleRelay(endpoint, req, arg2, arg3, cb)], at the time [now]: the
    dispatcher and the errors logged when the response is given; an
    exception of [unadvertise] ends the loop. *)
Fixpoint handleRelay (endpoint : string) (services : list Service) (now : Z)
    (s : ServiceProxy.Dispatcher PR) (logs : list RelayLog)
    : ServiceProxy.result (ServiceProxy.Dispatcher PR * list RelayLog) :=
  match services with
  | [] => ServiceProxy.Ok (s, logs)
  | service :: rest =>
      if String.eqb endpoint "ad" then
        handleRelay endpoint rest now
          (advertise (serviceName service) (hostPort service) now s) logs
      else if String.eqb endpoint "unad" then
        match unadvertise (serviceName service) (hostPort service) now s with
        | ServiceProxy.Ok s' => handleRelay endpoint rest now s' logs
        | ServiceProxy.Throw message s' => ServiceProxy.Throw message (s', logs)
        end
      else
        handleRelay endpoint rest now s
          (logs ++ [unexpectedEndpoint endpoint service])%list
  end.

(** [handleRelayAdvertise] and [handleRelayUnadvertise] *)
Definition handleRelayAdvertise (services : list Service) (now : Z)
    (s : ServiceProxy.Dispatcher PR) :=
  handleRelay "ad" services now s [].

Definition handleRelayUnadvertise (services : list Service) (now : Z)
    (s : ServiceProxy.Dispatcher PR) :=
  handleRelay "unad" services now s [].

End HandleRelay.

(** *** Discovery *)

(** An entry of the discovery result: [{port: .., ip: {ipv4: ..}}]; [None]
    is [NaN]. *)
Record DiscoveredHost := {
  port : option Z;
  ipv4 : option Z
}.

(** The body of the loop of [convertHosts]. *)
Definition convertHost (host : string) : DiscoveredHost :=
  let strs := split ":" host in
  let port := parseInt (nth_error strs 1) in
  let strs := split "." (nth 0 strs "") in
  {| port := port;
     ipv4 :=
       addNum
         (addNum
            (addNum (parseInt (nth_error strs 3))
               (shl (parseInt (nth_error strs 2)) 8))
            (shl (parseInt (nth_error strs 1)) 16))
         (shl (parseInt (nth_error strs 0)) 24) |}.

(** [convertHosts(hosts)] *)
Definition convertHosts (hosts : list string) : list DiscoveredHost :=
  map convertHost hosts.

Inductive DiscoverResult :=
| invalidServiceName (serviceName : string)
| noPeersAvailable (serviceName : string)
| discovered (peers : list DiscoveredHost)
| forwardedToExit (serviceName : string).

Section Discover.

Context {PR : Type} {prOps : PartialRange.Ops PR}.

(** [_getDiscoverHosts(serviceName, cb)] *)
Definition _getDiscoverHosts (serviceName : string)
    (s : ServiceProxy.Dispatcher PR) : DiscoverResult :=
  let hosts :=
    match get serviceName (ServiceProxy.subChannels s) with
    | Some svcchan => convertHosts (chanPeers svcchan)
    | None => []
    end in
  match hosts with
  | [] => noPeersAvailable serviceName
  | _ :: _ => discovered hosts
  end.

(** [discoverAffine(handler, req, head, body, cb)] *)
Definition discoverAffine (serviceName : string)
    (s : ServiceProxy.Dispatcher PR) : DiscoverResult :=
  if String.eqb serviceName "" then invalidServiceName serviceName
  else _getDiscoverHosts serviceName s.

(** [discover(handler, req, head, body, cb)]; [cn] is the caller name of
    the request. *)
Definition discover (cn : option string) (serviceName : string)
    (s : ServiceProxy.Dispatcher PR)
    : ServiceProxy.Dispatcher PR * DiscoverResult :=
  if String.eqb serviceName "" then (s, invalidServiceName serviceName)
  else
    let s1 := ServiceProxy.getOrCreateServiceChannel serviceName s in
    match ServiceProxy.modeOf serviceName s1, cn with
    | Some forward, Some "hyperbahn" => (s1, _getDiscoverHosts serviceName s1)
    | Some forward, _ => (s1, forwardedToExit serviceName)
    | _, _ => (s1, _getDiscoverHosts serviceName s1)
    end.

End Discover.

(** The dotted quad with its port, as a peer is keyed. *)
Definition hostPortString (a b c d p : Z) : string :=
  numToString a ++ "." ++ numToString b ++ "." ++ numToString c ++ "."
  ++ numToString d ++ ":" ++ numToString p.

(** The value of four octets read as a big-endian unsigned 32-bit number. *)
Definition uint32BE (a b c d : Z) : Z :=
  a * 2 ^ 24 + b * 2 ^ 16 + c * 2 ^ 8 + d.

End HyperbahnHandler.

(** ** A partial range after the spec

    Modelled from the spec: [partial_range.js] is not among the sources.
    The range keeps the sorted relays and workers; it is valid when this
    relay is among the relays; with [ratio = workers / relays], the affine
    workers are the window of
    [min(workers, max(minPeersPerRelay, ceil(ratio * minPeersPerWorker)))]
    workers that starts at [floor(relayIndex * ratio) mod workers] and
    wraps around.  The examples below run the dispatcher with it. *)

Module PartialRangeModel.

Import TChannel.

Record t := {
  relayHostPort : string;
  minPeersPerWorker : Z;
  minPeersPerRelay : Z;
  relays : list string;
  workers : list string
}.

Fixpoint indexOf (x : string) (l : list string) (i : nat) : option nat :=
  match l with
  | [] => None
  | y :: l' => if String.eqb x y then Some i else indexOf x l' (S i)
  end.

Definition relayIndex (r : t) : option nat :=
  indexOf (relayHostPort r) (relays r) 0.

Definition isValid (r : t) : bool :=
  match relayIndex r with Some _ => true | None => false end.

Definition affineWorkers (r : t) : list string :=
  match relayIndex r, workers r with
  | Some relayIndex, _ :: _ =>
      let nWorkers := Z.of_nat (List.length (workers r)) in
      let nRelays := Z.of_nat (List.length (relays r)) in
      let length :=
        Z.min nWorkers
          (Z.max (minPeersPerRelay r)
             ((nWorkers * minPeersPerWorker r + nRelays - 1) / nRelays)) in
      let start := (Z.of_nat relayIndex * nWorkers / nRelays) mod nWorkers in
      map (fun k => nth (Z.to_nat ((start + Z.of_nat k) mod nWorkers)) (workers r) "")
        (seq 0 (Z.to_nat length))
  | _, _ => []
  end.

Definition compute (newRelays newWorkers : option (list string)) (now : Z)
    (r : t) : t :=
  {| relayHostPort := relayHostPort r;
     minPeersPerWorker := minPeersPerWorker r;
     minPeersPerRelay := minPeersPerRelay r;
     relays := match newRelays with Some l => l | None => relays r end;
     workers := match newWorkers with Some l => l | None => workers r end |}.

Definition create (relayHostPort : string) (minPeersPerWorker minPeersPerRelay : Z)
    : t :=
  {| relayHostPort := relayHostPort;
     minPeersPerWorker := minPeersPerWorker;
     minPeersPerRelay := minPeersPerRelay;
     relays := [];
     workers := [] |}.

Definition addWorker (hostPort : string) (now : Z) (r : t) : t :=
  if mem hostPort (workers r) then r
  else compute None (Some (insertSorted hostPort (workers r))) now r.

Definition removeWorker (hostPort : string) (now : Z) (r : t) : t :=
  compute None (Some (remove hostPort (workers r))) now r.

#[global] Instance ops : PartialRange.Ops t :=
  {| PartialRange.create := create;
     PartialRange.compute := compute;
     PartialRange.isValid := isValid;
     PartialRange.affineWorkers := affineWorkers;
     PartialRange.addWorker := addWorker;
     PartialRange.removeWorker := removeWorker |}.

End PartialRangeModel.

(** ** A router and its workers, for the examples *)

Module Scenario.

Import Js TChannel ServiceProxy.

Definition relay : string := "10.0.0.1:21300".
Definition otherRelay : string := "10.0.0.2:21300".
Definition worker : string := "127.0.0.1:4040".

(** A ring in which this router is an exit for every service. *)
Definition ringExitForAll : EgressNodes.t :=
  {| EgressNodes.exitsFor := fun _ => [relay; otherRelay];
     EgressNodes.isExitFor := fun _ => true |}.

(** A ring in which this router is an exit for [steve] only. *)
Definition ringExitForSteve : EgressNodes.t :=
  {| EgressNodes.exitsFor :=
       fun serviceName =>
         if String.eqb serviceName "steve" then [relay; otherRelay]
         else [otherRelay];
     EgressNodes.isExitFor := fun serviceName => String.eqb serviceName "steve" |}.

Definition limiter (totalRpsLimit : Z) (exemptServices : list string)
    : RateLimiter.t :=
  {| RateLimiter.totalRequestCounter :=
       {| RateLimiter.rps := 0; RateLimiter.rpsLimit := totalRpsLimit |};
     RateLimiter.serviceCounters := [];
     RateLimiter.edgeCounters := [];
     RateLimiter.ksCounters := [];
     RateLimiter.ksTotalCounter :=
       {| RateLimiter.rps := 0; RateLimiter.rpsLimit := 2 * totalRpsLimit |};
     RateLimiter.exemptServices := exemptServices;
     RateLimiter.rpsLimitForServiceName := [];
     RateLimiter.defaultServiceRpsLimit := 100;
     RateLimiter.totalKillSwitchBuffer := 2 |}.

Definition options (ring : EgressNodes.t) (rateLimiterEnabled : bool)
    (rl : RateLimiter.t) (partialAffinity : bool) : Options :=
  {| channel_hostPort := relay;
     channel_subChannels := [];
     channel_peers := [];
     opt_egressNodes := ring;
     opt_rateLimiter := rl;
     opt_rateLimiterEnabled := rateLimiterEnabled;
     opt_partialAffinityEnabled := partialAffinity;
     opt_minPeersPerWorker := None;
     opt_minPeersPerRelay := None;
     opt_drainTimeout := None;
     opt_servicePurgePeriod := Some 50;
     opt_reapPeersPeriod := None;
     opt_prunePeersPeriod := None;
     opt_circuitsEnabled := false |}.

(** The router as constructed, rate limiting off, partial affinity off. *)
Definition router : Dispatcher PartialRangeModel.t :=
  ServiceDispatchHandler (options ringExitForAll false (limiter 1000 []) false).

(** A rate limiter whose total counter stands at [rps] and whose total
    kill-switch counter stands at [ksRps]. *)
Definition limiterAt (rps totalRpsLimit ksRps : Z) (exemptServices : list string)
    : RateLimiter.t :=
  RateLimiter.set_ksTotalCounter
    {| RateLimiter.rps := ksRps; RateLimiter.rpsLimit := 2 * totalRpsLimit |}
    (RateLimiter.set_totalRequestCounter
       {| RateLimiter.rps := rps; RateLimiter.rpsLimit := totalRpsLimit |}
       (limiter totalRpsLimit exemptServices)).

(** The router with rate limiting on, the total counter at 4 over its
    limit 3, and [steve] exempt. *)
Definition busyRouter : Dispatcher PartialRangeModel.t :=
  ServiceDispatchHandler
    (options ringExitForAll true (limiterAt 4 3 4 ["steve"]) false).

(** The router with rate limiting on and the total counter at its limit:
    3 requests counted, the limit 3. *)
Definition atLimitRouter : Dispatcher PartialRangeModel.t :=
  ServiceDispatchHandler
    (options ringExitForAll true (limiterAt 3 3 3 []) false).

(** The router with rate limiting on and the total kill-switch counter at
    7 over its limit 6. *)
Definition killSwitchedRouter : Dispatcher PartialRangeModel.t :=
  ServiceDispatchHandler
    (options ringExitForAll true (limiterAt 7 3 7 []) false).

(** A request of [alice] to a service, over a connection or over the
    self connection. *)
Definition requestTo (service : string) (connectionOps : bool) : Request :=
  {| serviceName := service;
     headers := Some {| cn := Some "alice"; rd := None |};
     connectionOps := connectionOps |}.

(** A worker advertises [steve] at the time 1000 and falls silent. *)
Definition advertised : Dispatcher PartialRangeModel.t :=
  refreshServicePeer "steve" worker 1000 router.

(** The state after the reaper tick at the time 2000, *)
Definition silent : Dispatcher PartialRangeModel.t :=
  stateOf (peerReaper_run 2000 advertised).

(** and after the next tick, at the time 3000. *)
Definition reaped : Dispatcher PartialRangeModel.t :=
  stateOf (peerReaper_run 3000 silent).

End Scenario.

(** * Properties *)

Import Js TChannel.

(** ** Objects *)

Section ObjFacts.

Context {V : Type}.

Lemma get_del_same (k : string) (o : obj V) : get k (del k o) = None.
Proof.
  induction o as [|[k' v] o IH]; simpl; [reflexivity|].
  destruct (String.eqb k k') eqn:E; simpl; [exact IH|].
  rewrite E. exact IH.
Qed.

Lemma get_del_other (k k' : string) (o : obj V) :
  k <> k' -> get k (del k' o) = get k o.
Proof.
  intros Hne. induction o as [|[k0 v] o IH]; simpl; [reflexivity|].
  destruct (String.eqb k' k0) eqn:E; simpl.
  - apply String.eqb_eq in E. subst k0.
    destruct (String.eqb k k') eqn:E'; [|exact IH].
    apply String.eqb_eq in E'. contradiction.
  - destruct (String.eqb k k0); [reflexivity|exact IH].
Qed.

Lemma get_del (k k' : string) (o : obj V) :
  get k (del k' o) = if String.eqb k k' then None else get k o.
Proof.
  destruct (String.eqb_spec k k') as [->|Hne].
  - apply get_del_same.
  - now apply get_del_other.
Qed.

Lemma get_put_same (k : string) (v : V) (o : obj V) :
  get k (put k v o) = Some v.
Proof.
  induction o as [|[k' v'] o IH]; simpl.
  - now rewrite String.eqb_refl.
  - destruct (String.eqb k k') eqn:E; simpl.
    + now rewrite String.eqb_refl.
    + now rewrite E.
Qed.

Lemma get_put_other (k k' : string) (v : V) (o : obj V) :
  k <> k' -> get k (put k' v o) = get k o.
Proof.
  intros Hne. induction o as [|[k0 v0] o IH]; simpl.
  - destruct (String.eqb k k') eqn:E; [|reflexivity].
    apply String.eqb_eq in E. contradiction.
  - destruct (String.eqb k' k0) eqn:E; simpl.
    + apply String.eqb_eq in E. subst k0.
      destruct (String.eqb k k') eqn:E'; [|reflexivity].
      apply String.eqb_eq in E'. contradiction.
    + destruct (String.eqb k k0); [reflexivity|exact IH].
Qed.

Lemma get_put (k k' : string) (v : V) (o : obj V) :
  get k (put k' v o) = if String.eqb k k' then Some v else get k o.
Proof.
  destruct (String.eqb_spec k k') as [->|Hne].
  - apply get_put_same.
  - now apply get_put_other.
Qed.

Lemma get_In_keys (k : string) (v : V) (o : obj V) :
  get k o = Some v -> In k (keys o).
Proof.
  induction o as [|[k' v'] o IH]; simpl; [discriminate|].
  destruct (String.eqb k k') eqn:E.
  - apply String.eqb_eq in E. intros _. now left.
  - intros H. right. now apply IH.
Qed.

Lemma keys_put_existing (k : string) (v v' : V) (o : obj V) :
  get k o = Some v' -> keys (put k v o) = keys o.
Proof.
  induction o as [|[k0 v0] o IH]; simpl; [discriminate|].
  destruct (String.eqb k k0) eqn:E; simpl.
  - apply String.eqb_eq in E. now subst.
  - intros H. f_equal. now apply IH.
Qed.

End ObjFacts.

(** ** Circuits *)

(** What the loop of [updateServices] leaves under a key: the entry goes
    exactly when the key was visited and [isExitFor] rejects the key. *)
Lemma updateServices_loop_get (isExitFor : string -> bool)
    (names : list string) (registry : Circuits.CircuitsByServiceName)
    (k : string) :
  get k (Circuits.updateServices_loop isExitFor names registry) =
  if existsb (String.eqb k) names && negb (isExitFor k) then None
  else get k registry.
Proof.
  revert registry. induction names as [|n names IH]; intros registry; simpl.
  - reflexivity.
  - rewrite IH. destruct (String.eqb_spec k n) as [->|Hne]; simpl.
    + destruct (isExitFor n); simpl.
      * now rewrite Bool.andb_false_r.
      * rewrite get_del_same. now destruct (existsb _ names).
    + destruct (isExitFor n); simpl; [reflexivity|].
      now rewrite get_del_other.
Qed.

(** [updateServices] keeps the entry of a key exactly when [isExitFor]
    accepts the key, and the keys carry the [$] prefix. *)
Lemma updateServices_get (isExitFor : string -> bool)
    (registry : Circuits.CircuitsByServiceName) (k : string) :
  get k (Circuits.updateServices isExitFor registry) =
  if isExitFor k then get k registry else None.
Proof.
  unfold Circuits.updateServices. rewrite updateServices_loop_get.
  destruct (get k registry) as [v|] eqn:G.
  - apply get_In_keys in G.
    assert (E : existsb (String.eqb k) (keys registry) = true).
    { apply existsb_exists. exists k. split; [exact G|apply String.eqb_refl]. }
    rewrite E. now destruct (isExitFor k).
  - destruct (existsb _ _ && _); destruct (isExitFor k); reflexivity.
Qed.

(** C4, at the failing input.  The registry holds one circuit for the
    service [steve], under the key [$steve].  [updateServices] asks the
    ring about the key, not about the service: with a ring that is an
    exit for [steve] the subtree is dropped, and with a ring that is no
    exit for [steve] but accepts [$steve] the subtree is kept. *)
Theorem updateServices_asks_ring_about_prefixed_key :
  let registry := fst (Circuits.getCircuit [] "alice" "steve" "echo") in
  let exitForSteve := fun name => String.eqb name "steve" in
  let exitForDollarSteve := fun name => String.eqb name "$steve" in
  keys registry = ["$steve"]
  /\ Circuits.hasService registry "steve" = true
  /\ exitForSteve "steve" = true
  /\ Circuits.hasService (Circuits.updateServices exitForSteve registry) "steve"
     = false
  /\ exitForDollarSteve "steve" = false
  /\ Circuits.hasService
       (Circuits.updateServices exitForDollarSteve registry) "steve" = true.
Proof. repeat split; reflexivity. Qed.

(** ** The service purger *)

Section PurgerFacts.

Context {PR : Type} {prOps : PartialRange.Ops PR}.

Lemma maybePurgeEachService_without_period (serviceName : string)
    (lastRefresh now : Z) (s : ServiceProxy.Dispatcher PR) :
  ServiceProxy.servicePurgePeriod s = None ->
  ServiceProxy.maybePurgeEachService serviceName lastRefresh now s = s.
Proof.
  intros H. unfold ServiceProxy.maybePurgeEachService. now rewrite H.
Qed.

(** While [self.servicePurgePeriod] is [undefined] a tick of the purger
    changes nothing, whatever the time and the timestamps. *)
Lemma servicePurger_run_without_period (now : Z)
    (s : ServiceProxy.Dispatcher PR) :
  ServiceProxy.servicePurgePeriod s = None ->
  ServiceProxy.servicePurger_run now s = ServiceProxy.Ok s.
Proof.
  intros H. unfold ServiceProxy.servicePurger_run, ServiceProxy.getExitServices.
  generalize (ServiceProxy.exitServices s) as collection.
  induction collection as [|[k v] collection IH]; simpl; [reflexivity|].
  now rewrite maybePurgeEachService_without_period.
Qed.

End PurgerFacts.

(** C1, at the failing input.  The router is constructed with a purge
    period of 50 ms and [steve] is advertised at the time 1000.  The
    option only sets the interval of the scan; [self.servicePurgePeriod]
    stays [undefined], so the test [now - lastRefresh >
    self.servicePurgePeriod] fails at any later time: the tick at the time
    1000000 leaves the entry of [exitServices], the service channel and
    the counters in place. *)
Theorem servicePurger_keeps_expired_service :
  let s := ServiceProxy.refreshServicePeer "steve" Scenario.worker 1000
             Scenario.router in
  ServiceProxy.servicePurgerInterval s = 50
  /\ ServiceProxy.servicePurgePeriod s = None
  /\ get "steve" (ServiceProxy.exitServices s) = Some 1000
  /\ has "steve" (ServiceProxy.subChannels s) = true
  /\ ServiceProxy.servicePurger_run 1000000 s = ServiceProxy.Ok s.
Proof.
  intros s. do 4 (split; [vm_compute; reflexivity|]).
  apply servicePurger_run_without_period. vm_compute. reflexivity.
Qed.

(** ** Admission: the routing delegate *)

(** C2, at the failing input.  The operator blocks the edge from [alice]
    to [bob]; a request of [alice] declares the service [steve] and names
    [bob] as its routing delegate.  [handleRequest] checks the block on
    [bob] and pops the request; [handleLazily] checks it on [steve] and
    hands the request to the channel of [bob].  With the edge from [alice]
    to [steve] blocked it is the other way round. *)
Theorem handleLazily_checks_block_on_declared_service :
  let req :=
    {| ServiceProxy.serviceName := "steve";
       ServiceProxy.headers :=
         Some {| ServiceProxy.cn := Some "alice"; ServiceProxy.rd := Some "bob" |};
       ServiceProxy.connectionOps := true |} in
  let reqFrame :=
    {| ServiceProxy.readService := Some "steve";
       ServiceProxy.readHeaders :=
         Some (Some {| ServiceProxy.cn := Some "alice";
                       ServiceProxy.rd := Some "bob" |}) |} in
  exists blocksBob blocksSteve,
    ServiceProxy.block (Some "alice") (Some "bob") 1 Scenario.router
      = ServiceProxy.Ok blocksBob
    /\ ServiceProxy.block (Some "alice") (Some "steve") 1 Scenario.router
      = ServiceProxy.Ok blocksSteve
    /\ snd (ServiceProxy.handleRequest req blocksBob) = ServiceProxy.popInReq
    /\ snd (fst (ServiceProxy.handleLazily reqFrame blocksBob))
       = ServiceProxy.handlerHandles "bob"
    /\ snd (ServiceProxy.handleRequest req blocksSteve)
       = ServiceProxy.handlerHandles "bob"
    /\ snd (fst (ServiceProxy.handleLazily reqFrame blocksSteve))
       = ServiceProxy.popInReq.
Proof.
  intros req reqFrame. do 2 eexists.
  do 5 (split; [vm_compute; reflexivity|]). vm_compute. reflexivity.
Qed.

(** ** Unadvertise *)

(** C3, at the failing input.  One worker advertises [steve] and [bob],
    then unadvertises [steve].  The loop that looks for remaining services
    is bounded by [i < subChanKeys]; the array turns into "steve,bob",
    which is no number, so the loop body never runs and [remain] is empty.
    The peer is still in the channel of [bob], and yet it is drained with
    the goal close-peer in both directions; when the drain is done it is
    gone from the transport peer table and from the channel of [bob]. *)
Theorem removeServicePeer_drains_peer_of_other_service :
  let s :=
    ServiceProxy.refreshServicePeer "bob" Scenario.worker 1000
      (ServiceProxy.refreshServicePeer "steve" Scenario.worker 1000
         Scenario.router) in
  let unadvertisementDrain :=
    {| goal := DRAIN_GOAL_CLOSE_PEER;
       reason := "closing due to unadvertisement";
       direction := DirBoth;
       timeout := 30000;
       callback := unadvertiseThenDeleteIt Scenario.worker |} in
  keys (ServiceProxy.subChannels s) = ["steve"; "bob"]
  /\ ServiceProxy.ltNumArray 0 ["steve"; "bob"] = false
  /\ exists s',
       ServiceProxy.removeServicePeer "steve" Scenario.worker 2000 s
         = ServiceProxy.Ok s'
       /\ ServiceProxy.peersOf "bob" s' = [Scenario.worker]
       /\ option_map draining (get Scenario.worker (ServiceProxy.peers s'))
          = Some (Some unadvertisementDrain)
       /\ get Scenario.worker
            (ServiceProxy.peers (ServiceProxy.drainDone Scenario.worker s'))
          = None
       /\ ServiceProxy.peersOf "bob" (ServiceProxy.drainDone Scenario.worker s')
          = [].
Proof.
  intros s unadvertisementDrain.
  split; [vm_compute; reflexivity|]. split; [vm_compute; reflexivity|].
  eexists. do 4 (split; [vm_compute; reflexivity|]). vm_compute. reflexivity.
Qed.

(** ** The peer reaper *)

(** C10, at the failing input.  Partial affinity is off, so
    [partialRanges] is empty.  A worker advertises [steve] and falls
    silent; after one tick it is in [peersToReap].  [reapSinglePeer] with
    the service names [["steve"]] then reads [partialRanges.steve], which
    is [undefined], and calls [removeWorker] on it: a [TypeError].  The
    reaper itself hands over the level of the index as it is stored; when
    the worker advertised a service named [length], the loop runs on that
    object and ends in the same [TypeError]. *)
Theorem reapSinglePeer_throws_without_partial_range :
  let advertised :=
    ServiceProxy.refreshServicePeer "steve" Scenario.worker 1000 Scenario.router in
  let advertisedLength :=
    ServiceProxy.refreshServicePeer "length" Scenario.worker 1000
      Scenario.router in
  ServiceProxy.partialAffinityEnabled advertised = false
  /\ ServiceProxy.partialRanges advertised = []
  /\ (exists silent s',
        ServiceProxy.peerReaper_run 2000 advertised = ServiceProxy.Ok silent
        /\ ServiceProxy.peersToReap silent
           = [(Scenario.worker, [("steve", 1000)])]
        /\ ServiceProxy.reapSinglePeer Scenario.worker
             (ServiceProxy.NamesArray ["steve"]) 3000 silent
           = ServiceProxy.Throw
               "Cannot read property 'removeWorker' of undefined" s')
  /\ (exists silent s',
        ServiceProxy.peerReaper_run 2000 advertisedLength
          = ServiceProxy.Ok silent
        /\ ServiceProxy.peerReaper_run 3000 silent
           = ServiceProxy.Throw
               "Cannot read property 'removeWorker' of undefined" s').
Proof.
  intros advertised advertisedLength.
  split; [vm_compute; reflexivity|]. split; [vm_compute; reflexivity|]. split.
  - do 2 eexists. do 2 (split; [vm_compute; reflexivity|]).
    vm_compute. reflexivity.
  - do 2 eexists. split; [vm_compute; reflexivity|]. vm_compute. reflexivity.
Qed.

(** ** Discovery: the encoding of a host-port *)

(** The integers from [from], [len] of them. *)
Fixpoint zrange (len : nat) (from : Z) : list Z :=
  match len with
  | O => []
  | S len' => from :: zrange len' (from + 1)
  end.

Lemma zrange_forallb (P : Z -> bool) (len : nat) (from : Z) :
  forallb P (zrange len from) = true ->
  forall z, from <= z < from + Z.of_nat len -> P z = true.
Proof.
  revert from. induction len as [|len IH]; intros from H z Hz.
  - lia.
  - simpl in H. apply Bool.andb_true_iff in H. destruct H as [H0 H].
    destruct (Z.eq_dec z from) as [->|Hne]; [exact H0|].
    apply (IH (from + 1) H). lia.
Qed.

(** A property of every natural number below a bound, from its check on
    the whole range. *)
Definition below (P : Z -> bool) (bound : Z) : bool :=
  forallb P (zrange (Z.to_nat bound) 0).

Lemma forall_below (P : Z -> bool) (bound : Z) :
  below P bound = true -> forall z, 0 <= z < bound -> P z = true.
Proof.
  intros H z Hz. apply (zrange_forallb P (Z.to_nat bound) 0 H). lia.
Qed.

(** No occurrence of a character in a string. *)
Fixpoint noChar (c : ascii) (s : string) : bool :=
  match s with
  | EmptyString => true
  | String c' s' => negb (Ascii.eqb c' c) && noChar c s'
  end.

Lemma noChar_app (c : ascii) (s1 s2 : string) :
  noChar c (s1 ++ s2) = noChar c s1 && noChar c s2.
Proof.
  induction s1 as [|c' s1 IH]; simpl; [reflexivity|].
  rewrite IH. now rewrite Bool.andb_assoc.
Qed.

Lemma append_assoc (s1 s2 s3 : string) : (s1 ++ s2) ++ s3 = s1 ++ (s2 ++ s3).
Proof. induction s1 as [|c s1 IH]; simpl; [reflexivity|]. now rewrite IH. Qed.

Lemma append_empty_r (s : string) : s ++ "" = s.
Proof. induction s as [|c s IH]; simpl; [reflexivity|]. now rewrite IH. Qed.

Lemma splitAux_noChar (sep : ascii) (s cur : string) :
  noChar sep s = true -> splitAux sep s cur = [cur ++ s].
Proof.
  revert cur. induction s as [|c s IH]; intros cur H; simpl in *.
  - now rewrite append_empty_r.
  - apply Bool.andb_true_iff in H. destruct H as [Hc Hs].
    apply Bool.negb_true_iff in Hc. rewrite Hc, (IH _ Hs).
    now rewrite append_assoc.
Qed.

Lemma splitAux_app (sep : ascii) (s1 s2 cur : string) :
  noChar sep s1 = true ->
  splitAux sep (s1 ++ String sep s2) cur = (cur ++ s1) :: splitAux sep s2 "".
Proof.
  revert cur. induction s1 as [|c s1 IH]; intros cur H; simpl in *.
  - now rewrite Ascii.eqb_refl, append_empty_r.
  - apply Bool.andb_true_iff in H. destruct H as [Hc Hs].
    apply Bool.negb_true_iff in Hc. rewrite Hc, (IH _ Hs).
    now rewrite append_assoc.
Qed.

(** The decimal string of a number below 65536 has neither a dot nor a
    colon, and [parseInt] reads the number back. *)
Definition rendersWell (n : Z) : bool :=
  let s := numToString n in
  noChar "." s && noChar ":" s
  && match parseInt (Some s) with
     | Some m => m =? n
     | None => false
     end.

Lemma rendersWell_below_65536 (n : Z) : 0 <= n < 65536 -> rendersWell n = true.
Proof.
  apply forall_below. vm_compute. reflexivity.
Qed.

Lemma rendersWell_noDot (n : Z) :
  rendersWell n = true -> noChar "." (numToString n) = true.
Proof.
  unfold rendersWell. cbv zeta. intros H.
  apply Bool.andb_true_iff in H. destruct H as [H _].
  apply Bool.andb_true_iff in H. now destruct H.
Qed.

Lemma rendersWell_noColon (n : Z) :
  rendersWell n = true -> noChar ":" (numToString n) = true.
Proof.
  unfold rendersWell. cbv zeta. intros H.
  apply Bool.andb_true_iff in H. destruct H as [H _].
  apply Bool.andb_true_iff in H. now destruct H.
Qed.

Lemma rendersWell_parseInt (n : Z) :
  rendersWell n = true -> parseInt (Some (numToString n)) = Some n.
Proof.
  unfold rendersWell. cbv zeta. intros H.
  apply Bool.andb_true_iff in H. destruct H as [_ H].
  destruct (parseInt (Some (numToString n))) as [m|]; [|discriminate].
  apply Z.eqb_eq in H. now subst.
Qed.

(** The shifts of an octet. *)
Definition shiftsWell (x : Z) : bool :=
  (shl (Some x) 8 =? x * 2 ^ 8) && (shl (Some x) 16 =? x * 2 ^ 16)
  && (shl (Some x) 24 =? x * 2 ^ 24 - (if x <? 128 then 0 else 2 ^ 32)).

Lemma shiftsWell_octet (x : Z) : 0 <= x < 256 -> shiftsWell x = true.
Proof. apply forall_below. vm_compute. reflexivity. Qed.

(** The four octets read as a big-endian signed 32-bit number (the [i32]
    of the discovery result). *)
Definition int32BE (a b c d : Z) : Z :=
  HyperbahnHandler.uint32BE a b c d - (if a <? 128 then 0 else 2 ^ 32).

Definition isOctet (x : Z) : bool := (0 <=? x) && (x <? 256).

Definition isPort (p : Z) : bool := (0 <=? p) && (p <? 65536).

(** [convertHost] on five decimal strings put together as a host-port. *)
Lemma convertHost_strings (A B C D P : string) (a b c d p : Z) :
  noChar "." A = true -> noChar "." B = true -> noChar "." C = true ->
  noChar "." D = true ->
  noChar ":" A = true -> noChar ":" B = true -> noChar ":" C = true ->
  noChar ":" D = true -> noChar ":" P = true ->
  parseInt (Some A) = Some a -> parseInt (Some B) = Some b ->
  parseInt (Some C) = Some c -> parseInt (Some D) = Some d ->
  parseInt (Some P) = Some p ->
  HyperbahnHandler.convertHost
    (A ++ "." ++ B ++ "." ++ C ++ "." ++ D ++ ":" ++ P)
  = {| HyperbahnHandler.port := Some p;
       HyperbahnHandler.ipv4 :=
         Some (d + shl (Some c) 8 + shl (Some b) 16 + shl (Some a) 24) |}.
Proof.
  intros dA dB dC dD cA cB cC cD cP pA pB pC pD pP.
  assert (Hsplit1 :
    split ":" (A ++ "." ++ B ++ "." ++ C ++ "." ++ D ++ ":" ++ P)
    = [A ++ "." ++ B ++ "." ++ C ++ "." ++ D; P]).
  { unfold split.
    replace (A ++ "." ++ B ++ "." ++ C ++ "." ++ D ++ ":" ++ P)
      with ((A ++ "." ++ B ++ "." ++ C ++ "." ++ D) ++ String ":" P).
    2:{ rewrite !append_assoc. reflexivity. }
    rewrite splitAux_app.
    - now rewrite splitAux_noChar.
    - rewrite !noChar_app, cA, cB, cC, cD. reflexivity. }
  assert (Hsplit2 :
    split "." (A ++ "." ++ B ++ "." ++ C ++ "." ++ D) = [A; B; C; D]).
  { unfold split.
    change (A ++ "." ++ B ++ "." ++ C ++ "." ++ D)
      with (A ++ String "." (B ++ String "." (C ++ String "." D))).
    rewrite !splitAux_app by assumption.
    now rewrite splitAux_noChar. }
  unfold HyperbahnHandler.convertHost. rewrite Hsplit1.
  cbn [nth_error nth]. rewrite Hsplit2. cbn [nth_error].
  rewrite pA, pB, pC, pD, pP. reflexivity.
Qed.

Lemma convertHost_hostPortString (a b c d p : Z) :
  isOctet a = true -> isOctet b = true -> isOctet c = true ->
  isOctet d = true -> isPort p = true ->
  HyperbahnHandler.convertHost (HyperbahnHandler.hostPortString a b c d p) =
  {| HyperbahnHandler.port := Some p;
     HyperbahnHandler.ipv4 := Some (int32BE a b c d) |}.
Proof.
  unfold isOctet, isPort. intros Ha Hb Hc Hd Hp.
  apply Bool.andb_true_iff in Ha, Hb, Hc, Hd, Hp.
  rewrite Z.leb_le, Z.ltb_lt in Ha, Hb, Hc, Hd, Hp.
  assert (Ra : rendersWell a = true) by (apply rendersWell_below_65536; lia).
  assert (Rb : rendersWell b = true) by (apply rendersWell_below_65536; lia).
  assert (Rc : rendersWell c = true) by (apply rendersWell_below_65536; lia).
  assert (Rd : rendersWell d = true) by (apply rendersWell_below_65536; lia).
  assert (Rp : rendersWell p = true) by (apply rendersWell_below_65536; lia).
  assert (Sa : shiftsWell a = true) by (apply shiftsWell_octet; lia).
  assert (Sb : shiftsWell b = true) by (apply shiftsWell_octet; lia).
  assert (Sc : shiftsWell c = true) by (apply shiftsWell_octet; lia).
  unfold HyperbahnHandler.hostPortString.
  rewrite (convertHost_strings _ _ _ _ _ a b c d p);
    try (apply rendersWell_noDot; assumption);
    try (apply rendersWell_noColon; assumption);
    try (apply rendersWell_parseInt; assumption).
  unfold shiftsWell in Sa, Sb, Sc.
  apply Bool.andb_true_iff in Sa, Sb, Sc.
  destruct Sa as [_ Sa]. destruct Sb as [Sb _]. destruct Sc as [Sc _].
  apply Bool.andb_true_iff in Sb, Sc.
  destruct Sb as [_ Sb]. destruct Sc as [Sc _].
  apply Z.eqb_eq in Sa, Sb, Sc. rewrite Sa, Sb, Sc.
  unfold int32BE, HyperbahnHandler.uint32BE.
  f_equal. f_equal. lia.
Qed.

(** A worker's address: four octets and a port. *)
Definition Address : Type := Z * Z * Z * Z * Z.

Definition addressString (x : Address) : string :=
  let '(a, b, c, d, p) := x in HyperbahnHandler.hostPortString a b c d p.

Definition validAddress (x : Address) : bool :=
  let '(a, b, c, d, p) := x in
  isOctet a && isOctet b && isOctet c && isOctet d && isPort p.

(** The entry the spec of discovery describes with [i32] fields. *)
Definition signedEntry (x : Address) : HyperbahnHandler.DiscoveredHost :=
  let '(a, b, c, d, p) := x in
  {| HyperbahnHandler.port := Some p;
     HyperbahnHandler.ipv4 := Some (int32BE a b c d) |}.

Lemma convertHosts_addresses (l : list Address) :
  forallb validAddress l = true ->
  HyperbahnHandler.convertHosts (map addressString l) = map signedEntry l.
Proof.
  induction l as [|[[[[a b] c] d] p] l IH]; simpl; [reflexivity|].
  intros H. apply Bool.andb_true_iff in H. destruct H as [Hx Hl].
  do 4 (apply Bool.andb_true_iff in Hx; destruct Hx as [Hx ?]).
  rewrite convertHost_hostPortString by assumption.
  f_equal. now apply IH.
Qed.

(** C9, counterexample.  For the peer 192.168.1.1:4040 the entry has
    [ipv4 = -1062731519], a negative number, while the unsigned big-endian
    value of the four octets is 3232235777. *)
Lemma convertHosts_ipv4_negative_from_128 :
  HyperbahnHandler.convertHosts ["192.168.1.1:4040"]
  = [{| HyperbahnHandler.port := Some 4040;
        HyperbahnHandler.ipv4 := Some (-1062731519) |}]
  /\ HyperbahnHandler.uint32BE 192 168 1 1 = 3232235777.
Proof. split; vm_compute; reflexivity. Qed.

Section DiscoverFacts.

Context {PR : Type} {prOps : PartialRange.Ops PR}.

(** C9, as amended.  When the peers of a service channel are the
    host-ports of valid addresses (at least one), the local lookup of
    [discover] and [discoverAffine] returns one entry per peer, in order,
    with [port] the decimal port and [ipv4] the big-endian value of the
    four octets as a signed 32-bit number: the unsigned value when the
    first octet is below 128, and that value less 2^32 from 128 on. *)
Theorem discover_hosts_are_signed_big_endian
    (s : ServiceProxy.Dispatcher PR) (serviceName : string)
    (svcchan : SubChannel) (x : Address) (l : list Address) :
  serviceName <> "" ->
  get serviceName (ServiceProxy.subChannels s) = Some svcchan ->
  chanPeers svcchan = map addressString (x :: l) ->
  forallb validAddress (x :: l) = true ->
  HyperbahnHandler._getDiscoverHosts serviceName s
    = HyperbahnHandler.discovered (map signedEntry (x :: l))
  /\ HyperbahnHandler.discoverAffine serviceName s
    = HyperbahnHandler.discovered (map signedEntry (x :: l))
  /\ (forall a b c d p, In (a, b, c, d, p) (x :: l) ->
        int32BE a b c d
        = if a <? 128 then HyperbahnHandler.uint32BE a b c d
          else HyperbahnHandler.uint32BE a b c d - 2 ^ 32).
Proof.
  intros Hname Hchan Hpeers Hvalid.
  assert (E : HyperbahnHandler._getDiscoverHosts serviceName s
              = HyperbahnHandler.discovered (map signedEntry (x :: l))).
  { unfold HyperbahnHandler._getDiscoverHosts.
    rewrite Hchan, Hpeers, convertHosts_addresses by exact Hvalid.
    reflexivity. }
  split; [exact E|]. split.
  - unfold HyperbahnHandler.discoverAffine.
    destruct (String.eqb_spec serviceName ""); [contradiction|exact E].
  - intros a b c d p _. unfold int32BE. destruct (a <? 128); lia.
Qed.

End DiscoverFacts.

(** The router of the examples after the workers 192.168.1.1:4040 and
    10.1.2.3:80 advertised [steve]: the lookup gives a negative [ipv4] for
    the first and a positive one for the second. *)
Lemma discover_hosts_are_signed_big_endian_witness :
  let s :=
    ServiceProxy.refreshServicePeer "steve" "10.1.2.3:80" 1000
      (ServiceProxy.refreshServicePeer "steve" "192.168.1.1:4040" 1000
         Scenario.router) in
  HyperbahnHandler._getDiscoverHosts "steve" s
  = HyperbahnHandler.discovered
      [{| HyperbahnHandler.port := Some 4040;
          HyperbahnHandler.ipv4 := Some (-1062731519) |};
       {| HyperbahnHandler.port := Some 80;
          HyperbahnHandler.ipv4 := Some 167838211 |}].
Proof.
  intros s.
  destruct (get "steve" (ServiceProxy.subChannels s)) as [svcchan|] eqn:G;
    [|vm_compute in G; discriminate].
  refine (proj1 (discover_hosts_are_signed_big_endian s "steve" svcchan
                   (192, 168, 1, 1, 4040) [(10, 1, 2, 3, 80)] _ G _ _)).
  - discriminate.
  - vm_compute in G. injection G as <-. reflexivity.
  - reflexivity.
Defined.

(** ** The relay of advertisements: [sendRelay] *)

Section SendRelayFacts.

Context {Err : Type}.
Variable classify : option Err -> string.
Variable isFatal : option Err -> bool.

Let tryRequest := HyperbahnHandler.tryRequest classify isFatal.
Let relayPolicy := HyperbahnHandler.relayPolicy classify isFatal.
Let Event := @HyperbahnHandler.Event Err.

Lemma logError_level (err : option Err) :
  HyperbahnHandler.logError isFatal err
  = HyperbahnHandler.logged
      (if isFatal err then HyperbahnHandler.levelError
       else HyperbahnHandler.levelWarn).
Proof. unfold HyperbahnHandler.logError. now destruct (isFatal err). Qed.

(** The test of the code for another attempt is the test of the policy
    while attempts are left. *)
Lemma shouldRetry_retryable (self : HyperbahnHandler.Handler) (attempts : Z)
    (err : option Err) :
  HyperbahnHandler.shouldRetry classify self attempts err
  = (attempts <=? HyperbahnHandler.maxRelayAdAttempts self)
    && HyperbahnHandler.retryable classify err.
Proof.
  unfold HyperbahnHandler.shouldRetry, HyperbahnHandler.retryable.
  destruct err; simpl; now rewrite ?Bool.andb_true_r, ?Bool.andb_false_r.
Qed.

(** One call of [tryRequest]. *)
Lemma tryRequest_step (fuel : nat) (self : HyperbahnHandler.Handler)
    (opts : HyperbahnHandler.RelayOpts)
    (network : Z -> HyperbahnHandler.Attempt) (attempts : Z) :
  HyperbahnHandler.tryRequest classify isFatal (S fuel) self opts network attempts
  = let '(events, err, response) :=
      HyperbahnHandler.attemptEvents self opts (network (attempts + 1)) in
    match response with
    | Some true => Some (events ++ [HyperbahnHandler.callback None])%list
    | _ =>
        if HyperbahnHandler.shouldRetry classify self (attempts + 1) err then
          match HyperbahnHandler.tryRequest classify isFatal fuel self opts
                  network (attempts + 1) with
          | Some rest =>
              Some (events
                    ++ HyperbahnHandler.setTimeout
                         (HyperbahnHandler.relayAdRetryTime self) :: rest)%list
          | None => None
          end
        else
          Some (events
                ++ [HyperbahnHandler.logError isFatal err;
                    HyperbahnHandler.callback None])%list
    end.
Proof. reflexivity. Qed.

(** Counting attempts up to [maxRelayAdAttempts] is counting the further
    attempts down, and the fuel never runs out. *)
Lemma tryRequest_relayPolicy (self : HyperbahnHandler.Handler)
    (opts : HyperbahnHandler.RelayOpts)
    (network : Z -> HyperbahnHandler.Attempt) (further : nat) (attempts : Z) :
  further = Z.to_nat (HyperbahnHandler.maxRelayAdAttempts self - attempts) ->
  tryRequest (S further) self opts network attempts
  = Some (relayPolicy further self opts network (attempts + 1)).
Proof.
  unfold tryRequest, relayPolicy.
  revert attempts. induction further as [|further IH]; intros attempts Hf.
  - cbn [HyperbahnHandler.tryRequest HyperbahnHandler.relayPolicy].
    destruct (HyperbahnHandler.attemptEvents self opts (network (attempts + 1)))
      as [[events err] response].
    destruct response as [[|]|]; try reflexivity;
      rewrite shouldRetry_retryable, logError_level;
      (replace (attempts + 1 <=? HyperbahnHandler.maxRelayAdAttempts self)
         with false by (symmetry; apply Z.leb_gt; lia));
      reflexivity.
  - rewrite tryRequest_step. cbn [HyperbahnHandler.relayPolicy].
    destruct (HyperbahnHandler.attemptEvents self opts (network (attempts + 1)))
      as [[events err] response].
    assert (Hle : (attempts + 1 <=? HyperbahnHandler.maxRelayAdAttempts self)
                  = true) by (apply Z.leb_le; lia).
    assert (Hnext : further
                    = Z.to_nat (HyperbahnHandler.maxRelayAdAttempts self
                                - (attempts + 1))) by lia.
    destruct response as [[|]|]; try reflexivity;
      rewrite shouldRetry_retryable, logError_level, Hle; cbn [andb];
      (destruct (HyperbahnHandler.retryable classify err);
       [rewrite (IH _ Hnext); reflexivity | reflexivity]).
Qed.

(** The policy makes one attempt and at most the further ones. *)
Lemma relayPolicy_attemptsMade (self : HyperbahnHandler.Handler)
    (opts : HyperbahnHandler.RelayOpts)
    (network : Z -> HyperbahnHandler.Attempt) (further : nat) (attempt : Z) :
  (HyperbahnHandler.attemptsMade
     (relayPolicy further self opts network attempt) <= 1 + further)%nat.
Proof.
  unfold HyperbahnHandler.attemptsMade, relayPolicy.
  revert attempt. induction further as [|further IH]; intros attempt;
    cbn [HyperbahnHandler.relayPolicy];
    destruct (network attempt) as [err|err response];
    cbn [HyperbahnHandler.attemptEvents];
    try (destruct response as [[|]|]);
    try (destruct (HyperbahnHandler.retryable classify _));
    cbn [app filter HyperbahnHandler.isAttempt List.length];
    try lia;
    specialize (IH (attempt + 1)); lia.
Qed.

(** The requests of an attempt are no callback. *)
Lemma attemptEvents_no_callback (self : HyperbahnHandler.Handler)
    (opts : HyperbahnHandler.RelayOpts) (a : @HyperbahnHandler.Attempt Err) :
  forallb (fun e => negb (HyperbahnHandler.isCallback e))
    (fst (fst (HyperbahnHandler.attemptEvents self opts a))) = true.
Proof. now destruct a. Qed.

(** The policy ends with the callback, called once and with no error. *)
Lemma relayPolicy_calls_back (self : HyperbahnHandler.Handler)
    (opts : HyperbahnHandler.RelayOpts)
    (network : Z -> HyperbahnHandler.Attempt) (further : nat) (attempt : Z) :
  exists body : list Event,
    relayPolicy further self opts network attempt
    = (body ++ [HyperbahnHandler.callback None])%list
    /\ forallb (fun e => negb (HyperbahnHandler.isCallback e)) body = true.
Proof.
  unfold relayPolicy, Event.
  revert attempt. induction further as [|further IH]; intros attempt;
    cbn [HyperbahnHandler.relayPolicy];
    pose proof (attemptEvents_no_callback self opts (network attempt)) as Hev;
    destruct (HyperbahnHandler.attemptEvents self opts (network attempt))
      as [[events err] response];
    cbn [fst] in Hev.
  - destruct response as [[|]|].
    + exists events. now split.
    + eexists (events ++ [_])%list. rewrite <- app_assoc. split; [reflexivity|].
      now rewrite forallb_app, Hev.
    + eexists (events ++ [_])%list. rewrite <- app_assoc. split; [reflexivity|].
      now rewrite forallb_app, Hev.
  - assert (Hlog : exists body : list HyperbahnHandler.Event,
              (events
               ++ [HyperbahnHandler.logged
                     (if isFatal err then HyperbahnHandler.levelError
                      else HyperbahnHandler.levelWarn);
                   HyperbahnHandler.callback None])%list
              = (body ++ [HyperbahnHandler.callback None])%list
              /\ forallb (fun e => negb (HyperbahnHandler.isCallback e)) body
                 = true).
    { eexists (events ++ [_])%list. rewrite <- app_assoc.
      split; [reflexivity|]. now rewrite forallb_app, Hev. }
    assert (Hretry : exists body : list HyperbahnHandler.Event,
              (events
               ++ HyperbahnHandler.setTimeout
                    (HyperbahnHandler.relayAdRetryTime self)
                  :: HyperbahnHandler.relayPolicy classify isFatal further self
                       opts network (attempt + 1))%list
              = (body ++ [HyperbahnHandler.callback None])%list
              /\ forallb (fun e => negb (HyperbahnHandler.isCallback e)) body
                 = true).
    { destruct (IH (attempt + 1)) as [body [-> Hbody]].
      exists (events
              ++ HyperbahnHandler.setTimeout
                   (HyperbahnHandler.relayAdRetryTime self) :: body)%list.
      split.
      - rewrite <- app_assoc. reflexivity.
      - rewrite forallb_app, Hev. exact Hbody. }
    destruct response as [[|]|].
    + exists events. now split.
    + destruct (HyperbahnHandler.retryable classify err); assumption.
    + destruct (HyperbahnHandler.retryable classify err); assumption.
Qed.

(** C8.  [sendRelay] always ends, and what it does is the retry policy of
    the spec with [maxRelayAdAttempts] further attempts: an attempt is
    repeated, after [relayAdRetryTime], only when it failed with an error
    classified as [NetworkError] or [Timeout] and a further attempt is
    left; otherwise the failure is logged, at the error level when the
    error is fatal and at the warn level when it is not, and the callback
    is called.  The callback is the last thing done, it is called once,
    and with no error. *)
Theorem sendRelay_follows_retry_policy (self : HyperbahnHandler.Handler)
    (opts : HyperbahnHandler.RelayOpts)
    (network : Z -> HyperbahnHandler.Attempt) :
  exists (trace body : list Event),
    HyperbahnHandler.sendRelay classify isFatal self opts network = Some trace
    /\ trace
       = relayPolicy (Z.to_nat (HyperbahnHandler.maxRelayAdAttempts self))
           self opts network 1
    /\ (HyperbahnHandler.attemptsMade trace
        <= 1 + Z.to_nat (HyperbahnHandler.maxRelayAdAttempts self))%nat
    /\ trace = (body ++ [HyperbahnHandler.callback None])%list
    /\ forallb (fun e => negb (HyperbahnHandler.isCallback e)) body = true.
Proof.
  destruct (relayPolicy_calls_back self opts network
              (Z.to_nat (HyperbahnHandler.maxRelayAdAttempts self)) 1)
    as [body [Hbody Hnone]].
  exists (relayPolicy (Z.to_nat (HyperbahnHandler.maxRelayAdAttempts self))
            self opts network 1), body.
  split; [|split; [reflexivity|split; [|split; assumption]]].
  - unfold HyperbahnHandler.sendRelay.
    apply tryRequest_relayPolicy. f_equal. lia.
  - apply relayPolicy_attemptsMade.
Qed.

End SendRelayFacts.

(** The defaults of the handler: two further attempts, one second apart. *)
Lemma HyperbahnHandler_defaults :
  let self :=
    HyperbahnHandler.HyperbahnHandler "autobahn"
      {| HyperbahnHandler.opt_relayAdTimeout := None;
         HyperbahnHandler.opt_relayAdRetryTime := None;
         HyperbahnHandler.opt_maxRelayAdAttempts := None |} in
  HyperbahnHandler.maxRelayAdAttempts self = 2
  /\ HyperbahnHandler.relayAdRetryTime self = 1000
  /\ HyperbahnHandler.relayAdTimeout self = 500.
Proof. repeat split. Qed.

(** ** The peer reaper: two generations *)

Section ReaperFacts.

Context {PR : Type} {prOps : PartialRange.Ops PR}.

Lemma deleteIndexEntry_empty (keya keyb : string) :
  ServiceProxy.deleteIndexEntry [] keya keyb = [].
Proof. reflexivity. Qed.

(** The books of the reaper: [knownPeers] is empty and [peersToReap] is
    as it was. *)
Definition booksKept (s s' : ServiceProxy.Dispatcher PR) : Prop :=
  ServiceProxy.knownPeers s' = []
  /\ ServiceProxy.peersToReap s' = ServiceProxy.peersToReap s.

Lemma booksKept_refl (s : ServiceProxy.Dispatcher PR) :
  ServiceProxy.knownPeers s = [] -> booksKept s s.
Proof. now split. Qed.

Lemma booksKept_trans (s1 s2 s3 : ServiceProxy.Dispatcher PR) :
  booksKept s1 s2 -> booksKept s2 s3 -> booksKept s1 s3.
Proof. intros [H1 H2] [H3 H4]. split; congruence. Qed.

Lemma withPeer_books (hostPort : string) (f : Peer -> Peer)
    (s : ServiceProxy.Dispatcher PR) :
  ServiceProxy.knownPeers s = [] ->
  booksKept s (ServiceProxy.withPeer hostPort f s).
Proof.
  intros H. unfold ServiceProxy.withPeer.
  destruct (get hostPort (ServiceProxy.peers s)); now split.
Qed.

Lemma withChannel_books (name : string) (f : SubChannel -> SubChannel)
    (s : ServiceProxy.Dispatcher PR) :
  ServiceProxy.knownPeers s = [] ->
  booksKept s (ServiceProxy.withChannel name f s).
Proof.
  intros H. unfold ServiceProxy.withChannel.
  destruct (get name (ServiceProxy.subChannels s)); now split.
Qed.

Lemma deletePeerIndex_books (serviceName hostPort : string)
    (s : ServiceProxy.Dispatcher PR) :
  ServiceProxy.knownPeers s = [] ->
  booksKept s (ServiceProxy.deletePeerIndex serviceName hostPort s).
Proof.
  intros H. unfold ServiceProxy.deletePeerIndex.
  destruct (ServiceProxy.partialAffinityEnabled s); split; simpl;
    now rewrite ?H.
Qed.

Lemma reapService_books (serviceName hostPort : string) (now : Z)
    (s : ServiceProxy.Dispatcher PR) :
  ServiceProxy.knownPeers s = [] ->
  booksKept s (ServiceProxy.stateOf (ServiceProxy.reapService serviceName hostPort now s)).
Proof.
  intros H. unfold ServiceProxy.reapService.
  set (s1 := if has serviceName (ServiceProxy.subChannels s)
             then ServiceProxy.subPeers_delete serviceName hostPort s else s).
  assert (B1 : booksKept s s1).
  { unfold s1. destruct (has serviceName (ServiceProxy.subChannels s)).
    - now apply withChannel_books.
    - now apply booksKept_refl. }
  assert (B2 : booksKept s (ServiceProxy.deletePeerIndex serviceName hostPort s1)).
  { eapply booksKept_trans; [exact B1|].
    apply deletePeerIndex_books. apply B1. }
  destruct (get serviceName
              (ServiceProxy.partialRanges
                 (ServiceProxy.deletePeerIndex serviceName hostPort s1)));
    simpl; exact B2.
Qed.

Lemma reapServices_books (fuel : nat) (i : Z)
    (serviceNames : ServiceProxy.ServiceNames) (hostPort : string) (now : Z)
    (s : ServiceProxy.Dispatcher PR) :
  ServiceProxy.knownPeers s = [] ->
  booksKept s
    (ServiceProxy.stateOf (ServiceProxy.reapServices fuel i serviceNames hostPort now s)).
Proof.
  revert i s. induction fuel as [|fuel IH]; intros i s H; simpl.
  - now apply booksKept_refl.
  - pose proof (reapService_books
                  (ServiceProxy.namesKey serviceNames i) hostPort now s H) as B.
    destruct (ServiceProxy.reapService
                (ServiceProxy.namesKey serviceNames i) hostPort now s)
      as [s'|m s']; simpl in B.
    + eapply booksKept_trans; [exact B|]. apply IH. apply B.
    + exact B.
Qed.

Lemma reapSinglePeer_books (hostPort : string)
    (serviceNames : ServiceProxy.ServiceNames) (now : Z)
    (s : ServiceProxy.Dispatcher PR) :
  ServiceProxy.knownPeers s = [] ->
  booksKept s
    (ServiceProxy.stateOf (ServiceProxy.reapSinglePeer hostPort serviceNames now s)).
Proof.
  intros H. unfold ServiceProxy.reapSinglePeer.
  assert (Hreap : forall s0, booksKept s s0 ->
    booksKept s
      (ServiceProxy.stateOf
         match ServiceProxy.reapServices
                 (ServiceProxy.reapServicesBound serviceNames) 0 serviceNames
                 hostPort now s0 with
         | ServiceProxy.Ok s'' =>
             ServiceProxy.Ok
               (ServiceProxy.drain hostPort
                  {| goal := DRAIN_GOAL_CLOSE_PEER;
                     reason := "reaped for expired advertisement";
                     direction := DirBoth;
                     timeout := ServiceProxy.drainTimeout s'';
                     callback := reapThenDeleteIt hostPort |} s'')
         | ServiceProxy.Throw message s'' => ServiceProxy.Throw message s''
         end)).
  { intros s0 B0.
    pose proof (reapServices_books
                  (ServiceProxy.reapServicesBound serviceNames) 0 serviceNames
                  hostPort now s0 (proj1 B0)) as B.
    destruct (ServiceProxy.reapServices _ 0 serviceNames hostPort now s0)
      as [s''|m s'']; simpl in B |- *.
    - eapply booksKept_trans; [exact B0|].
      eapply booksKept_trans; [exact B|].
      apply withPeer_books. apply B.
    - eapply booksKept_trans; [exact B0|exact B]. }
  destruct (has hostPort (ServiceProxy.knownPeers s));
    [now apply booksKept_refl|].
  destruct (get hostPort (ServiceProxy.peers s)) as [peer|];
    [|now apply booksKept_refl].
  destruct (draining peer) as [d|].
  - destruct (String.prefix "peer pruned" (reason d)).
    + apply Hreap. now apply withPeer_books.
    + now apply booksKept_refl.
  - apply Hreap. now apply booksKept_refl.
Qed.

Lemma scanEach_reap_books (now : Z) (collection : obj (obj Z))
    (s : ServiceProxy.Dispatcher PR) :
  ServiceProxy.knownPeers s = [] ->
  booksKept s
    (ServiceProxy.stateOf
       (ServiceProxy.scanEach
          (fun hostPort level s' =>
             ServiceProxy.reapSinglePeer hostPort (ServiceProxy.NamesLevel level)
               now s')
          collection s)).
Proof.
  revert s. induction collection as [|[hostPort level] collection IH];
    intros s H; simpl.
  - now apply booksKept_refl.
  - pose proof (reapSinglePeer_books hostPort (ServiceProxy.NamesLevel level)
                  now s H) as B.
    destruct (ServiceProxy.reapSinglePeer hostPort
                (ServiceProxy.NamesLevel level) now s) as [s'|m s'];
      simpl in B.
    + eapply booksKept_trans; [exact B|]. apply IH. apply B.
    + exact B.
Qed.

(** After a tick [knownPeers] is empty and [peersToReap] is what
    [knownPeers] was. *)
Lemma peerReaper_run_rolls_over (now : Z) (s once : ServiceProxy.Dispatcher PR) :
  ServiceProxy.peerReaper_run now s = ServiceProxy.Ok once ->
  ServiceProxy.knownPeers once = []
  /\ ServiceProxy.peersToReap once = ServiceProxy.knownPeers s.
Proof.
  unfold ServiceProxy.peerReaper_run, ServiceProxy.getPeersToReap.
  intros H.
  pose proof (scanEach_reap_books now (ServiceProxy.peersToReap s)
                (ServiceProxy.set_knownPeers []
                   (ServiceProxy.set_peersToReap (ServiceProxy.knownPeers s) s))
                eq_refl) as B.
  rewrite H in B. exact B.
Qed.

(** A tick on empty books changes nothing. *)
Lemma peerReaper_run_empty_books (now : Z) (s : ServiceProxy.Dispatcher PR) :
  ServiceProxy.knownPeers s = [] -> ServiceProxy.peersToReap s = [] ->
  ServiceProxy.peerReaper_run now s = ServiceProxy.Ok s.
Proof.
  intros HK HR. unfold ServiceProxy.peerReaper_run, ServiceProxy.getPeersToReap.
  rewrite HR, HK. simpl. destruct s. simpl in *. now subst.
Qed.

(** C5, as amended.  A tick moves [knownPeers] to [peersToReap] and reaps
    what was in [peersToReap] before.  Two consecutive ticks with no
    advertise in between leave the state of a single tick when nothing
    was known before the first one ([knownPeers] empty); whatever was
    known, a tick after the second one changes nothing. *)
Theorem reap_ticks_settle_after_two_generations (now1 now2 now3 : Z)
    (s once : ServiceProxy.Dispatcher PR) :
  ServiceProxy.peerReaper_run now1 s = ServiceProxy.Ok once ->
  (ServiceProxy.knownPeers s = [] ->
   ServiceProxy.peerReaper_run now2 once = ServiceProxy.Ok once)
  /\ (forall twice,
        ServiceProxy.peerReaper_run now2 once = ServiceProxy.Ok twice ->
        ServiceProxy.peerReaper_run now3 twice = ServiceProxy.Ok twice).
Proof.
  intros H1.
  destruct (peerReaper_run_rolls_over _ _ _ H1) as [K1 R1].
  split.
  - intros HK. rewrite HK in R1.
    now apply peerReaper_run_empty_books.
  - intros twice H2.
    destruct (peerReaper_run_rolls_over _ _ _ H2) as [K2 R2].
    apply peerReaper_run_empty_books; [exact K2|congruence].
Qed.

End ReaperFacts.

(** C5, counterexample.  A worker advertises [steve] and falls silent.
    After one tick the worker is in [peersToReap] and its peer is as it
    was; after the second tick [peersToReap] is empty and the peer is
    draining with the goal close-peer: the state of two ticks is not the
    state of one. *)
Lemma two_reap_ticks_differ_from_one :
  ServiceProxy.peerReaper_run 2000 Scenario.advertised
    = ServiceProxy.Ok Scenario.silent
  /\ ServiceProxy.peerReaper_run 3000 Scenario.silent
     = ServiceProxy.Ok Scenario.reaped
  /\ ServiceProxy.peersToReap Scenario.silent
     = [(Scenario.worker, [("steve", 1000)])]
  /\ ServiceProxy.peersToReap Scenario.reaped = []
  /\ option_map draining
       (get Scenario.worker (ServiceProxy.peers Scenario.silent))
     = Some None
  /\ option_map draining
       (get Scenario.worker (ServiceProxy.peers Scenario.reaped))
     = Some (Some {| goal := DRAIN_GOAL_CLOSE_PEER;
                     reason := "reaped for expired advertisement";
                     direction := DirBoth;
                     timeout := 30000;
                     callback := reapThenDeleteIt Scenario.worker |}).
Proof.
  do 5 (split; [vm_compute; reflexivity|]). vm_compute. reflexivity.
Qed.

(** The silent worker of the counterexample, from the tick that moved it
    to [peersToReap]: nothing is known then, the next tick reaps the
    worker, and the ticks after that change nothing. *)
Lemma reap_ticks_settle_after_two_generations_witness :
  ServiceProxy.peerReaper_run 3000 Scenario.silent
    = ServiceProxy.Ok Scenario.reaped
  /\ ServiceProxy.knownPeers Scenario.silent = []
  /\ ServiceProxy.peerReaper_run 4000 Scenario.reaped
     = ServiceProxy.Ok Scenario.reaped
  /\ ServiceProxy.peerReaper_run 5000 Scenario.reaped
     = ServiceProxy.Ok Scenario.reaped.
Proof.
  assert (H1 : ServiceProxy.peerReaper_run 3000 Scenario.silent
               = ServiceProxy.Ok Scenario.reaped)
    by (vm_compute; reflexivity).
  assert (K : ServiceProxy.knownPeers Scenario.silent = [])
    by (vm_compute; reflexivity).
  pose proof (reap_ticks_settle_after_two_generations 3000 4000 5000
                Scenario.silent Scenario.reaped H1) as [T1 T2].
  split; [exact H1|]. split; [exact K|]. split; [exact (T1 K)|].
  exact (T2 Scenario.reaped (T1 K)).
Defined.

(** ** Admission: the rate limiter *)

Section RateLimitFacts.

Context {PR : Type} {prOps : PartialRange.Ops PR}.

(** The rate limiter at the kill-switch check of [rateLimit]: the edge is
    counted and, on an exit node, the counters of the service exist. *)
Definition atKillSwitchCheck (cn : option string) (serviceName : string)
    (s : ServiceProxy.Dispatcher PR) : RateLimiter.t :=
  let rl :=
    RateLimiter.incrementEdgeCounter
      (ServiceProxy.strOf cn ++ "~~" ++ serviceName)
      (ServiceProxy.rateLimiter s) in
  if ServiceProxy.isExitFor serviceName s then
    RateLimiter.createKillSwitchServiceCounter serviceName
      (RateLimiter.createServiceCounter serviceName rl)
  else rl.

(** The kill switch trips: on the total, or, on an exit node only, on the
    service. *)
Definition killSwitchTrips (cn : option string) (serviceName : string)
    (s : ServiceProxy.Dispatcher PR) : bool :=
  RateLimiter.shouldKillSwitchTotalRequest
    (atKillSwitchCheck cn serviceName s) serviceName
  || (ServiceProxy.isExitFor serviceName s
      && RateLimiter.shouldKillSwitchService
           (atKillSwitchCheck cn serviceName s) serviceName).

(** The rate limiter at the RPS checks: the kill-switch counters are
    incremented. *)
Definition atRpsCheck (cn : option string) (serviceName : string)
    (s : ServiceProxy.Dispatcher PR) : RateLimiter.t :=
  let rl2 :=
    RateLimiter.incrementKillSwitchTotalCounter serviceName
      (atKillSwitchCheck cn serviceName s) in
  if ServiceProxy.isExitFor serviceName s
  then RateLimiter.incrementKillSwitchServiceCounter serviceName rl2
  else rl2.

Lemma atRpsCheck_total (cn : option string) (serviceName : string)
    (s : ServiceProxy.Dispatcher PR) :
  RateLimiter.totalRequestCounter (atRpsCheck cn serviceName s)
  = RateLimiter.totalRequestCounter (ServiceProxy.rateLimiter s)
  /\ RateLimiter.exemptServices (atRpsCheck cn serviceName s)
     = RateLimiter.exemptServices (ServiceProxy.rateLimiter s).
Proof.
  unfold atRpsCheck, atKillSwitchCheck.
  destruct (ServiceProxy.isExitFor serviceName s); split; reflexivity.
Qed.

(** The total check at the RPS checks reads the total counter and the
    exempt services of the limiter as the request found it. *)
Lemma shouldRateLimitTotalRequest_atRpsCheck (cn : option string)
    (serviceName : string) (s : ServiceProxy.Dispatcher PR) :
  RateLimiter.shouldRateLimitTotalRequest (atRpsCheck cn serviceName s)
    serviceName
  = RateLimiter.shouldRateLimitTotalRequest (ServiceProxy.rateLimiter s)
      serviceName.
Proof.
  unfold RateLimiter.shouldRateLimitTotalRequest, RateLimiter.isExempt.
  destruct (atRpsCheck_total cn serviceName s) as [-> ->]. reflexivity.
Qed.

(** The reason [rateLimit] returns, by the checks in their order. *)
Lemma rateLimit_reason (cn : option string) (serviceName : string)
    (s : ServiceProxy.Dispatcher PR) :
  snd (ServiceProxy.rateLimit cn serviceName s)
  = if killSwitchTrips cn serviceName s then ServiceProxy.RATE_LIMIT_KILLSWITCH
    else if RateLimiter.shouldRateLimitTotalRequest
              (ServiceProxy.rateLimiter s) serviceName
    then ServiceProxy.RATE_LIMIT_TOTAL
    else if ServiceProxy.isExitFor serviceName s
            && RateLimiter.shouldRateLimitService
                 (atRpsCheck cn serviceName s) serviceName
    then ServiceProxy.RATE_LIMIT_SERVICE
    else ServiceProxy.RATE_LIMIT_NONE.
Proof.
  rewrite <- (shouldRateLimitTotalRequest_atRpsCheck cn serviceName s).
  unfold ServiceProxy.rateLimit, killSwitchTrips, atRpsCheck, atKillSwitchCheck.
  destruct (ServiceProxy.isExitFor serviceName s); cbn [andb].
  - repeat match goal with
           | |- context [if ?b then _ else _] => destruct b; cbn [snd orb andb]
           end; reflexivity.
  - rewrite !Bool.orb_false_r.
    repeat match goal with
           | |- context [if ?b then _ else _] => destruct b; cbn [snd orb andb]
           end; reflexivity.
Qed.

(** The total limit the message of [handleRequest] names is the limit the
    request found. *)
Lemma rateLimit_total_limit (cn : option string) (serviceName : string)
    (s : ServiceProxy.Dispatcher PR) :
  RateLimiter.rpsLimit
    (RateLimiter.totalRequestCounter
       (ServiceProxy.rateLimiter (fst (ServiceProxy.rateLimit cn serviceName s))))
  = RateLimiter.rpsLimit
      (RateLimiter.totalRequestCounter (ServiceProxy.rateLimiter s)).
Proof.
  unfold ServiceProxy.rateLimit.
  repeat match goal with
         | |- context [if ?b then _ else _] => destruct b
         end; reflexivity.
Qed.

(** The service limit the message of [handleRequest] names is the limit
    the request found. *)
Lemma rateLimit_service_limit (cn : option string) (serviceName : string)
    (s : ServiceProxy.Dispatcher PR) (name : string) :
  RateLimiter.getRpsLimitForService
    (ServiceProxy.rateLimiter (fst (ServiceProxy.rateLimit cn serviceName s)))
    name
  = RateLimiter.getRpsLimitForService (ServiceProxy.rateLimiter s) name.
Proof.
  unfold ServiceProxy.rateLimit.
  repeat match goal with
         | |- context [if ?b then _ else _] => destruct b
         end; reflexivity.
Qed.

(** A counter that is not above its limit does not trip the total check. *)
Lemma shouldRateLimitTotalRequest_within (self : RateLimiter.t)
    (serviceName : string) :
  RateLimiter.rps (RateLimiter.totalRequestCounter self)
  <= RateLimiter.rpsLimit (RateLimiter.totalRequestCounter self) ->
  RateLimiter.shouldRateLimitTotalRequest self serviceName = false.
Proof.
  intros H. unfold RateLimiter.shouldRateLimitTotalRequest, RateLimiter.over.
  destruct (RateLimiter.isExempt self serviceName); [reflexivity|].
  now apply Z.ltb_ge.
Qed.

(** The effective service and the caller of a request. *)
Definition nextServiceOf (req : ServiceProxy.Request) : string :=
  orStr
    (match ServiceProxy.headers req with
     | Some h => ServiceProxy.rd h
     | None => None
     end) (ServiceProxy.serviceName req).

Definition callerOf (req : ServiceProxy.Request) : option string :=
  match ServiceProxy.headers req with
  | Some h => ServiceProxy.cn h
  | None => None
  end.

(** C7, as amended.  For a request that names a service, is not blocked
    and meets an enabled rate limiter, with [sn] the effective service:
    - when the kill switch trips (on the total, or on the service when
      the router is an exit for [sn]) no response is sent, whatever the
      RPS counters say; the request is popped when its connection has
      operations, and on a self connection it is only logged;
    - when the kill switch does not trip, [sn] is not exempt and the
      total counter is over its limit [N], the request is rejected with
      [Busy] and the message of the total limit [N];
    - when the router is no exit for [sn] the service counter is not
      consulted: a request that passes the kill switch and the total
      check is handed to the channel of [sn];
    - a total counter that stands at its limit, or below, does not
      reject: when the kill switch does not trip, the request goes on to
      the check of the service, which is made on an exit for [sn] only,
      and from there to the channel of [sn]. *)
Theorem handleRequest_rate_limit_order (req : ServiceProxy.Request)
    (s : ServiceProxy.Dispatcher PR) :
  ServiceProxy.serviceName req <> "" ->
  ServiceProxy.isBlocked (callerOf req) (nextServiceOf req) s = false ->
  ServiceProxy.rateLimiterEnabled s = true ->
  let sn := nextServiceOf req in
  let total := RateLimiter.totalRequestCounter (ServiceProxy.rateLimiter s) in
  (killSwitchTrips (callerOf req) sn s = true ->
   snd (ServiceProxy.handleRequest req s)
   = if ServiceProxy.connectionOps req then ServiceProxy.popInReq
     else ServiceProxy.warnUnableToPop)
  /\ (killSwitchTrips (callerOf req) sn s = false ->
      RateLimiter.isExempt (ServiceProxy.rateLimiter s) sn = false ->
      RateLimiter.rpsLimit total < RateLimiter.rps total ->
      snd (ServiceProxy.handleRequest req s)
      = ServiceProxy.sendError "Busy"
          (ServiceProxy.totalLimitMessage (RateLimiter.rpsLimit total)))
  /\ (killSwitchTrips (callerOf req) sn s = false ->
      RateLimiter.shouldRateLimitTotalRequest (ServiceProxy.rateLimiter s) sn
      = false ->
      ServiceProxy.isExitFor sn s = false ->
      snd (ServiceProxy.handleRequest req s) = ServiceProxy.handlerHandles sn)
  /\ (killSwitchTrips (callerOf req) sn s = false ->
      RateLimiter.rps total <= RateLimiter.rpsLimit total ->
      snd (ServiceProxy.handleRequest req s)
      = if ServiceProxy.isExitFor sn s
           && RateLimiter.shouldRateLimitService
                (atRpsCheck (callerOf req) sn s) sn
        then ServiceProxy.sendError "Busy"
               (ServiceProxy.serviceLimitMessage
                  (match ServiceProxy.headers req with
                   | Some h => ServiceProxy.rd h
                   | None => None
                   end)
                  (ServiceProxy.serviceName req)
                  (RateLimiter.getRpsLimitForService
                     (ServiceProxy.rateLimiter s) sn))
        else ServiceProxy.handlerHandles sn).
Proof.
  intros Hname Hblock Henabled sn total.
  assert (Hreq : ServiceProxy.handleRequest req s
    = match ServiceProxy.rateLimit (callerOf req) sn s with
      | (s1, ServiceProxy.RATE_LIMIT_KILLSWITCH) =>
          if ServiceProxy.connectionOps req then (s1, ServiceProxy.popInReq)
          else (s1, ServiceProxy.warnUnableToPop)
      | (s1, ServiceProxy.RATE_LIMIT_TOTAL) =>
          (s1, ServiceProxy.sendError "Busy"
                 (ServiceProxy.totalLimitMessage
                    (RateLimiter.rpsLimit
                       (RateLimiter.totalRequestCounter
                          (ServiceProxy.rateLimiter s1)))))
      | (s1, ServiceProxy.RATE_LIMIT_SERVICE) =>
          (s1, ServiceProxy.sendError "Busy"
                 (ServiceProxy.serviceLimitMessage
                    (match ServiceProxy.headers req with
                     | Some h => ServiceProxy.rd h
                     | None => None
                     end)
                    (ServiceProxy.serviceName req)
                    (RateLimiter.getRpsLimitForService
                       (ServiceProxy.rateLimiter s1) sn)))
      | (s1, ServiceProxy.RATE_LIMIT_NONE) =>
          (ServiceProxy.getServiceChannel sn true s1,
           ServiceProxy.handlerHandles sn)
      end).
  { unfold ServiceProxy.handleRequest.
    destruct (String.eqb_spec (ServiceProxy.serviceName req) "");
      [contradiction|].
    fold (callerOf req). fold (nextServiceOf req). fold sn.
    unfold sn at 1. rewrite Hblock, Henabled. reflexivity. }
  pose proof (rateLimit_reason (callerOf req) sn s) as Hreason.
  pose proof (rateLimit_total_limit (callerOf req) sn s) as Hlimit.
  pose proof (rateLimit_service_limit (callerOf req) sn s sn) as Hservice.
  destruct (ServiceProxy.rateLimit (callerOf req) sn s) as [s1 why].
  cbn [fst snd] in Hreason, Hlimit, Hservice. rewrite Hreq.
  split; [|split; [|split]].
  - intros Hks. rewrite Hks in Hreason. subst why.
    now destruct (ServiceProxy.connectionOps req).
  - intros Hks Hexempt Hover. rewrite Hks in Hreason.
    unfold RateLimiter.shouldRateLimitTotalRequest in Hreason.
    rewrite Hexempt in Hreason.
    unfold RateLimiter.over in Hreason. fold total in Hreason.
    replace (RateLimiter.rpsLimit total <? RateLimiter.rps total)
      with true in Hreason by (symmetry; now apply Z.ltb_lt).
    subst why. cbn [snd]. now rewrite Hlimit.
  - intros Hks Htotal Hexit. rewrite Hks, Htotal, Hexit in Hreason.
    cbn [andb] in Hreason. now subst why.
  - intros Hks Hwithin. rewrite Hks in Hreason.
    rewrite (shouldRateLimitTotalRequest_within _ sn Hwithin) in Hreason.
    destruct (ServiceProxy.isExitFor sn s
              && RateLimiter.shouldRateLimitService
                   (atRpsCheck (callerOf req) sn s) sn);
      subst why; cbn [snd]; [now rewrite Hservice|reflexivity].
Qed.

(** The lazy path pops a kill-switched frame, and answers the total limit
    in the same way. *)
Lemma handleLazily_rate_limit_order (serviceName : string)
    (h : ServiceProxy.Headers) (s : ServiceProxy.Dispatcher PR) :
  serviceName <> "" ->
  truthyStr (ServiceProxy.cn h) = true ->
  ServiceProxy.isBlocked (ServiceProxy.cn h) serviceName s = false ->
  ServiceProxy.rateLimiterEnabled s = true ->
  let reqFrame :=
    {| ServiceProxy.readService := Some serviceName;
       ServiceProxy.readHeaders := Some (Some h) |} in
  let sn := orStr (ServiceProxy.rd h) serviceName in
  let total := RateLimiter.totalRequestCounter (ServiceProxy.rateLimiter s) in
  (killSwitchTrips (ServiceProxy.cn h) sn s = true ->
   snd (fst (ServiceProxy.handleLazily reqFrame s)) = ServiceProxy.popInReq)
  /\ (killSwitchTrips (ServiceProxy.cn h) sn s = false ->
      RateLimiter.isExempt (ServiceProxy.rateLimiter s) sn = false ->
      RateLimiter.rpsLimit total < RateLimiter.rps total ->
      snd (fst (ServiceProxy.handleLazily reqFrame s))
      = ServiceProxy.sendError "Busy"
          (ServiceProxy.totalLimitMessage (RateLimiter.rpsLimit total))).
Proof.
  intros Hname Hcn Hblock Henabled reqFrame sn total.
  pose proof (rateLimit_reason (ServiceProxy.cn h) sn s) as Hreason.
  pose proof (rateLimit_total_limit (ServiceProxy.cn h) sn s) as Hlimit.
  unfold ServiceProxy.handleLazily, reqFrame.
  cbn [ServiceProxy.readService ServiceProxy.readHeaders].
  destruct (String.eqb_spec serviceName ""); [contradiction|].
  rewrite Hcn. cbn [negb]. rewrite Hblock, Henabled. fold sn.
  destruct (ServiceProxy.rateLimit (ServiceProxy.cn h) sn s) as [s1 why].
  cbn [fst snd] in Hreason, Hlimit.
  split.
  - intros Hks. rewrite Hks in Hreason. now subst why.
  - intros Hks Hexempt Hover. rewrite Hks in Hreason.
    unfold RateLimiter.shouldRateLimitTotalRequest in Hreason.
    rewrite Hexempt in Hreason.
    unfold RateLimiter.over in Hreason. fold total in Hreason.
    replace (RateLimiter.rpsLimit total <? RateLimiter.rps total)
      with true in Hreason by (symmetry; now apply Z.ltb_lt).
    subst why. cbn [fst snd]. now rewrite Hlimit.
Qed.

End RateLimitFacts.

(** C7, counterexample.  With the total counter at 4 over its limit 3
    and the kill switch quiet, a request to the exempt service [steve] is
    not rejected: it is handed to the channel of [steve].  With the kill
    switch tripped, a request over the self connection is not popped:
    [handleRequest] logs that it is unable to. *)
Lemma rate_limit_spares_exempt_and_self_connection :
  killSwitchTrips (Some "alice") "steve" Scenario.busyRouter = false
  /\ RateLimiter.totalRequestCounter
       (ServiceProxy.rateLimiter Scenario.busyRouter)
     = {| RateLimiter.rps := 4; RateLimiter.rpsLimit := 3 |}
  /\ snd (ServiceProxy.handleRequest (Scenario.requestTo "steve" true)
            Scenario.busyRouter)
     = ServiceProxy.handlerHandles "steve"
  /\ killSwitchTrips (Some "alice") "steve" Scenario.killSwitchedRouter = true
  /\ snd (ServiceProxy.handleRequest (Scenario.requestTo "steve" false)
            Scenario.killSwitchedRouter)
     = ServiceProxy.warnUnableToPop.
Proof.
  do 4 (split; [vm_compute; reflexivity|]). vm_compute. reflexivity.
Qed.

(** On the router whose total counter stands at 4, over its limit 3, a
    request to [bob], which is not exempt, is rejected with the message of
    the total limit; on the router whose kill switch tripped, a request
    over a connection is popped; and on the router whose total counter
    stands at its limit, 3 of 3, the request to [bob] is handed to the
    channel of [bob]. *)
Lemma handleRequest_rate_limit_order_witness :
  snd (ServiceProxy.handleRequest (Scenario.requestTo "bob" true)
         Scenario.busyRouter)
  = ServiceProxy.sendError "Busy"
      "hyperbahn node is rate-limited by the total rps of 3"
  /\ snd (ServiceProxy.handleRequest (Scenario.requestTo "steve" true)
            Scenario.killSwitchedRouter)
     = ServiceProxy.popInReq
  /\ snd (ServiceProxy.handleRequest (Scenario.requestTo "bob" true)
            Scenario.atLimitRouter)
     = ServiceProxy.handlerHandles "bob".
Proof.
  split; [|split].
  - refine (proj1 (proj2 (handleRequest_rate_limit_order
                            (Scenario.requestTo "bob" true)
                            Scenario.busyRouter _ _ _)) _ _ _).
    + discriminate.
    + vm_compute. reflexivity.
    + vm_compute. reflexivity.
    + vm_compute. reflexivity.
    + vm_compute. reflexivity.
    + apply Z.ltb_lt. vm_compute. reflexivity.
  - refine (proj1 (handleRequest_rate_limit_order
                     (Scenario.requestTo "steve" true)
                     Scenario.killSwitchedRouter _ _ _) _).
    + discriminate.
    + vm_compute. reflexivity.
    + vm_compute. reflexivity.
    + vm_compute. reflexivity.
  - refine (eq_trans
              (proj2 (proj2 (proj2 (handleRequest_rate_limit_order
                                      (Scenario.requestTo "bob" true)
                                      Scenario.atLimitRouter _ _ _))) _ _) _).
    + discriminate.
    + vm_compute. reflexivity.
    + vm_compute. reflexivity.
    + vm_compute. reflexivity.
    + apply Z.leb_le. vm_compute. reflexivity.
    + vm_compute. reflexivity.
Defined.

(** ** Membership changes: the modes of the service channels *)

Section ModeFacts.

Context {PR : Type} {prOps : PartialRange.Ops PR}.

(** Whether a sub-channel is registered under a name, and its mode. *)
Definition shapeOf (k : string) (s : ServiceProxy.Dispatcher PR)
    : option (option Mode) :=
  option_map serviceProxyMode (get k (ServiceProxy.subChannels s)).

Lemma modeOf_shapeOf (k : string) (s : ServiceProxy.Dispatcher PR) :
  ServiceProxy.modeOf k s
  = match shapeOf k s with Some m => m | None => None end.
Proof.
  unfold ServiceProxy.modeOf, shapeOf.
  now destruct (get k (ServiceProxy.subChannels s)).
Qed.

(** A step that neither registers nor removes a sub-channel, changes no
    mode, and leaves the ring view alone. *)
Definition sameShape (s s' : ServiceProxy.Dispatcher PR) : Prop :=
  (forall k, shapeOf k s' = shapeOf k s)
  /\ ServiceProxy.egressNodes s' = ServiceProxy.egressNodes s
  /\ ServiceProxy.partialAffinityEnabled s'
     = ServiceProxy.partialAffinityEnabled s.

Lemma sameShape_refl (s : ServiceProxy.Dispatcher PR) : sameShape s s.
Proof. split; [reflexivity|now split]. Qed.

Lemma sameShape_trans (s1 s2 s3 : ServiceProxy.Dispatcher PR) :
  sameShape s1 s2 -> sameShape s2 s3 -> sameShape s1 s3.
Proof.
  intros [A1 [B1 C1]] [A2 [B2 C2]].
  split; [intros k; rewrite A2; apply A1|split; congruence].
Qed.

(** A step on fields other than the sub-channels. *)
Lemma sameShape_fields (s s' : ServiceProxy.Dispatcher PR) :
  ServiceProxy.subChannels s' = ServiceProxy.subChannels s ->
  ServiceProxy.egressNodes s' = ServiceProxy.egressNodes s ->
  ServiceProxy.partialAffinityEnabled s' = ServiceProxy.partialAffinityEnabled s ->
  sameShape s s'.
Proof.
  intros H1 H2 H3.
  split; [intros k; unfold shapeOf; now rewrite H1|now split].
Qed.

Lemma withPeer_shape (hostPort : string) (f : Peer -> Peer)
    (s : ServiceProxy.Dispatcher PR) :
  sameShape s (ServiceProxy.withPeer hostPort f s).
Proof.
  unfold ServiceProxy.withPeer.
  destruct (get hostPort (ServiceProxy.peers s));
    [now apply sameShape_fields|apply sameShape_refl].
Qed.

(** The shape after a mutation of one sub-channel. *)
Lemma withChannel_shapeOf (name : string) (f : SubChannel -> SubChannel)
    (s : ServiceProxy.Dispatcher PR) (k : string) :
  shapeOf k (ServiceProxy.withChannel name f s)
  = if String.eqb k name
    then option_map (fun c => serviceProxyMode (f c))
           (get name (ServiceProxy.subChannels s))
    else shapeOf k s.
Proof.
  unfold ServiceProxy.withChannel, shapeOf.
  destruct (get name (ServiceProxy.subChannels s)) as [c|] eqn:G.
  - cbn [ServiceProxy.subChannels ServiceProxy.set_subChannels].
    rewrite get_put. destruct (String.eqb_spec k name); reflexivity.
  - destruct (String.eqb_spec k name) as [->|]; [now rewrite G|reflexivity].
Qed.

Lemma withChannel_shape (name : string) (f : SubChannel -> SubChannel)
    (s : ServiceProxy.Dispatcher PR) :
  (forall c, serviceProxyMode (f c) = serviceProxyMode c) ->
  sameShape s (ServiceProxy.withChannel name f s).
Proof.
  intros Hf. split; [|split].
  - intros k. rewrite withChannel_shapeOf.
    destruct (String.eqb_spec k name) as [->|]; [|reflexivity].
    unfold shapeOf. destruct (get name (ServiceProxy.subChannels s));
      cbn [option_map]; [now rewrite Hf|reflexivity].
  - unfold ServiceProxy.withChannel.
    now destruct (get name (ServiceProxy.subChannels s)).
  - unfold ServiceProxy.withChannel.
    now destruct (get name (ServiceProxy.subChannels s)).
Qed.

Lemma subPeers_add_shape (name hostPort : string)
    (s : ServiceProxy.Dispatcher PR) :
  sameShape s (ServiceProxy.subPeers_add name hostPort s).
Proof.
  unfold ServiceProxy.subPeers_add.
  eapply sameShape_trans; [|apply withChannel_shape].
  - destruct (has hostPort (ServiceProxy.peers s));
      [apply sameShape_refl|now apply sameShape_fields].
  - intros c. now destruct (mem hostPort (chanPeers c)).
Qed.

Lemma subPeers_delete_shape (name hostPort : string)
    (s : ServiceProxy.Dispatcher PR) :
  sameShape s (ServiceProxy.subPeers_delete name hostPort s).
Proof. now apply withChannel_shape. Qed.

Lemma subPeers_clear_shape (name : string) (s : ServiceProxy.Dispatcher PR) :
  sameShape s (ServiceProxy.subPeers_clear name s).
Proof. now apply withChannel_shape. Qed.

Lemma _getServicePeer_shape (name hostPort : string)
    (s : ServiceProxy.Dispatcher PR) :
  sameShape s (ServiceProxy._getServicePeer name hostPort s).
Proof.
  unfold ServiceProxy._getServicePeer.
  eapply sameShape_trans; [|apply withPeer_shape].
  destruct (ServiceProxy.subPeers_get name hostPort s);
    [apply sameShape_refl|apply subPeers_add_shape].
Qed.

(** A loop of steps that keep the shape keeps the shape. *)
Lemma fold_left_shape {A : Type}
    (step : ServiceProxy.Dispatcher PR -> A -> ServiceProxy.Dispatcher PR)
    (l : list A) (s : ServiceProxy.Dispatcher PR) :
  (forall s' a, sameShape s' (step s' a)) ->
  sameShape s (fold_left step l s).
Proof.
  intros Hstep. revert s. induction l as [|a l IH]; intros s; simpl.
  - apply sameShape_refl.
  - eapply sameShape_trans; [apply Hstep|apply IH].
Qed.

Lemma fold_left_shape_from {A : Type}
    (step : ServiceProxy.Dispatcher PR -> A -> ServiceProxy.Dispatcher PR)
    (l : list A) (s s1 : ServiceProxy.Dispatcher PR) :
  sameShape s s1 ->
  (forall s' a, sameShape s' (step s' a)) ->
  sameShape s (fold_left step l s1).
Proof.
  intros H Hstep. eapply sameShape_trans; [exact H|now apply fold_left_shape].
Qed.

Lemma ensurePeerConnected_shape (serviceName hostPort : string) (now : Z)
    (s : ServiceProxy.Dispatcher PR) :
  sameShape s (ServiceProxy.ensurePeerConnected serviceName hostPort now s).
Proof.
  unfold ServiceProxy.ensurePeerConnected.
  set (s1 := if ServiceProxy.partialAffinityEnabled s
             then ServiceProxy.addConnectedIndex serviceName hostPort now s
             else s).
  assert (B1 : sameShape s s1).
  { unfold s1. destruct (ServiceProxy.partialAffinityEnabled s);
      [now apply sameShape_fields|apply sameShape_refl]. }
  set (s2 := ServiceProxy.set_peersToPrune _ s1).
  assert (B2 : sameShape s s2).
  { eapply sameShape_trans; [exact B1|now apply sameShape_fields]. }
  destruct (get hostPort (ServiceProxy.peers s2)) as [peer|]; [|exact B2].
  destruct (connectedOut peer); [exact B2|].
  eapply sameShape_trans; [exact B2|].
  eapply sameShape_trans; [|apply withPeer_shape].
  destruct (draining peer); [apply withPeer_shape|apply sameShape_refl].
Qed.

Lemma ensurePeerDisconnected_shape (serviceName hostPort reason : string)
    (now : Z) (s : ServiceProxy.Dispatcher PR) :
  sameShape s
    (ServiceProxy.ensurePeerDisconnected serviceName hostPort reason now s).
Proof.
  unfold ServiceProxy.ensurePeerDisconnected.
  set (s1 := if ServiceProxy.partialAffinityEnabled s
             then ServiceProxy.deleteConnectedIndex serviceName hostPort s
             else s).
  assert (B1 : sameShape s s1).
  { unfold s1. destruct (ServiceProxy.partialAffinityEnabled s);
      [now apply sameShape_fields|apply sameShape_refl]. }
  destruct (get hostPort (ServiceProxy.connectedPeerServices s1)) as [[|? ?]|];
    try exact B1;
    (eapply sameShape_trans; [exact B1|now apply sameShape_fields]).
Qed.

(** A registered sub-channel is found, not created. *)
Lemma getOrCreateServiceChannel_registered (name : string)
    (s : ServiceProxy.Dispatcher PR) (m : option Mode) :
  shapeOf name s = Some m ->
  ServiceProxy.getOrCreateServiceChannel name s = s.
Proof.
  unfold shapeOf, ServiceProxy.getOrCreateServiceChannel,
    ServiceProxy.getServiceChannel, has.
  now destruct (get name (ServiceProxy.subChannels s)).
Qed.

Lemma getPartialRange_shape (name : string) (now : Z)
    (s : ServiceProxy.Dispatcher PR) (m : option Mode) :
  shapeOf name s = Some m ->
  sameShape s (fst (ServiceProxy.getPartialRange name now s)).
Proof.
  intros Hreg. unfold ServiceProxy.getPartialRange.
  destruct (get name (ServiceProxy.partialRanges s)) as [partialRange|].
  - destruct (PartialRange.isValid partialRange); apply sameShape_refl.
  - rewrite (getOrCreateServiceChannel_registered name s m Hreg).
    match goal with
    | |- context [PartialRange.isValid ?r] => destruct (PartialRange.isValid r)
    end; now apply sameShape_fields.
Qed.

Lemma ensurePartialConnections_shape (name reason : string) (now : Z)
    (s : ServiceProxy.Dispatcher PR) (m : option Mode) :
  shapeOf name s = Some m ->
  sameShape s (fst (ServiceProxy.ensurePartialConnections name reason now s)).
Proof.
  intros Hreg. unfold ServiceProxy.ensurePartialConnections.
  pose proof (getPartialRange_shape name now s m Hreg) as B1.
  destruct (ServiceProxy.getPartialRange name now s) as [s1 [partialRange|]];
    cbn [fst] in B1 |- *; [|exact B1].
  set (affine := PartialRange.affineWorkers partialRange).
  set (s2 := fold_left
               (fun s' worker => ServiceProxy._getServicePeer name worker s')
               affine s1).
  assert (B2 : sameShape s s2).
  { apply fold_left_shape_from; [exact B1|].
    intros. apply _getServicePeer_shape. }
  set (toDisconnect := filter _ _).
  assert (B4 : sameShape s
    (fold_left
       (fun s' worker =>
          ServiceProxy.ensurePeerDisconnected name worker
            "service peer affinity change" now
            (ServiceProxy._getServicePeer name worker s'))
       toDisconnect
       (fold_left
          (fun s' worker =>
             ServiceProxy.ensurePeerConnected name worker now
               (ServiceProxy._getServicePeer name worker s'))
          affine s2))).
  { apply fold_left_shape_from; [apply fold_left_shape_from; [exact B2|]|];
      intros s' a.
    - eapply sameShape_trans;
        [apply _getServicePeer_shape|apply ensurePeerConnected_shape].
    - eapply sameShape_trans;
        [apply _getServicePeer_shape|apply ensurePeerDisconnected_shape]. }
  destruct affine; destruct toDisconnect; cbn [fst]; assumption.
Qed.

(** The mode this router is to have for a service. *)
Definition modeFor (s : ServiceProxy.Dispatcher PR) (name : string) : Mode :=
  if EgressNodes.isExitFor (ServiceProxy.egressNodes s) name then exit
  else forward.

(** A step that sets the mode of the sub-channel [name] and keeps the rest
    of the shape. *)
Definition setsMode (name : string) (mode : Mode)
    (s s' : ServiceProxy.Dispatcher PR) : Prop :=
  (forall k, shapeOf k s'
             = if String.eqb k name then Some (Some mode) else shapeOf k s)
  /\ ServiceProxy.egressNodes s' = ServiceProxy.egressNodes s
  /\ ServiceProxy.partialAffinityEnabled s'
     = ServiceProxy.partialAffinityEnabled s.

Lemma setsMode_then_same (name : string) (mode : Mode)
    (s1 s2 s3 : ServiceProxy.Dispatcher PR) :
  setsMode name mode s1 s2 -> sameShape s2 s3 -> setsMode name mode s1 s3.
Proof.
  intros [A1 [B1 C1]] [A2 [B2 C2]].
  split; [intros k; rewrite A2; apply A1|split; congruence].
Qed.

Lemma same_then_setsMode (name : string) (mode : Mode)
    (s1 s2 s3 : ServiceProxy.Dispatcher PR) :
  sameShape s1 s2 -> setsMode name mode s2 s3 -> setsMode name mode s1 s3.
Proof.
  intros [A1 [B1 C1]] [A2 [B2 C2]].
  split; [intros k; rewrite A2; now rewrite A1|split; congruence].
Qed.

(** A sub-channel that already has the mode: keeping the shape sets it. *)
Lemma sameShape_setsMode (name : string) (mode : Mode)
    (s s' : ServiceProxy.Dispatcher PR) :
  shapeOf name s = Some (Some mode) -> sameShape s s' -> setsMode name mode s s'.
Proof.
  intros Hm [A [B C]]. split; [|now split].
  intros k. rewrite A. destruct (String.eqb_spec k name) as [->|];
    [exact Hm|reflexivity].
Qed.

Lemma set_mode_setsMode (name : string) (mode : Mode)
    (s : ServiceProxy.Dispatcher PR) (m : option Mode) :
  shapeOf name s = Some m ->
  setsMode name mode s
    (ServiceProxy.withChannel name (set_serviceProxyMode (Some mode)) s).
Proof.
  intros Hreg. split; [|split].
  - intros k. rewrite withChannel_shapeOf.
    destruct (String.eqb_spec k name) as [->|]; [|reflexivity].
    unfold shapeOf in Hreg.
    now destruct (get name (ServiceProxy.subChannels s)).
  - unfold ServiceProxy.withChannel.
    now destruct (get name (ServiceProxy.subChannels s)).
  - unfold ServiceProxy.withChannel.
    now destruct (get name (ServiceProxy.subChannels s)).
Qed.

Lemma setsMode_registered (name : string) (mode : Mode)
    (s s' : ServiceProxy.Dispatcher PR) :
  setsMode name mode s s' -> shapeOf name s' = Some (Some mode).
Proof. intros [A _]. rewrite A. now rewrite String.eqb_refl. Qed.

Lemma changeToExit_setsMode (name : string) (s : ServiceProxy.Dispatcher PR)
    (m : option Mode) :
  shapeOf name s = Some m ->
  setsMode name exit s (ServiceProxy.changeToExit name s).
Proof.
  intros Hreg. unfold ServiceProxy.changeToExit.
  eapply setsMode_then_same;
    [now apply (set_mode_setsMode name exit s m)|apply subPeers_clear_shape].
Qed.

Lemma changeToForward_setsMode (exitNodes : list string) (name : string)
    (now : Z) (s : ServiceProxy.Dispatcher PR) (m : option Mode) :
  shapeOf name s = Some m ->
  setsMode name forward s (ServiceProxy.changeToForward exitNodes name now s).
Proof.
  intros Hreg. unfold ServiceProxy.changeToForward.
  eapply setsMode_then_same;
    [now apply (set_mode_setsMode name forward s m)|].
  apply fold_left_shape_from;
    [apply fold_left_shape_from; [apply subPeers_clear_shape|]|];
    intros s' a.
  - apply ensurePeerDisconnected_shape.
  - apply _getServicePeer_shape.
Qed.

Lemma updateExitNodes_shape (exitNodes : list string) (name : string)
    (s : ServiceProxy.Dispatcher PR) :
  sameShape s (ServiceProxy.updateExitNodes exitNodes name s).
Proof.
  unfold ServiceProxy.updateExitNodes.
  apply fold_left_shape_from; [apply fold_left_shape|]; intros s' a.
  - destruct (mem a exitNodes);
      [apply sameShape_refl|apply subPeers_delete_shape].
  - apply _getServicePeer_shape.
Qed.

Lemma updateServiceNodes_shape (name : string) (now : Z)
    (s : ServiceProxy.Dispatcher PR) (m : option Mode) :
  shapeOf name s = Some m ->
  sameShape s (ServiceProxy.updateServiceNodes name now s).
Proof.
  intros Hreg. unfold ServiceProxy.updateServiceNodes.
  destruct (ServiceProxy.partialAffinityEnabled s);
    [now apply (ensurePartialConnections_shape _ _ _ _ m)|apply sameShape_refl].
Qed.

(** [updateServiceChannel] on a service channel sets the mode the ring
    asks for. *)
Lemma updateServiceChannel_setsMode (name : string) (now : Z)
    (s : ServiceProxy.Dispatcher PR) (m : Mode) :
  shapeOf name s = Some (Some m) ->
  setsMode name (modeFor s name) s (ServiceProxy.updateServiceChannel name now s).
Proof.
  intros Hreg. unfold ServiceProxy.updateServiceChannel, modeFor.
  set (s1 := ServiceProxy.set_relaysFor _ s).
  assert (B1 : sameShape s s1) by now apply sameShape_fields.
  change (ServiceProxy.egressNodes s1) with (ServiceProxy.egressNodes s).
  destruct (EgressNodes.isExitFor (ServiceProxy.egressNodes s) name).
  - set (s2 := if ServiceProxy.partialAffinityEnabled s1 then _ else s1).
    assert (B2 : sameShape s s2).
    { unfold s2. destruct (ServiceProxy.partialAffinityEnabled s1); [|exact B1].
      destruct (get name (ServiceProxy.partialRanges s1)); [|exact B1].
      eapply sameShape_trans; [exact B1|now apply sameShape_fields]. }
    assert (Hreg2 : shapeOf name s2 = Some (Some m))
      by (destruct B2 as [A _]; now rewrite A).
    rewrite modeOf_shapeOf, Hreg2.
    eapply same_then_setsMode; [exact B2|].
    destruct m.
    + apply sameShape_setsMode; [exact Hreg2|].
      now apply (updateServiceNodes_shape _ _ _ (Some exit)).
    + now apply (changeToExit_setsMode _ _ (Some forward)).
  - set (s2 := if ServiceProxy.partialAffinityEnabled s1 then _ else s1).
    assert (B2 : sameShape s s2).
    { unfold s2. destruct (ServiceProxy.partialAffinityEnabled s1); [|exact B1].
      eapply sameShape_trans; [exact B1|now apply sameShape_fields]. }
    assert (Hreg2 : shapeOf name s2 = Some (Some m))
      by (destruct B2 as [A _]; now rewrite A).
    rewrite modeOf_shapeOf, Hreg2.
    eapply same_then_setsMode; [exact B2|].
    destruct m.
    + now apply (changeToForward_setsMode _ _ _ _ (Some exit)).
    + apply sameShape_setsMode; [exact Hreg2|].
      apply updateExitNodes_shape.
Qed.

(** The shape a service channel is to have after the reconciliation: a
    sub-channel with a mode gets the mode the ring asks for, any other
    name is left as it is. *)
Definition reconciled (s0 : ServiceProxy.Dispatcher PR)
    (shape : option (option Mode)) (k : string) : option (option Mode) :=
  match shape with
  | Some (Some _) => Some (Some (modeFor s0 k))
  | other => other
  end.

Lemma updateServiceChannels_loop_shape (now : Z) (names : list string)
    (s : ServiceProxy.Dispatcher PR) :
  let s' := fold_left (ServiceProxy.updateServiceChannels_step now) names s in
  (forall k, shapeOf k s'
             = if existsb (String.eqb k) names then reconciled s (shapeOf k s) k
               else shapeOf k s)
  /\ ServiceProxy.egressNodes s' = ServiceProxy.egressNodes s.
Proof.
  revert s. induction names as [|n names IH]; intros s; cbn [fold_left existsb].
  - now split.
  - set (s1 := ServiceProxy.updateServiceChannels_step now s n).
    assert (Hstep : (forall k, shapeOf k s1
                       = if String.eqb k n then reconciled s (shapeOf k s) k
                         else shapeOf k s)
                    /\ ServiceProxy.egressNodes s1 = ServiceProxy.egressNodes s).
    { unfold s1, ServiceProxy.updateServiceChannels_step.
      rewrite modeOf_shapeOf.
      destruct (shapeOf n s) as [[m|]|] eqn:Hn.
      - destruct (updateServiceChannel_setsMode n now s m Hn) as [A [B _]].
        split; [|exact B]. intros k. rewrite A.
        destruct (String.eqb_spec k n) as [->|]; [|reflexivity].
        now rewrite Hn.
      - split; [|reflexivity]. intros k.
        destruct (String.eqb_spec k n) as [->|]; [now rewrite Hn|reflexivity].
      - split; [|reflexivity]. intros k.
        destruct (String.eqb_spec k n) as [->|]; [now rewrite Hn|reflexivity]. }
    destruct Hstep as [A1 E1]. destruct (IH s1) as [A2 E2].
    split; [|congruence].
    intros k. rewrite A2, A1.
    assert (Hfor : forall x, modeFor s1 x = modeFor s x)
      by (intros x; unfold modeFor; now rewrite E1).
    destruct (String.eqb_spec k n) as [->|]; cbn [orb].
    + destruct (existsb (String.eqb n) names); [|reflexivity].
      destruct (shapeOf n s) as [[m|]|]; cbn [reconciled];
        now rewrite ?Hfor.
    + destruct (existsb (String.eqb k) names); [|reflexivity].
      destruct (shapeOf k s) as [[m|]|]; cbn [reconciled];
        now rewrite ?Hfor.
Qed.

(** C6.  After [updateServiceChannels] every sub-channel that had a mode,
    exit or forward, has the mode the ring asks for at that time: exit
    when [egressNodes.isExitFor] holds for its service, forward when not.
    No other sub-channel gets a mode, and none is registered or removed. *)
Theorem updateServiceChannels_sets_modes_from_ring (now : Z)
    (s : ServiceProxy.Dispatcher PR) (serviceName : string) :
  ServiceProxy.modeOf serviceName (ServiceProxy.updateServiceChannels now s)
  = match ServiceProxy.modeOf serviceName s with
    | Some _ =>
        Some (if EgressNodes.isExitFor (ServiceProxy.egressNodes s) serviceName
              then exit else forward)
    | None => None
    end.
Proof.
  destruct (updateServiceChannels_loop_shape now
              (keys (ServiceProxy.subChannels s)) s) as [A E].
  assert (Hshape :
    shapeOf serviceName (ServiceProxy.updateServiceChannels now s)
    = reconciled s (shapeOf serviceName s) serviceName).
  { unfold ServiceProxy.updateServiceChannels.
    set (s1 := fold_left _ _ s) in *.
    assert (H1 : shapeOf serviceName s1
                 = reconciled s (shapeOf serviceName s) serviceName).
    { rewrite A.
      destruct (existsb (String.eqb serviceName)
                  (keys (ServiceProxy.subChannels s))) eqn:Ex; [reflexivity|].
      unfold shapeOf.
      destruct (get serviceName (ServiceProxy.subChannels s)) as [c|] eqn:G;
        [|reflexivity].
      apply get_In_keys in G.
      assert (Ex' : existsb (String.eqb serviceName)
                      (keys (ServiceProxy.subChannels s)) = true).
      { apply existsb_exists. exists serviceName.
        split; [exact G|apply String.eqb_refl]. }
      congruence. }
    destruct (ServiceProxy.circuits s1); exact H1. }
  rewrite !modeOf_shapeOf, Hshape.
  destruct (shapeOf serviceName s) as [[m|]|]; reflexivity.
Qed.

End ModeFacts.

(** ** Circuits: the registry *)

Section MoreObjFacts.
Context {V : Type}.

Lemma put_put_same (k : string) (v v' : V) (o : obj V) :
  put k v (put k v' o) = put k v o.
Proof.
  induction o as [|[k0 v0] o IH]; simpl.
  - now rewrite String.eqb_refl.
  - destruct (String.eqb k k0) eqn:E; simpl.
    + now rewrite String.eqb_refl.
    + rewrite E. now rewrite IH.
Qed.

Lemma put_get_same (k : string) (v : V) (o : obj V) :
  get k o = Some v -> put k v o = o.
Proof.
  induction o as [|[k0 v0] o IH]; simpl; [discriminate|].
  destruct (String.eqb k k0) eqn:E.
  - apply String.eqb_eq in E. intros H. injection H as ->. now subst.
  - intros H. now rewrite IH.
Qed.

Lemma del_put_fresh (k : string) (v : V) (o : obj V) :
  get k o = None -> del k (put k v o) = o.
Proof.
  induction o as [|[k0 v0] o IH]; simpl.
  - intros _. unfold del. simpl. now rewrite String.eqb_refl.
  - destruct (String.eqb k k0) eqn:E; [discriminate|].
    intros H. unfold del in *. simpl. rewrite E. simpl. now rewrite IH.
Qed.

Lemma keys_In_get (k : string) (o : obj V) :
  In k (keys o) -> exists v, get k o = Some v.
Proof.
  induction o as [|[k0 v0] o IH]; simpl; [contradiction|].
  intros [->|H].
  - rewrite String.eqb_refl. now exists v0.
  - destruct (String.eqb k k0); [now exists v0|now apply IH].
Qed.

Lemma has_put (k k' : string) (v : V) (o : obj V) :
  has k (put k' v o) = String.eqb k k' || has k o.
Proof.
  unfold has. rewrite get_put. now destruct (String.eqb k k').
Qed.

End MoreObjFacts.

Section CircuitFacts.
Import Circuits.

Lemma dollar_inj (a b : string) : "$" ++ a = "$" ++ b -> a = b.
Proof. simpl. now intros [=]. Qed.

Lemma EndpointCircuits_getCircuit_again (self : EndpointCircuits)
    (cn sn en : string) :
  let '(self1, c) := EndpointCircuits_getCircuit self cn sn en in
  forall cn', EndpointCircuits_getCircuit self1 cn' sn en = (self1, c).
Proof.
  unfold EndpointCircuits_getCircuit.
  destruct (get ("$" ++ en) self) as [c|] eqn:G; intros cn'.
  - now rewrite G.
  - now rewrite get_put_same.
Qed.

Lemma ServiceCircuits_getCircuit_again (self : ServiceCircuits)
    (cn sn en : string) :
  let '(self1, c) := ServiceCircuits_getCircuit self cn sn en in
  ServiceCircuits_getCircuit self1 cn sn en = (self1, c).
Proof.
  unfold ServiceCircuits_getCircuit.
  set (circuits := match get ("$" ++ cn) self with Some c => c | None => [] end).
  pose proof (EndpointCircuits_getCircuit_again circuits cn sn en) as H.
  destruct (EndpointCircuits_getCircuit circuits cn sn en) as [circuits' c].
  rewrite get_put_same, (H cn). now rewrite put_put_same.
Qed.

Lemma getCircuit_again (self : CircuitsByServiceName)
    (cn sn en : string) :
  getCircuit (fst (getCircuit self cn sn en)) cn sn en = getCircuit self cn sn en.
Proof.
  unfold getCircuit.
  set (circuits := match get ("$" ++ sn) self with Some c => c | None => [] end).
  pose proof (ServiceCircuits_getCircuit_again circuits cn sn en) as H.
  destruct (ServiceCircuits_getCircuit circuits cn sn en) as [circuits' c].
  cbn [fst]. rewrite get_put_same, H. now rewrite put_put_same.
Qed.

Lemma EndpointCircuits_getCircuit_other (self : EndpointCircuits)
    (cn sn en cn' sn' en' : string) :
  (en' = en -> cn' = cn /\ sn' = sn) ->
  snd (EndpointCircuits_getCircuit
         (fst (EndpointCircuits_getCircuit self cn sn en)) cn' sn' en')
  = snd (EndpointCircuits_getCircuit self cn' sn' en').
Proof.
  intros Hsame. unfold EndpointCircuits_getCircuit.
  destruct (get ("$" ++ en) self) as [c|] eqn:G; cbn [fst]; [reflexivity|].
  rewrite get_put.
  destruct (String.eqb_spec ("$" ++ en') ("$" ++ en)) as [E|_].
  - apply dollar_inj in E. destruct (Hsame E) as [-> ->]. subst en'.
    now rewrite G.
  - now destruct (get ("$" ++ en') self).
Qed.

Lemma ServiceCircuits_getCircuit_other (self : ServiceCircuits)
    (cn sn en cn' sn' en' : string) :
  (cn' = cn -> en' = en -> sn' = sn) ->
  snd (ServiceCircuits_getCircuit
         (fst (ServiceCircuits_getCircuit self cn sn en)) cn' sn' en')
  = snd (ServiceCircuits_getCircuit self cn' sn' en').
Proof.
  intros Hsame. unfold ServiceCircuits_getCircuit.
  set (circuits := match get ("$" ++ cn) self with Some c => c | None => [] end).
  pose proof (EndpointCircuits_getCircuit_other circuits cn sn en cn' sn' en') as H.
  destruct (EndpointCircuits_getCircuit circuits cn sn en) as [circuits1 c1].
  cbn [fst] in *. rewrite get_put.
  destruct (String.eqb_spec ("$" ++ cn') ("$" ++ cn)) as [E|_].
  - apply dollar_inj in E. subst cn'.
    assert (H' : snd (EndpointCircuits_getCircuit circuits1 cn sn' en')
                 = snd (EndpointCircuits_getCircuit circuits cn sn' en')).
    { apply H. intros ->. split; [reflexivity|now apply Hsame]. }
    fold circuits.
    destruct (EndpointCircuits_getCircuit circuits1 cn sn' en').
    destruct (EndpointCircuits_getCircuit circuits cn sn' en').
    exact H'.
  - clear H. now destruct (EndpointCircuits_getCircuit _ cn' sn' en').
Qed.

Lemma getCircuit_other (self : CircuitsByServiceName)
    (cn sn en cn' sn' en' : string) :
  snd (getCircuit (fst (getCircuit self cn sn en)) cn' sn' en')
  = snd (getCircuit self cn' sn' en').
Proof.
  unfold getCircuit.
  set (circuits := match get ("$" ++ sn) self with Some c => c | None => [] end).
  pose proof (ServiceCircuits_getCircuit_other circuits cn sn en cn' sn' en') as H.
  destruct (ServiceCircuits_getCircuit circuits cn sn en) as [circuits1 c1].
  cbn [fst] in *. rewrite get_put.
  destruct (String.eqb_spec ("$" ++ sn') ("$" ++ sn)) as [E|_].
  - apply dollar_inj in E. subst sn'.
    assert (H' : snd (ServiceCircuits_getCircuit circuits1 cn' sn en')
                 = snd (ServiceCircuits_getCircuit circuits cn' sn en'))
      by now apply H.
    fold circuits.
    destruct (ServiceCircuits_getCircuit circuits1 cn' sn en').
    destruct (ServiceCircuits_getCircuit circuits cn' sn en').
    exact H'.
  - clear H. now destruct (ServiceCircuits_getCircuit _ cn' sn' en').
Qed.

(** X1.  A circuit is created once and never replaced.  Asking again for
    the same caller, service and endpoint returns the circuit of the first
    call and leaves the registry as the first call left it; and the
    circuit found for any caller, service and endpoint is the same whether
    or not another circuit was asked for, and perhaps created, in between. *)
Theorem getCircuit_creates_once (self : CircuitsByServiceName)
    (cn sn en cn' sn' en' : string) :
  getCircuit (fst (getCircuit self cn sn en)) cn sn en = getCircuit self cn sn en
  /\ snd (getCircuit (fst (getCircuit self cn sn en)) cn' sn' en')
     = snd (getCircuit self cn' sn' en').
Proof. split; [apply getCircuit_again|apply getCircuit_other]. Qed.

(** *** The tuples of the registry *)

Definition tupleOf (c : Circuit) : CircuitTuple :=
  (callerName c, serviceName c, endpointName c).

Section Collect.

Context {V T : Type}.
Variable F : V -> list T -> list T.
Hypothesis F_keeps : forall v acc x, In x acc -> In x (F v acc).

Let step (o : obj V) (acc : list T) (k : string) : list T :=
  match get k o with Some v => F v acc | None => acc end.

Lemma collect_keeps (o : obj V) (ks : list string) (acc : list T) (x : T) :
  In x acc -> In x (fold_left (step o) ks acc).
Proof.
  revert acc. induction ks as [|k ks IH]; intros acc H; simpl; [exact H|].
  apply IH. unfold step. destruct (get k o); [now apply F_keeps|exact H].
Qed.

Lemma collect_In (o : obj V) (ks : list string) (acc : list T) (x : T)
    (k : string) (v : V) :
  In k ks -> get k o = Some v -> (forall acc', In x (F v acc')) ->
  In x (fold_left (step o) ks acc).
Proof.
  intros Hk G Hx. revert acc.
  induction ks as [|k0 ks IH]; intros acc; simpl; [contradiction|].
  destruct Hk as [->|Hk]; [|now apply IH].
  apply collect_keeps. unfold step. rewrite G. apply Hx.
Qed.

End Collect.

Lemma EndpointCircuits_collect_keeps (self : EndpointCircuits)
    (acc : list CircuitTuple) (x : CircuitTuple) :
  In x acc -> In x (EndpointCircuits_collectCircuitTuples self acc).
Proof.
  apply (collect_keeps (fun c acc => (acc ++ [tupleOf c])%list)).
  intros v acc' y H. apply in_or_app. now left.
Qed.

Lemma EndpointCircuits_collect_In (self : EndpointCircuits)
    (acc : list CircuitTuple) (k : string) (c : Circuit) :
  get k self = Some c ->
  In (tupleOf c) (EndpointCircuits_collectCircuitTuples self acc).
Proof.
  intros G.
  apply (collect_In (fun c acc => (acc ++ [tupleOf c])%list)) with (k := k) (v := c).
  - intros v acc' y H. apply in_or_app. now left.
  - now apply get_In_keys with (v := c).
  - exact G.
  - intros acc'. apply in_or_app. right. now left.
Qed.

Lemma ServiceCircuits_collect_keeps (self : ServiceCircuits)
    (acc : list CircuitTuple) (x : CircuitTuple) :
  In x acc -> In x (ServiceCircuits_collectCircuitTuples self acc).
Proof.
  apply (collect_keeps EndpointCircuits_collectCircuitTuples).
  intros v acc' y. apply EndpointCircuits_collect_keeps.
Qed.

Lemma ServiceCircuits_collect_In (self : ServiceCircuits)
    (acc : list CircuitTuple) (k k' : string) (circuits : EndpointCircuits)
    (c : Circuit) :
  get k self = Some circuits -> get k' circuits = Some c ->
  In (tupleOf c) (ServiceCircuits_collectCircuitTuples self acc).
Proof.
  intros G G'.
  apply (collect_In EndpointCircuits_collectCircuitTuples)
    with (k := k) (v := circuits).
  - intros v acc' y. apply EndpointCircuits_collect_keeps.
  - now apply get_In_keys with (v := circuits).
  - exact G.
  - intros acc'. now apply EndpointCircuits_collect_In with (k := k').
Qed.

Lemma getCircuitTuples_In (self : CircuitsByServiceName) (k k' k'' : string)
    (services : ServiceCircuits) (circuits : EndpointCircuits) (c : Circuit) :
  get k self = Some services -> get k' services = Some circuits ->
  get k'' circuits = Some c ->
  In (tupleOf c) (getCircuitTuples self).
Proof.
  intros G G' G''.
  apply (collect_In ServiceCircuits_collectCircuitTuples)
    with (k := k) (v := services).
  - intros v acc' y. apply ServiceCircuits_collect_keeps.
  - now apply get_In_keys with (v := services).
  - exact G.
  - intros acc'. now apply ServiceCircuits_collect_In with (k := k') (k' := k'')
                        (circuits := circuits).
Qed.

(** X2.  The circuit that [getCircuit] returns is listed by [getCircuitTuples],
    with the names the circuit carries. *)
Theorem getCircuitTuples_lists_circuit (self : CircuitsByServiceName)
    (cn sn en : string) :
  In (tupleOf (snd (getCircuit self cn sn en)))
     (getCircuitTuples (fst (getCircuit self cn sn en))).
Proof.
  unfold getCircuit.
  set (services := match get ("$" ++ sn) self with Some c => c | None => [] end).
  unfold ServiceCircuits_getCircuit.
  set (circuits := match get ("$" ++ cn) services with Some c => c | None => [] end).
  assert (H : exists circuits' c,
             EndpointCircuits_getCircuit circuits cn sn en = (circuits', c)
             /\ get ("$" ++ en) circuits' = Some c).
  { unfold EndpointCircuits_getCircuit.
    destruct (get ("$" ++ en) circuits) as [c|] eqn:G.
    - now exists circuits, c.
    - eexists _, _. split; [reflexivity|apply get_put_same]. }
  destruct H as (circuits' & c & -> & G). cbn [fst snd].
  eapply getCircuitTuples_In; [apply get_put_same|apply get_put_same|exact G].
Qed.

(** *** Requests without a caller name *)

(** X3.  Callers that give no [cn] share one circuit for a service and an
    endpoint: the second such request finds the circuit of the first, with
    the same answer, and adds nothing to the registry. *)
Theorem getCircuitForRequest_shares_circuit_without_cn
    (shouldRequest : Circuit -> bool) (self : CircuitsByServiceName)
    (req1 req2 : CircuitRequest) :
  truthyStr (req_cn req1) = false ->
  truthyStr (req_cn req2) = false ->
  req_serviceName req2 = req_serviceName req1 ->
  req_arg1 req2 = req_arg1 req1 ->
  getCircuitForRequest shouldRequest
    (fst (getCircuitForRequest shouldRequest self req1)) req2
  = getCircuitForRequest shouldRequest self req1.
Proof.
  intros C1 C2 Es Ea. unfold getCircuitForRequest. rewrite Es, Ea.
  assert (N : forall c, truthyStr c = false -> orStr c "no-cn" = "no-cn").
  { intros [c|]; simpl; [|reflexivity].
    destruct (String.eqb c ""); [reflexivity|discriminate]. }
  rewrite (N _ C1), (N _ C2).
  destruct (truthyStr (req_serviceName req1)); cbn [negb]; [|reflexivity].
  set (sn := orStr (req_serviceName req1) "").
  pose proof (getCircuit_again self "no-cn" sn (req_arg1 req1)) as H.
  destruct (getCircuit self "no-cn" sn (req_arg1 req1)) as [self1 c] eqn:G.
  cbn [fst] in H.
  assert (F : fst (if negb (shouldRequest c)
                   then (self1, ErrorFrame "Declined" "Service is not healthy")
                   else (self1, Value c)) = self1)
    by now destruct (shouldRequest c).
  rewrite F, H. reflexivity.
Qed.

End CircuitFacts.

Lemma getCircuitForRequest_shares_circuit_without_cn_witness :
  let req1 := {| Circuits.req_cn := None;
                 Circuits.req_serviceName := Some "steve";
                 Circuits.req_arg1 := "echo" |} in
  let req2 := {| Circuits.req_cn := Some "";
                 Circuits.req_serviceName := Some "steve";
                 Circuits.req_arg1 := "echo" |} in
  Circuits.getCircuitForRequest Circuits.healthy
    (fst (Circuits.getCircuitForRequest Circuits.healthy [] req1)) req2
  = Circuits.getCircuitForRequest Circuits.healthy [] req1.
Proof.
  intros req1 req2.
  apply (getCircuitForRequest_shares_circuit_without_cn Circuits.healthy []
           req1 req2); reflexivity.
Defined.

(** ** The blocking tables and the kill switches *)

Section BlockFacts.
Context {PR : Type} {prOps : PartialRange.Ops PR}.
Import ServiceProxy.

(** Whether a table holds a truthy stamp under a key. *)
Definition stamped (table : obj Z) (key : string) : bool :=
  match get key table with Some value => truthy value | None => false end.

Lemma tableBlocks_Some (table : obj Z) (cn serviceName : string) :
  tableBlocks (Some table) cn serviceName
  = stamped table (cn ++ "~~" ++ serviceName)
    || stamped table ("*~~" ++ serviceName)
    || stamped table (cn ++ "~~*").
Proof. reflexivity. Qed.

Lemma stamped_put (table : obj Z) (key key' : string) (now : Z) :
  stamped (put key' now table) key
  = if String.eqb key key' then truthy now else stamped table key.
Proof. unfold stamped. rewrite get_put. now destruct (String.eqb key key'). Qed.

Lemma truthy_nonzero (now : Z) : now <> 0 -> truthy now = true.
Proof. intros H. unfold truthy. now destruct (Z.eqb_spec now 0). Qed.

Lemma stamped_put_mono (table : obj Z) (key key' : string) (now : Z) :
  now <> 0 -> stamped table key = true -> stamped (put key' now table) key = true.
Proof.
  intros Hn H. rewrite stamped_put.
  destruct (String.eqb key key'); [now apply truthy_nonzero|exact H].
Qed.

(** The table after a put of a pair of names blocks what the pair covers:
    the pair itself, and with a wildcard on one side every name there. *)
Lemma tableBlocks_put (table : obj Z) (c v c' v' : string) (now : Z) :
  now <> 0 ->
  (c = "*" \/ c = c') -> (v = "*" \/ v = v') ->
  (c = "*" -> v = "*" -> False) ->
  tableBlocks (Some (put (c ++ "~~" ++ v) now table)) c' v' = true.
Proof.
  intros Hn Hc Hv Hnot. rewrite tableBlocks_Some, !stamped_put.
  rewrite (truthy_nonzero now Hn).
  destruct Hc as [Hc|Hc]; destruct Hv as [Hv|Hv]; subst.
  - now destruct Hnot.
  - apply Bool.orb_true_iff. left. apply Bool.orb_true_iff. right.
    change ("*~~" ++ v') with ("*" ++ "~~" ++ v').
    now rewrite String.eqb_refl.
  - apply Bool.orb_true_iff. right.
    change (c' ++ "~~*") with (c' ++ "~~" ++ "*").
    now rewrite String.eqb_refl.
  - now rewrite String.eqb_refl.
Qed.

Lemma tableBlocks_put_mono (table : obj Z) (key c v : string) (now : Z) :
  now <> 0 ->
  tableBlocks (Some table) c v = true ->
  tableBlocks (Some (put key now table)) c v = true.
Proof.
  intros Hn. rewrite !tableBlocks_Some, !Bool.orb_true_iff.
  intros [[H|H]|H]; [left; left|left; right|right];
    now apply stamped_put_mono.
Qed.

Lemma block_Ok (cn serviceName : option string) (now : Z)
    (s s' : Dispatcher PR) :
  block cn serviceName now s = Ok s' ->
  (orStr cn "*" = "*" -> orStr serviceName "*" = "*" -> False)
  /\ s' = set_blockingTable
            (Some (put (orStr cn "*" ++ "~~" ++ orStr serviceName "*") now
                     match blockingTable s with Some t => t | None => [] end)) s.
Proof.
  unfold block.
  destruct (String.eqb_spec (orStr cn "*") "*") as [E1|N1];
    destruct (String.eqb_spec (orStr serviceName "*") "*") as [E2|N2];
    cbn [andb]; intros [=]; subst s'; split; try reflexivity; intros; contradiction.
Qed.

(** Whether a name given to [block], perhaps left out, covers a name of a
    request: a name that is left out is the wildcard and covers every name. *)
Definition covers (pattern name : option string) : bool :=
  String.eqb (orStr pattern "*") "*"
  || String.eqb (orStr pattern "*") (orStr name "*").

Lemma covers_cases (pattern name : option string) :
  covers pattern name = true ->
  orStr pattern "*" = "*" \/ orStr pattern "*" = orStr name "*".
Proof.
  unfold covers. rewrite Bool.orb_true_iff, !String.eqb_eq. tauto.
Qed.

(** X4.  [block] blocks.  After [block(cn, serviceName)] at a time other than
    0, [isBlocked] holds for the pair; when [cn] was left out it holds
    for every caller of the service, and when [serviceName] was left out
    for every service the caller asks for. *)
Theorem block_blocks (cn serviceName : option string) (now : Z)
    (s s' : Dispatcher PR) (cn' : option string) (serviceName' : string) :
  now <> 0 ->
  block cn serviceName now s = Ok s' ->
  covers cn cn' = true ->
  covers serviceName (Some serviceName') = true ->
  isBlocked cn' serviceName' s' = true.
Proof.
  intros Hn Hb Hc Hv. apply block_Ok in Hb. destruct Hb as [Hnot ->].
  apply covers_cases in Hc, Hv.
  unfold isBlocked. cbn [blockingTable set_blockingTable].
  rewrite tableBlocks_put; auto.
Qed.

(** X5.  [block] takes no block away: what was blocked stays blocked. *)
Theorem block_keeps_blocked (cn serviceName : option string) (now : Z)
    (s s' : Dispatcher PR) (cn' : option string) (serviceName' : string) :
  now <> 0 ->
  block cn serviceName now s = Ok s' ->
  isBlocked cn' serviceName' s = true ->
  isBlocked cn' serviceName' s' = true.
Proof.
  intros Hn Hb. apply block_Ok in Hb. destruct Hb as [_ ->].
  unfold isBlocked. cbn [blockingTable blockingTableRemoteConfig
                         set_blockingTable].
  rewrite !Bool.orb_true_iff. intros [H|H]; [left|now right].
  destruct (blockingTable s) as [table|]; [|discriminate].
  now apply tableBlocks_put_mono.
Qed.

(** X6.  [unblock] undoes [block].  When the pair was not in the table,
    blocking it and unblocking it again leaves every request blocked or
    not as it was before. *)
Theorem unblock_undoes_block (cn serviceName : option string) (now : Z)
    (s s' : Dispatcher PR) (cn' : option string) (serviceName' : string) :
  block cn serviceName now s = Ok s' ->
  match blockingTable s with
  | Some table =>
      get (orStr cn "*" ++ "~~" ++ orStr serviceName "*") table = None
  | None => True
  end ->
  isBlocked cn' serviceName' (unblock cn serviceName s')
  = isBlocked cn' serviceName' s.
Proof.
  intros Hb Hfresh. apply block_Ok in Hb. destruct Hb as [_ ->].
  unfold unblock, isBlocked. cbn [blockingTable set_blockingTable].
  set (key := orStr cn "*" ++ "~~" ++ orStr serviceName "*") in *.
  assert (D : del key (put key now match blockingTable s with
                                   | Some t => t | None => [] end)
              = match blockingTable s with Some t => t | None => [] end).
  { apply del_put_fresh. now destruct (blockingTable s). }
  rewrite D.
  destruct (blockingTable s) as [[|kv table]|]; reflexivity.
Qed.

(** *** The kill switches of the remote configuration *)

Import ApplicationClients.

Lemma splitTildes_nonempty (s cur : string) : splitTildes s cur <> [].
Proof.
  assert (H : forall n s cur, (String.length s <= n)%nat -> splitTildes s cur <> []).
  { induction n as [|n IH]; intros [|c s'] c0 Hl; simpl in *; try discriminate.
    - lia.
    - destruct s' as [|c' s'']; [discriminate|].
      destruct (Ascii.eqb c "~" && Ascii.eqb c' "~"); [discriminate|].
      apply IH. simpl in *. lia. }
  now apply (H (String.length s)).
Qed.

Lemma splitTildes_one (s cur x : string) :
  splitTildes s cur = [x] -> x = cur ++ s.
Proof.
  assert (H : forall n s cur x, (String.length s <= n)%nat ->
                splitTildes s cur = [x] -> x = cur ++ s).
  { induction n as [|n IH]; intros [|c s'] c0 y Hl; simpl in *; try lia.
    - intros [= <-]. now rewrite append_empty_r.
    - intros [= <-]. now rewrite append_empty_r.
    - destruct s' as [|c' s'']; [now intros [= <-]|].
      destruct (Ascii.eqb c "~" && Ascii.eqb c' "~").
      + intros [= _ E]. now apply splitTildes_nonempty in E.
      + intros E. apply IH in E; [|simpl in *; lia].
        rewrite E, append_assoc. reflexivity. }
  now apply (H (String.length s)).
Qed.

Lemma splitTildes_two (s cur a b : string) :
  splitTildes s cur = [a; b] -> cur ++ s = a ++ "~~" ++ b.
Proof.
  assert (H : forall n s cur, (String.length s <= n)%nat ->
                splitTildes s cur = [a; b] -> cur ++ s = a ++ "~~" ++ b).
  { induction n as [|n IH]; intros [|c s'] c0 Hl; simpl in *; try lia;
      try discriminate.
    destruct s' as [|c' s'']; [discriminate|].
    destruct (Ascii.eqb c "~" && Ascii.eqb c' "~") eqn:E.
    - apply Bool.andb_true_iff in E. destruct E as [E1 E2].
      apply Ascii.eqb_eq in E1, E2. subst c c'.
      intros [= -> E]. apply splitTildes_one in E. now subst b.
    - intros E'. apply IH in E'; [|simpl in *; lia].
      rewrite <- E', append_assoc. reflexivity. }
  now apply (H (String.length s)).
Qed.

(** The kill switches on which the assertion of [blockRemoteConfig]
    fails: both sides of the separator empty or the wildcard, and the
    value not the one the loop leaves out. *)
Definition failsAssertion (value : string) : bool :=
  String.eqb value "~~" || String.eqb value "*~~" || String.eqb value "~~*".

Lemma wildcard_cases (x : string) :
  orStr (Some x) "*" = "*" -> x = "" \/ x = "*".
Proof.
  simpl. destruct (String.eqb_spec x ""); [now left|now right].
Qed.

Ltac peel E :=
  repeat (simpl in E;
          match type of E with
          | String _ _ = String _ _ =>
              first [ let H := fresh in injection E as H E; try subst
                    | injection E as E ]
          end).

Lemma failsAssertion_edges (a b : string) :
  failsAssertion (a ++ "~~" ++ b) = true ->
  String.eqb (orStr (Some a) "*") "*" && String.eqb (orStr (Some b) "*") "*"
  = true.
Proof.
  unfold failsAssertion. rewrite !Bool.orb_true_iff, !String.eqb_eq.
  intros [[E|E]|E];
    destruct a as [|c1 [|c2 [|c3 [|c4 a]]]]; simpl in E; try discriminate E;
    peel E; try discriminate; subst; try reflexivity.
  all: destruct b as [|d1 [|d2 b]]; simpl in E; try discriminate E; peel E;
    try discriminate; subst; try reflexivity.
Qed.

Lemma failsAssertion_split (value a b : string) :
  splitTildes value "" = [a; b] ->
  failsAssertion value
  = negb (String.eqb value "*~~*")
    && (String.eqb (orStr (Some a) "*") "*" && String.eqb (orStr (Some b) "*") "*").
Proof.
  intros E. apply splitTildes_two in E.
  change (value = a ++ "~~" ++ b) in E. subst value.
  destruct (String.eqb (orStr (Some a) "*") "*"
            && String.eqb (orStr (Some b) "*") "*") eqn:W.
  - apply Bool.andb_true_iff in W. destruct W as [Ha Hb].
    apply String.eqb_eq in Ha, Hb. apply wildcard_cases in Ha, Hb.
    destruct Ha as [->| ->]; destruct Hb as [->| ->]; reflexivity.
  - rewrite Bool.andb_false_r.
    destruct (failsAssertion (a ++ "~~" ++ b)) eqn:F; [|reflexivity].
    apply failsAssertion_edges in F. congruence.
Qed.

Lemma failsAssertion_splits (value : string) :
  failsAssertion value = true ->
  exists a b, splitTildes value "" = [a; b].
Proof.
  unfold failsAssertion. rewrite !Bool.orb_true_iff, !String.eqb_eq.
  intros [[->| ->]| ->]; eexists _, _; reflexivity.
Qed.

Lemma blockRemoteConfig_result (a b : string) (now : Z) (s : Dispatcher PR) :
  blockRemoteConfig (Some a) (Some b) now s
  = let table := match blockingTableRemoteConfig s with
                 | Some table => table | None => [] end in
    if String.eqb (orStr (Some a) "*") "*" && String.eqb (orStr (Some b) "*") "*"
    then Throw "at least one of cn/serviceName should be provided"
           (set_blockingTableRemoteConfig (Some table) s)
    else Ok (set_blockingTableRemoteConfig
               (Some (put (orStr (Some a) "*" ++ "~~" ++ orStr (Some b) "*")
                        now table)) s).
Proof. reflexivity. Qed.

Lemma updateKillSwitches_loop_outcome (killSwitches : list string) (now : Z)
    (s : Dispatcher PR) :
  match updateKillSwitches_loop killSwitches now s with
  | Ok _ => existsb failsAssertion killSwitches = false
  | Throw _ _ => existsb failsAssertion killSwitches = true
  end.
Proof.
  revert s. induction killSwitches as [|value rest IH]; intros s;
    cbn [updateKillSwitches_loop existsb]; [reflexivity|].
  destruct (failsAssertion value) eqn:F; cbn [orb].
  - destruct (failsAssertion_splits value F) as (a & b & E).
    rewrite E. rewrite (failsAssertion_split value a b E) in F.
    apply Bool.andb_true_iff in F. destruct F as [F1 F2].
    rewrite F1, blockRemoteConfig_result. cbv zeta. now rewrite F2.
  - destruct (splitTildes value "") as [|a [|b [|c l]]] eqn:E; try apply IH.
    rewrite (failsAssertion_split value a b E) in F.
    destruct (negb (String.eqb value "*~~*")); [|apply IH].
    cbn [andb] in F. rewrite blockRemoteConfig_result. cbv zeta. rewrite F.
    apply IH.
Qed.

(** X7.  The kill switches that make [updateKillSwitches] throw.  The update
    leaves out the value [*~~*], and the assertion of [blockRemoteConfig]
    still fails, for the values [~~], [*~~] and [~~*]: the update throws
    exactly when one of them is among the kill switches. *)
Theorem updateKillSwitches_throws_on_empty_edge (killSwitches : list string)
    (now : Z) (s : Dispatcher PR) :
  match updateKillSwitches killSwitches now s with
  | Ok _ => existsb failsAssertion killSwitches = false
  | Throw _ _ => existsb failsAssertion killSwitches = true
  end.
Proof. apply updateKillSwitches_loop_outcome. Qed.

Lemma updateKillSwitches_loop_mono (killSwitches : list string) (now : Z)
    (s s' : Dispatcher PR) (c v : string) :
  now <> 0 ->
  updateKillSwitches_loop killSwitches now s = Ok s' ->
  tableBlocks (blockingTableRemoteConfig s) c v = true ->
  tableBlocks (blockingTableRemoteConfig s') c v = true.
Proof.
  intros Hn. revert s. induction killSwitches as [|value rest IH]; intros s;
    cbn [updateKillSwitches_loop]; [now intros [= ->]|].
  destruct (splitTildes value "") as [|a [|b [|x l]]]; try apply IH.
  destruct (negb (String.eqb value "*~~*")); [|apply IH].
  rewrite blockRemoteConfig_result. cbv zeta.
  destruct (_ && _); [discriminate|].
  intros Hl Hb. apply (IH _ Hl).
  cbn [blockingTableRemoteConfig set_blockingTableRemoteConfig].
  destruct (blockingTableRemoteConfig s) as [table|]; [|discriminate].
  now apply tableBlocks_put_mono.
Qed.

(** X8.  A kill switch blocks its edge.  After an update that went through,
    at a time other than 0, every request that a kill switch [cn~~service]
    of the list covers is blocked, with an empty side or [*] covering
    every name. *)
Theorem updateKillSwitches_blocks_edges (killSwitches : list string)
    (now : Z) (s s' : Dispatcher PR) (value edge0 edge1 : string)
    (cn' : option string) (serviceName' : string) :
  now <> 0 ->
  updateKillSwitches killSwitches now s = Ok s' ->
  In value killSwitches ->
  splitTildes value "" = [edge0; edge1] ->
  value <> "*~~*" ->
  covers (Some edge0) cn' = true ->
  covers (Some edge1) (Some serviceName') = true ->
  isBlocked cn' serviceName' s' = true.
Proof.
  intros Hn Hu Hin Hsplit Hne Hc Hv.
  unfold isBlocked. apply Bool.orb_true_iff. right.
  unfold updateKillSwitches in Hu.
  revert Hu. generalize (unblockAllRemoteConfig s). clear s.
  induction killSwitches as [|value0 rest IH]; intros s;
    cbn [updateKillSwitches_loop]; [contradiction|].
  destruct Hin as [->|Hin].
  - rewrite Hsplit.
    destruct (String.eqb_spec value "*~~*") as [|_]; [contradiction|].
    cbn [negb]. rewrite blockRemoteConfig_result. cbv zeta.
    destruct (String.eqb (orStr (Some edge0) "*") "*"
              && String.eqb (orStr (Some edge1) "*") "*") eqn:W; [discriminate|].
    intros Hl. apply (updateKillSwitches_loop_mono _ _ _ _ _ _ Hn Hl).
    cbn [blockingTableRemoteConfig set_blockingTableRemoteConfig].
    apply covers_cases in Hc, Hv.
    apply tableBlocks_put; auto.
    intros E0 E1. rewrite E0, E1 in W. discriminate.
  - destruct (splitTildes value0 "") as [|a [|b [|x l]]]; try now apply IH.
    destruct (negb (String.eqb value0 "*~~*")); [|now apply IH].
    destruct (blockRemoteConfig (Some a) (Some b) now s); [|discriminate].
    now apply IH.
Qed.

Lemma updateKillSwitches_loop_tables (killSwitches : list string) (now : Z)
    (s1 s2 : Dispatcher PR) :
  blockingTableRemoteConfig s1 = blockingTableRemoteConfig s2 ->
  blockingTableRemoteConfig (stateOf (updateKillSwitches_loop killSwitches now s1))
  = blockingTableRemoteConfig (stateOf (updateKillSwitches_loop killSwitches now s2))
  /\ blockingTable (stateOf (updateKillSwitches_loop killSwitches now s1))
     = blockingTable s1.
Proof.
  revert s1 s2. induction killSwitches as [|value rest IH]; intros s1 s2 E;
    cbn [updateKillSwitches_loop]; [now split|].
  destruct (splitTildes value "") as [|a [|b [|x l]]]; try now apply IH.
  destruct (negb (String.eqb value "*~~*")); [|now apply IH].
  rewrite !blockRemoteConfig_result. cbv zeta. rewrite E.
  destruct (_ && _).
  - now split.
  - apply (IH (set_blockingTableRemoteConfig _ s1)
              (set_blockingTableRemoteConfig _ s2)).
    reflexivity.
Qed.

(** X9.  The update rebuilds the remote table from the kill switches alone.
    What the table held before does not matter, so a kill switch that is
    no longer listed is lifted; and the blocks set by [block] stay. *)
Theorem updateKillSwitches_rebuilds_remote_table (killSwitches : list string)
    (now : Z) (s1 s2 : Dispatcher PR) :
  blockingTableRemoteConfig (stateOf (updateKillSwitches killSwitches now s1))
  = blockingTableRemoteConfig (stateOf (updateKillSwitches killSwitches now s2))
  /\ blockingTable (stateOf (updateKillSwitches killSwitches now s1))
     = blockingTable s1.
Proof.
  unfold updateKillSwitches.
  apply (updateKillSwitches_loop_tables killSwitches now
           (unblockAllRemoteConfig s1) (unblockAllRemoteConfig s2)).
  reflexivity.
Qed.

End BlockFacts.

Lemma block_blocks_witness :
  ServiceProxy.isBlocked (Some "alice") "steve"
    (ServiceProxy.stateOf
       (ServiceProxy.block None (Some "steve") 1 Scenario.router)) = true.
Proof.
  apply (block_blocks None (Some "steve") 1 Scenario.router _ (Some "alice") "steve").
  - lia.
  - reflexivity.
  - reflexivity.
  - reflexivity.
Defined.

Lemma block_keeps_blocked_witness :
  let s := ServiceProxy.stateOf
             (ServiceProxy.block (Some "alice") (Some "steve") 1 Scenario.router) in
  ServiceProxy.isBlocked (Some "alice") "steve"
    (ServiceProxy.stateOf (ServiceProxy.block (Some "bob") None 2 s)) = true.
Proof.
  intros s.
  apply (block_keeps_blocked (Some "bob") None 2 s _ (Some "alice") "steve").
  - lia.
  - reflexivity.
  - reflexivity.
Defined.

Lemma unblock_undoes_block_witness :
  let s := ServiceProxy.stateOf
             (ServiceProxy.block (Some "alice") (Some "steve") 1 Scenario.router) in
  ServiceProxy.isBlocked (Some "bob") "steve"
    (ServiceProxy.unblock (Some "bob") None
       (ServiceProxy.stateOf (ServiceProxy.block (Some "bob") None 2 s)))
  = ServiceProxy.isBlocked (Some "bob") "steve" s.
Proof.
  intros s.
  apply (unblock_undoes_block (Some "bob") None 2 s _ (Some "bob") "steve");
    reflexivity.
Defined.

Lemma updateKillSwitches_blocks_edges_witness :
  ServiceProxy.isBlocked (Some "alice") "steve"
    (ServiceProxy.stateOf
       (ApplicationClients.updateKillSwitches ["bob"; "*~~*"; "~~steve"] 1
          Scenario.router)) = true.
Proof.
  apply (updateKillSwitches_blocks_edges ["bob"; "*~~*"; "~~steve"] 1
           Scenario.router _ "~~steve" "" "steve" (Some "alice") "steve").
  - lia.
  - reflexivity.
  - simpl. tauto.
  - reflexivity.
  - discriminate.
  - reflexivity.
  - reflexivity.
Defined.

(** ** The two-level indexes *)

Section IndexFacts.
Import ServiceProxy.

(** [index[keya] && index[keya][keyb]], as the code reads an entry of a
    two-level index; [None] is [undefined]. *)
Definition indexEntry (index : obj (obj Z)) (keya keyb : string) : option Z :=
  match get keya index with
  | Some level => get keyb level
  | None => None
  end.

Lemma addIndexEntry_cell (index : obj (obj Z)) (keya keyb : string)
    (value : Z) (keya' keyb' : string) :
  indexEntry (addIndexEntry index keya keyb value) keya' keyb'
  = if String.eqb keya' keya && String.eqb keyb' keyb then Some value
    else indexEntry index keya' keyb'.
Proof.
  unfold indexEntry, addIndexEntry. rewrite get_put.
  destruct (String.eqb_spec keya' keya) as [->|]; cbn [andb]; [|reflexivity].
  rewrite get_put. destruct (String.eqb keyb' keyb); [reflexivity|].
  now destruct (get keya index).
Qed.

Lemma get_del_empty {V : Type} (k k' : string) (o : obj V) :
  del k o = [] -> k' <> k -> get k' o = None.
Proof.
  intros E Hne. rewrite <- (get_del_other k' k o Hne). now rewrite E.
Qed.

Lemma deleteIndexEntry_cell (index : obj (obj Z)) (keya keyb : string)
    (keya' keyb' : string) :
  indexEntry (deleteIndexEntry index keya keyb) keya' keyb'
  = if String.eqb keya' keya && String.eqb keyb' keyb then
      match indexEntry index keya keyb with
      | Some value => if truthy value then None else Some value
      | None => None
      end
    else indexEntry index keya' keyb'.
Proof.
  unfold deleteIndexEntry.
  destruct (get keya index) as [level|] eqn:Ga.
  - destruct (get keyb level) as [value|] eqn:Gb.
    + destruct (truthy value) eqn:T.
      * destruct (del keyb level) as [|kv level'] eqn:D; cbn [isObjectEmpty].
        -- unfold indexEntry at 1. rewrite get_del.
           destruct (String.eqb_spec keya' keya) as [->|]; cbn [andb].
           ++ unfold indexEntry. rewrite Ga, Gb, T.
              destruct (String.eqb_spec keyb' keyb) as [->|Hne]; [reflexivity|].
              symmetry. now apply (get_del_empty keyb).
           ++ reflexivity.
        -- unfold indexEntry at 1. rewrite get_put.
           destruct (String.eqb_spec keya' keya) as [->|]; cbn [andb].
           ++ unfold indexEntry. rewrite Ga, Gb, T, <- D, get_del.
              now destruct (String.eqb keyb' keyb).
           ++ reflexivity.
      * unfold indexEntry at 2. rewrite Ga, Gb, T.
        destruct (String.eqb_spec keya' keya) as [->|]; cbn [andb]; [|reflexivity].
        destruct (String.eqb_spec keyb' keyb) as [->|]; [|reflexivity].
        unfold indexEntry. now rewrite Ga.
    + unfold indexEntry at 2. rewrite Ga, Gb.
      destruct (String.eqb_spec keya' keya) as [->|]; cbn [andb]; [|reflexivity].
      destruct (String.eqb_spec keyb' keyb) as [->|]; [|reflexivity].
      unfold indexEntry. now rewrite Ga.
  - unfold indexEntry at 2. rewrite Ga.
    destruct (String.eqb_spec keya' keya) as [->|]; cbn [andb]; [|reflexivity].
    destruct (String.eqb_spec keyb' keyb) as [->|]; [|reflexivity].
    unfold indexEntry. now rewrite Ga.
Qed.

(** X10.  The entries of a two-level index.  [addIndexEntry] sets the
    entry of its two keys and no other; [deleteIndexEntry] removes the
    entry of its two keys when the stamp there is truthy, and no other; an
    entry with the stamp 0 stays. *)
Theorem index_entry_laws (index : obj (obj Z)) (keya keyb : string)
    (value : Z) (keya' keyb' : string) :
  indexEntry (addIndexEntry index keya keyb value) keya' keyb'
  = (if String.eqb keya' keya && String.eqb keyb' keyb then Some value
     else indexEntry index keya' keyb')
  /\ indexEntry (deleteIndexEntry index keya keyb) keya' keyb'
     = (if String.eqb keya' keya && String.eqb keyb' keyb then
          match indexEntry index keya keyb with
          | Some value => if truthy value then None else Some value
          | None => None
          end
        else indexEntry index keya' keyb').
Proof. split; [apply addIndexEntry_cell|apply deleteIndexEntry_cell]. Qed.

(** No level of the index is an empty object. *)
Definition noEmptyLevel (index : obj (obj Z)) : bool :=
  forallb (fun kv => negb (isObjectEmpty (snd kv))) index.

Lemma noEmptyLevel_put (index : obj (obj Z)) (k : string) (level : obj Z) :
  noEmptyLevel index = true -> isObjectEmpty level = false ->
  noEmptyLevel (put k level index) = true.
Proof.
  intros H L. induction index as [|[k0 l0] index IH]; simpl in *.
  - now rewrite L.
  - apply Bool.andb_true_iff in H. destruct H as [H0 H].
    destruct (String.eqb k k0); simpl.
    + now rewrite L, H.
    + now rewrite H0, IH.
Qed.

Lemma noEmptyLevel_del (index : obj (obj Z)) (k : string) :
  noEmptyLevel index = true -> noEmptyLevel (del k index) = true.
Proof.
  intros H. induction index as [|[k0 l0] index IH]; simpl in *; [reflexivity|].
  apply Bool.andb_true_iff in H. destruct H as [H0 H].
  destruct (negb (String.eqb k k0)); simpl; [now rewrite H0, IH|now apply IH].
Qed.

Lemma put_not_empty {V : Type} (k : string) (v : V) (o : obj V) :
  isObjectEmpty (put k v o) = false.
Proof. destruct o as [|[k0 v0] o]; simpl; [reflexivity|]. now destruct (String.eqb k k0). Qed.

(** X11.  The index never holds an empty level.  [deleteIndexEntry] drops a
    level with its last entry and [addIndexEntry] fills the level it
    makes, so the test [isObjectEmpty(level)] only ever sees a level that
    has an entry. *)
Theorem index_keeps_no_empty_level (index : obj (obj Z)) (keya keyb : string)
    (value : Z) :
  noEmptyLevel index = true ->
  noEmptyLevel (addIndexEntry index keya keyb value) = true
  /\ noEmptyLevel (deleteIndexEntry index keya keyb) = true.
Proof.
  intros H. split.
  - unfold addIndexEntry. apply noEmptyLevel_put; [exact H|apply put_not_empty].
  - unfold deleteIndexEntry.
    destruct (get keya index) as [level|]; [|exact H].
    destruct (get keyb level) as [v|]; [|exact H].
    destruct (truthy v); [|exact H].
    destruct (isObjectEmpty (del keyb level)) eqn:E.
    + now apply noEmptyLevel_del.
    + now apply noEmptyLevel_put.
Qed.

End IndexFacts.

Lemma index_keeps_no_empty_level_witness :
  noEmptyLevel (ServiceProxy.addIndexEntry [] "127.0.0.1:4040" "steve" 1000) = true
  /\ noEmptyLevel
       (ServiceProxy.deleteIndexEntry
          (ServiceProxy.addIndexEntry [] "127.0.0.1:4040" "steve" 1000)
          "127.0.0.1:4040" "steve") = true.
Proof.
  split.
  - apply (index_keeps_no_empty_level [] "127.0.0.1:4040" "steve" 1000).
    reflexivity.
  - apply (index_keeps_no_empty_level
             (ServiceProxy.addIndexEntry [] "127.0.0.1:4040" "steve" 1000)
             "127.0.0.1:4040" "steve" 0).
    reflexivity.
Defined.

(** ** The peer pruner, and the switch of the circuits *)

Section DispatcherFacts.
Context {PR : Type} {prOps : PartialRange.Ops PR}.
Import ServiceProxy.

(** *** Mutations of one peer, of one sub-channel *)

Lemma set_peers_same (s : Dispatcher PR) : set_peers (peers s) s = s.
Proof. now destruct s. Qed.

Lemma set_subChannels_same (s : Dispatcher PR) :
  set_subChannels (subChannels s) s = s.
Proof. now destruct s. Qed.

Lemma set_peersToPrune_same (s : Dispatcher PR) :
  set_peersToPrune (peersToPrune s) s = s.
Proof. now destruct s. Qed.

Lemma withPeer_set (hostPort : string) (f : Peer -> Peer) (s : Dispatcher PR) :
  withPeer hostPort f s
  = set_peers match get hostPort (peers s) with
              | Some p => put hostPort (f p) (peers s)
              | None => peers s
              end s.
Proof.
  unfold withPeer. destruct (get hostPort (peers s)); [reflexivity|].
  now rewrite set_peers_same.
Qed.

Lemma withChannel_set (name : string) (f : SubChannel -> SubChannel)
    (s : Dispatcher PR) :
  withChannel name f s
  = set_subChannels match get name (subChannels s) with
                    | Some c => put name (f c) (subChannels s)
                    | None => subChannels s
                    end s.
Proof.
  unfold withChannel. destruct (get name (subChannels s)); [reflexivity|].
  now rewrite set_subChannels_same.
Qed.

Lemma withPeer_get (hostPort : string) (f : Peer -> Peer) (s : Dispatcher PR)
    (k : string) :
  get k (peers (withPeer hostPort f s))
  = if String.eqb k hostPort then option_map f (get hostPort (peers s))
    else get k (peers s).
Proof.
  rewrite withPeer_set. cbn [peers set_peers].
  destruct (get hostPort (peers s)) as [p|] eqn:G.
  - rewrite get_put. now destruct (String.eqb k hostPort).
  - destruct (String.eqb_spec k hostPort) as [->|]; [now rewrite G|reflexivity].
Qed.

Lemma withChannel_get (name : string) (f : SubChannel -> SubChannel)
    (s : Dispatcher PR) (k : string) :
  get k (subChannels (withChannel name f s))
  = if String.eqb k name then option_map f (get name (subChannels s))
    else get k (subChannels s).
Proof.
  rewrite withChannel_set. cbn [subChannels set_subChannels].
  destruct (get name (subChannels s)) as [c|] eqn:G.
  - rewrite get_put. now destruct (String.eqb k name).
  - destruct (String.eqb_spec k name) as [->|]; [now rewrite G|reflexivity].
Qed.

Lemma peersOf_withChannel (name : string) (f : SubChannel -> SubChannel)
    (s : Dispatcher PR) (k : string) :
  peersOf k (withChannel name f s)
  = if String.eqb k name
    then match get name (subChannels s) with
         | Some c => chanPeers (f c)
         | None => []
         end
    else peersOf k s.
Proof.
  unfold peersOf. rewrite withChannel_get.
  destruct (String.eqb k name); [|reflexivity].
  now destruct (get name (subChannels s)).
Qed.

(** *** The prune drain *)

Lemma prune_drain_done_state (hostPort : string) (pruneInfo : PruneInfo)
    (s : Dispatcher PR) (p : Peer) :
  get hostPort (peers s) = Some p ->
  draining p = None ->
  get hostPort (peers (pruneSinglePeer hostPort pruneInfo s))
  = Some (set_draining
            (Some {| goal := DRAIN_GOAL_CLOSE_DRAINED;
                     reason := "peer pruned because " ++ pruneReason pruneInfo;
                     direction := DirOut;
                     timeout := drainTimeout s;
                     callback := thenResetPeer |}) p)
  /\ drainDone hostPort (pruneSinglePeer hostPort pruneInfo s) = s.
Proof.
  intros G D. unfold pruneSinglePeer. rewrite G, D.
  unfold drain. split.
  - rewrite withPeer_get, String.eqb_refl, G. reflexivity.
  - unfold drainDone. rewrite withPeer_get, String.eqb_refl, G.
    cbn [option_map draining set_draining callback].
    unfold clearDrain. rewrite !withPeer_set. cbn [peers set_peers].
    rewrite G, get_put_same, put_put_same.
    assert (E : set_draining None (set_draining (Some {|
                  goal := DRAIN_GOAL_CLOSE_DRAINED;
                  reason := "peer pruned because " ++ pruneReason pruneInfo;
                  direction := DirOut;
                  timeout := drainTimeout s;
                  callback := thenResetPeer |}) p) = p).
    { destruct p. cbn in *. now subst. }
    rewrite E, (put_get_same _ _ _ G).
    destruct s; reflexivity.
Qed.

(** X12.  A pruned peer is drained, not deleted.  [pruneSinglePeer] on a
    peer that is not draining starts a drain with the goal close-drained,
    the direction out and the drain timeout of the dispatcher; when the
    drain is done its callback clears the drain and deletes nothing: the
    peer is still in the peer table, no longer draining, and the
    sub-channels are as they were before the prune. *)
Theorem prune_drain_done_restores (hostPort : string) (pruneInfo : PruneInfo)
    (s : Dispatcher PR) (p : Peer) :
  get hostPort (peers s) = Some p ->
  draining p = None ->
  let pruning := pruneSinglePeer hostPort pruneInfo s in
  let done := drainDone hostPort pruning in
  option_map draining (get hostPort (peers pruning))
  = Some (Some {| goal := DRAIN_GOAL_CLOSE_DRAINED;
                  reason := "peer pruned because " ++ pruneReason pruneInfo;
                  direction := DirOut;
                  timeout := drainTimeout s;
                  callback := thenResetPeer |})
  /\ option_map draining (get hostPort (peers done)) = Some None
  /\ keys (peers done) = keys (peers s)
  /\ subChannels pruning = subChannels s
  /\ subChannels done = subChannels s.
Proof.
  intros G D pruning done.
  destruct (prune_drain_done_state hostPort pruneInfo s p G D) as [A B].
  fold pruning in A, B. fold done in B.
  split; [now rewrite A|]. rewrite B, G. cbn [option_map]. rewrite D.
  repeat split.
  unfold pruning, pruneSinglePeer. rewrite G, D. unfold drain.
  now rewrite withPeer_set.
Qed.

(** *** A tick of the peer pruner *)

(** The peer of [hostPort] after the pruner has seen it with [pruneInfo]. *)
Definition pruned (timeout : Z) (info : option PruneInfo) (peer : option Peer)
    : option Peer :=
  match info, peer with
  | Some info, Some p =>
      match draining p with
      | Some _ => Some p
      | None =>
          Some (set_draining
                  (Some {| goal := DRAIN_GOAL_CLOSE_DRAINED;
                           reason := "peer pruned because " ++ pruneReason info;
                           direction := DirOut;
                           timeout := timeout;
                           callback := thenResetPeer |}) p)
      end
  | _, _ => peer
  end.

Lemma pruneSinglePeer_set (hostPort : string) (info : PruneInfo) (s : Dispatcher PR) :
  pruneSinglePeer hostPort info s
  = set_peers (peers (pruneSinglePeer hostPort info s)) s.
Proof.
  unfold pruneSinglePeer.
  destruct (get hostPort (peers s)) as [p|]; [|now rewrite set_peers_same].
  destruct (draining p); [now rewrite set_peers_same|].
  unfold drain. now rewrite withPeer_set.
Qed.

Lemma pruneSinglePeer_get (hostPort : string) (info : PruneInfo) (s : Dispatcher PR)
    (k : string) :
  get k (peers (pruneSinglePeer hostPort info s))
  = if String.eqb k hostPort
    then pruned (drainTimeout s) (Some info) (get hostPort (peers s))
    else get k (peers s).
Proof.
  unfold pruneSinglePeer, pruned.
  destruct (get hostPort (peers s)) as [p|] eqn:G.
  - destruct (draining p) eqn:D.
    + destruct (String.eqb_spec k hostPort) as [->|]; [exact G|reflexivity].
    + unfold drain. rewrite withPeer_get, G. reflexivity.
  - destruct (String.eqb_spec k hostPort) as [->|]; [exact G|reflexivity].
Qed.

Lemma scan_prune (collection : obj PruneInfo) (s : Dispatcher PR) :
  exists s',
    scanEach (fun hostPort pruneInfo s0 => Ok (pruneSinglePeer hostPort pruneInfo s0))
      collection s = Ok s'
    /\ s' = set_peers (peers s') s
    /\ forall k, get k (peers s')
                 = pruned (drainTimeout s) (get k collection) (get k (peers s)).
Proof.
  revert s. induction collection as [|[hostPort info] collection IH]; intros s.
  - exists s. split; [reflexivity|]. split; [now rewrite set_peers_same|].
    intros k. cbn [get pruned]. reflexivity.
  - cbn [scanEach].
    destruct (IH (pruneSinglePeer hostPort info s)) as (s' & Hrun & Hset & Hget).
    exists s'. split; [exact Hrun|]. split.
    + rewrite Hset at 1. rewrite (pruneSinglePeer_set hostPort info s).
      reflexivity.
    + intros k. rewrite Hget, pruneSinglePeer_get.
      replace (drainTimeout (pruneSinglePeer hostPort info s))
        with (drainTimeout s)
        by (rewrite (pruneSinglePeer_set hostPort info s); reflexivity).
      cbn [get]. destruct (String.eqb_spec k hostPort) as [->|]; [|reflexivity].
      unfold pruned.
      destruct (get hostPort (peers s)) as [p|];
        [|now destruct (get hostPort collection)].
      destruct (draining p) eqn:D.
      * rewrite D. now destruct (get hostPort collection).
      * cbn [draining set_draining]. now destruct (get hostPort collection).
Qed.

Lemma peerPruner_run_result (s : Dispatcher PR) :
  exists s',
    peerPruner_run s = Ok s'
    /\ s' = set_peers (peers s') (set_peersToPrune [] s)
    /\ forall hostPort,
         get hostPort (peers s')
         = pruned (drainTimeout s) (get hostPort (peersToPrune s))
             (get hostPort (peers s)).
Proof.
  unfold peerPruner_run, getPeersToPrune.
  destruct (scan_prune (peersToPrune s) (set_peersToPrune [] s))
    as (s' & Hrun & Hset & Hget).
  exists s'. split; [exact Hrun|]. split; [exact Hset|exact Hget].
Qed.

(** X13.  A tick of the peer pruner.  The tick never throws; it empties
    [peersToPrune]; every listed peer that is in the peer table and not
    draining starts the prune drain (close when drained, direction out,
    the drain timeout of the dispatcher), a peer that is draining keeps
    its drain, and no other peer and no other field changes: no peer
    leaves the peer table or a sub-channel.  The tick after it finds
    nothing to do. *)
Theorem peerPruner_run_drains_listed_peers (s : Dispatcher PR) :
  exists s',
    peerPruner_run s = Ok s'
    /\ s' = set_peers (peers s') (set_peersToPrune [] s)
    /\ (forall hostPort,
          get hostPort (peers s')
          = pruned (drainTimeout s) (get hostPort (peersToPrune s))
              (get hostPort (peers s)))
    /\ peerPruner_run s' = Ok s'.
Proof.
  destruct (peerPruner_run_result s) as (s' & Hrun & Hset & Hget).
  exists s'. split; [exact Hrun|]. split; [exact Hset|]. split; [exact Hget|].
  assert (E : peersToPrune s' = []) by (rewrite Hset; reflexivity).
  unfold peerPruner_run, getPeersToPrune. rewrite E. cbn [scanEach].
  rewrite <- E. now rewrite set_peersToPrune_same.
Qed.

(** *** Circuits on and off *)

Definition armed (b : bool) (c : SubChannel) : SubChannel :=
  match serviceProxyMode c with
  | Some exit => if handlerIsRelay c then set_handlerCircuits b c else c
  | _ => c
  end.

Lemma enableCircuits_set (s : Dispatcher PR) :
  enableCircuits s
  = if circuitsEnabled s then s
    else
      set_subChannels
        (map (fun kc => (fst kc, armed true (snd kc))) (subChannels s))
        (set_circuits
           (Some match circuits s with Some r => r | None => [] end)
           (set_circuitsEnabled true s)).
Proof.
  unfold enableCircuits. destruct (circuitsEnabled s); [reflexivity|].
  destruct (circuits s) as [r|] eqn:C.
  - cbn [circuits set_circuitsEnabled subChannels]. rewrite C.
    destruct s; cbn in *; subst; reflexivity.
  - cbn [circuits set_circuitsEnabled subChannels]. rewrite C.
    reflexivity.
Qed.

Lemma disableCircuits_set (s : Dispatcher PR) :
  disableCircuits s
  = if circuitsEnabled s
    then set_subChannels
           (map (fun kc => (fst kc, armed false (snd kc))) (subChannels s))
           (set_circuitsEnabled false s)
    else s.
Proof. unfold disableCircuits. now destruct (circuitsEnabled s). Qed.

Lemma armed_armed (b b' : bool) (c : SubChannel) :
  armed b (armed b' c) = armed b c.
Proof.
  unfold armed. destruct (serviceProxyMode c) as [[|]|] eqn:M; cbn; rewrite ?M;
    try reflexivity.
  destruct (handlerIsRelay c) eqn:R; cbn; rewrite ?M, ?R; reflexivity.
Qed.

Lemma get_map_values {V W : Type} (g : V -> W) (o : obj V) (k : string) :
  get k (map (fun kv => (fst kv, g (snd kv))) o) = option_map g (get k o).
Proof.
  induction o as [|[k0 v0] o IH]; simpl; [reflexivity|].
  now destruct (String.eqb k k0).
Qed.

Lemma armed_spec (b : bool) (c : SubChannel) :
  serviceProxyMode (armed b c) = serviceProxyMode c
  /\ handlerIsRelay (armed b c) = handlerIsRelay c
  /\ (serviceProxyMode c = Some exit -> handlerIsRelay c = true ->
      handlerCircuits (armed b c) = b).
Proof.
  unfold armed. destruct (serviceProxyMode c) as [[|]|] eqn:M;
    destruct (handlerIsRelay c) eqn:R; cbn; rewrite ?M, ?R;
    repeat split; congruence.
Qed.

(** X14.  Switching the circuits on, off and on again.  On a dispatcher
    whose circuits are off, [enableCircuits] hands the registry to every
    exit channel with a relay handler and [disableCircuits] takes it from
    them; [disableCircuits] keeps the registry itself, so enabling again
    gives the state of the first [enableCircuits], with the circuits and
    their health as they were. *)
Theorem circuits_off_and_on_again (s : Dispatcher PR) :
  circuitsEnabled s = false ->
  let on := enableCircuits s in
  let off := disableCircuits on in
  (forall name c, get name (subChannels on) = Some c ->
     serviceProxyMode c = Some exit -> handlerIsRelay c = true ->
     handlerCircuits c = true)
  /\ (forall name c, get name (subChannels off) = Some c ->
       serviceProxyMode c = Some exit -> handlerIsRelay c = true ->
       handlerCircuits c = false)
  /\ circuits off = circuits on
  /\ enableCircuits off = on.
Proof.
  intros E on off.
  assert (Hon : on = set_subChannels
                       (map (fun kc => (fst kc, armed true (snd kc)))
                          (subChannels s))
                       (set_circuits
                          (Some match circuits s with Some r => r | None => [] end)
                          (set_circuitsEnabled true s))).
  { unfold on. now rewrite enableCircuits_set, E. }
  assert (Hoff : off = set_subChannels
                         (map (fun kc => (fst kc, armed false (snd kc)))
                            (subChannels on))
                         (set_circuitsEnabled false on)).
  { unfold off. rewrite disableCircuits_set. now rewrite Hon at 1. }
  split; [|split; [|split]].
  - intros name c G M R. rewrite Hon in G. cbn [subChannels set_subChannels] in G.
    rewrite get_map_values in G.
    destruct (get name (subChannels s)) as [c0|]; [|discriminate].
    injection G as <-. destruct (armed_spec true c0) as (M0 & R0 & A).
    apply A; congruence.
  - intros name c G M R. rewrite Hoff in G. cbn [subChannels set_subChannels] in G.
    rewrite get_map_values in G.
    destruct (get name (subChannels on)) as [c0|]; [|discriminate].
    injection G as <-. destruct (armed_spec false c0) as (M0 & R0 & A).
    apply A; congruence.
  - rewrite Hoff. reflexivity.
  - rewrite enableCircuits_set, Hoff.
    cbn [circuitsEnabled set_subChannels set_circuitsEnabled circuits subChannels].
    rewrite Hon.
    cbn [circuitsEnabled set_subChannels set_circuitsEnabled circuits subChannels
         set_circuits].
    rewrite !map_map. cbn [fst snd].
    rewrite (map_ext _ (fun kc => (fst kc, armed true (snd kc))))
      by (intros [k c]; cbn [fst snd]; now rewrite !armed_armed).
    clear. destruct s; reflexivity.
Qed.

End DispatcherFacts.

(** The prune drain of the advertised worker, and its end. *)
Lemma prune_drain_done_restores_witness :
  let pruneInfo := {| ServiceProxy.lastRefresh := 1000;
                      ServiceProxy.pruneReason := "no services" |} in
  let pruning :=
    ServiceProxy.pruneSinglePeer Scenario.worker pruneInfo Scenario.advertised in
  let done := ServiceProxy.drainDone Scenario.worker pruning in
  option_map draining (get Scenario.worker (ServiceProxy.peers pruning))
  = Some (Some {| goal := DRAIN_GOAL_CLOSE_DRAINED;
                  reason := "peer pruned because no services";
                  direction := DirOut;
                  timeout := 30000;
                  callback := thenResetPeer |})
  /\ option_map draining (get Scenario.worker (ServiceProxy.peers done))
     = Some None
  /\ keys (ServiceProxy.peers done) = [Scenario.worker]
  /\ ServiceProxy.peersOf "steve" done = [Scenario.worker].
Proof.
  intros pruneInfo pruning done.
  destruct (prune_drain_done_restores Scenario.worker pruneInfo
              Scenario.advertised
              {| draining := None; connectedOut := true;
                 serviceProxyServices := ["steve"] |}) as (A & B & C & _ & E).
  - vm_compute. reflexivity.
  - reflexivity.
  - split; [exact A|]. split; [exact B|]. split; [exact C|].
    unfold ServiceProxy.peersOf. fold pruning done in E. rewrite E.
    vm_compute. reflexivity.
Defined.

Lemma circuits_off_and_on_again_witness :
  let on := ServiceProxy.enableCircuits Scenario.advertised in
  let off := ServiceProxy.disableCircuits on in
  option_map handlerCircuits (get "steve" (ServiceProxy.subChannels on))
  = Some true
  /\ option_map handlerCircuits (get "steve" (ServiceProxy.subChannels off))
     = Some false
  /\ ServiceProxy.enableCircuits off = on.
Proof.
  intros on off.
  destruct (circuits_off_and_on_again Scenario.advertised) as (A & B & _ & C).
  - reflexivity.
  - split; [reflexivity|]. split; [reflexivity|exact C].
Defined.

(** ** The service channels *)

Section ChannelFacts.
Context {PR : Type} {prOps : PartialRange.Ops PR}.
Import ServiceProxy.

(** *** Lists of host-ports *)

Lemma mem_app (h x : string) (l : list string) :
  mem h (l ++ [x]) = mem h l || String.eqb h x.
Proof. unfold mem. rewrite existsb_app. simpl. now rewrite Bool.orb_false_r. Qed.

Lemma mem_insertSorted (h x : string) (l : list string) :
  mem h (insertSorted x l) = String.eqb h x || mem h l.
Proof.
  unfold mem. induction l as [|a l IH]; simpl; [reflexivity|].
  destruct (String.leb x a); simpl; [reflexivity|].
  rewrite IH. destruct (String.eqb h a), (String.eqb h x); reflexivity.
Qed.

Lemma mem_sort (h : string) (l : list string) : mem h (sort l) = mem h l.
Proof.
  induction l as [|a l IH]; [reflexivity|].
  change (sort (a :: l)) with (insertSorted a (sort l)).
  rewrite mem_insertSorted, IH. reflexivity.
Qed.

Lemma mem_remove (h x : string) (l : list string) :
  mem h (remove x l) = negb (String.eqb h x) && mem h l.
Proof.
  unfold mem, remove. induction l as [|a l IH]; simpl;
    [now rewrite Bool.andb_false_r|].
  destruct (String.eqb_spec x a) as [->|Hne]; simpl.
  - rewrite IH. destruct (String.eqb h a); reflexivity.
  - rewrite IH.
    destruct (String.eqb_spec h a) as [->|]; simpl; [|reflexivity].
    destruct (String.eqb_spec a x) as [->|]; [contradiction|reflexivity].
Qed.

Lemma mem_In (h : string) (l : list string) : mem h l = true <-> In h l.
Proof.
  unfold mem. rewrite existsb_exists. split.
  - intros (x & Hx & E). apply String.eqb_eq in E. now subst.
  - intros H. exists h. split; [exact H|apply String.eqb_refl].
Qed.

(** *** Steps that touch the sub-channels and the peer table only *)

Definition touchesChannels (s s' : Dispatcher PR) : Prop :=
  s' = set_peers (peers s')
         (set_subChannels (subChannels s') (set_relaysFor (relaysFor s') s)).

Lemma touchesChannels_refl (s : Dispatcher PR) : touchesChannels s s.
Proof. unfold touchesChannels. now destruct s. Qed.

Lemma touchesChannels_trans (s1 s2 s3 : Dispatcher PR) :
  touchesChannels s1 s2 -> touchesChannels s2 s3 -> touchesChannels s1 s3.
Proof.
  unfold touchesChannels. intros H1 H2.
  etransitivity; [exact H2|]. rewrite H1. now destruct s1.
Qed.

Lemma touchesChannels_set_peers (v : obj Peer) (s : Dispatcher PR) :
  touchesChannels s (set_peers v s).
Proof. unfold touchesChannels. now destruct s. Qed.

Lemma touchesChannels_set_subChannels (v : obj SubChannel) (s : Dispatcher PR) :
  touchesChannels s (set_subChannels v s).
Proof. unfold touchesChannels. now destruct s. Qed.

Lemma touchesChannels_set_relaysFor (v : obj (list string)) (s : Dispatcher PR) :
  touchesChannels s (set_relaysFor v s).
Proof. unfold touchesChannels. now destruct s. Qed.

Lemma withPeer_touches (hostPort : string) (f : Peer -> Peer) (s : Dispatcher PR) :
  touchesChannels s (withPeer hostPort f s).
Proof. rewrite withPeer_set. apply touchesChannels_set_peers. Qed.

Lemma withChannel_touches (name : string) (f : SubChannel -> SubChannel)
    (s : Dispatcher PR) :
  touchesChannels s (withChannel name f s).
Proof. rewrite withChannel_set. apply touchesChannels_set_subChannels. Qed.

Lemma subPeers_add_touches (name hostPort : string) (s : Dispatcher PR) :
  touchesChannels s (subPeers_add name hostPort s).
Proof.
  unfold subPeers_add.
  eapply touchesChannels_trans; [|apply withChannel_touches].
  destruct (has hostPort (peers s));
    [apply touchesChannels_refl|apply touchesChannels_set_peers].
Qed.

Lemma _getServicePeer_touches (name hostPort : string) (s : Dispatcher PR) :
  touchesChannels s (_getServicePeer name hostPort s).
Proof.
  unfold _getServicePeer.
  eapply touchesChannels_trans; [|apply withPeer_touches].
  destruct (subPeers_get name hostPort s);
    [apply touchesChannels_refl|apply subPeers_add_touches].
Qed.

Lemma fold_left_touches {A : Type} (step : Dispatcher PR -> A -> Dispatcher PR)
    (l : list A) (s : Dispatcher PR) :
  (forall s' a, touchesChannels s' (step s' a)) ->
  touchesChannels s (fold_left step l s).
Proof.
  intros Hstep. revert s. induction l as [|a l IH]; intros s; simpl.
  - apply touchesChannels_refl.
  - eapply touchesChannels_trans; [apply Hstep|apply IH].
Qed.

Lemma createServiceChannel_touches (serviceName : string) (s : Dispatcher PR) :
  touchesChannels s (createServiceChannel serviceName s).
Proof.
  unfold createServiceChannel. cbv zeta.
  assert (T1 : forall v,
             touchesChannels s
               match get serviceName (relaysFor s) with
               | Some _ => s
               | None => set_relaysFor v s
               end).
  { intros v. destruct (get serviceName (relaysFor s));
      [apply touchesChannels_refl|apply touchesChannels_set_relaysFor]. }
  match goal with
  | |- context [set_relaysFor ?v s] => specialize (T1 v)
  end.
  match type of T1 with
  | touchesChannels s ?x => set (s1 := x) in *
  end.
  destruct (EgressNodes.isExitFor (egressNodes s1) serviceName).
  - eapply touchesChannels_trans; [exact T1|].
    apply touchesChannels_set_subChannels.
  - eapply touchesChannels_trans; [exact T1|].
    eapply touchesChannels_trans; [apply touchesChannels_set_subChannels|].
    apply fold_left_touches. intros. apply _getServicePeer_touches.
Qed.

Lemma getServiceChannel_touches (serviceName : string) (create : bool)
    (s : Dispatcher PR) :
  touchesChannels s (getServiceChannel serviceName create s).
Proof.
  unfold getServiceChannel.
  destruct (negb (has serviceName (subChannels s)) && create);
    [apply createServiceChannel_touches|apply touchesChannels_refl].
Qed.

(** *** The peers of a service channel *)

Lemma subPeers_add_peersOf (name hostPort : string) (s : Dispatcher PR) (k : string) :
  peersOf k (subPeers_add name hostPort s)
  = if String.eqb k name && has name (subChannels s)
    then if mem hostPort (peersOf name s) then peersOf name s
         else (peersOf name s ++ [hostPort])%list
    else peersOf k s.
Proof.
  unfold subPeers_add.
  set (s1 := if has hostPort (peers s) then s else set_peers _ s).
  assert (E : subChannels s1 = subChannels s)
    by (unfold s1; now destruct (has hostPort (peers s))).
  rewrite peersOf_withChannel. unfold peersOf, has. rewrite E.
  destruct (String.eqb_spec k name) as [->|]; cbn [andb]; [|reflexivity].
  destruct (get name (subChannels s)) as [c|]; [|reflexivity].
  now destruct (mem hostPort (chanPeers c)).
Qed.

Lemma subPeers_add_get (name hostPort : string) (s : Dispatcher PR) (k : string) :
  get k (peers (subPeers_add name hostPort s))
  = if String.eqb k hostPort
    then Some match get hostPort (peers s) with Some p => p | None => newPeer end
    else get k (peers s).
Proof.
  unfold subPeers_add. rewrite withChannel_set. cbn [peers set_subChannels].
  unfold has. destruct (get hostPort (peers s)) as [p|] eqn:G.
  - destruct (String.eqb_spec k hostPort) as [->|]; [exact G|reflexivity].
  - cbn [peers set_peers]. rewrite get_put.
    now destruct (String.eqb k hostPort).
Qed.

(** The peer with the service added to [serviceProxyServices]. *)
Definition serving (name : string) (p : Peer) : Peer :=
  set_serviceProxyServices
    (if mem name (serviceProxyServices p) then serviceProxyServices p
     else (serviceProxyServices p ++ [name])%list) p.

Lemma serving_serves (name : string) (p : Peer) :
  mem name (serviceProxyServices (serving name p)) = true.
Proof.
  unfold serving. cbn [serviceProxyServices set_serviceProxyServices].
  destruct (mem name (serviceProxyServices p)) eqn:M; [exact M|].
  rewrite mem_app, String.eqb_refl. apply Bool.orb_true_r.
Qed.

Lemma _getServicePeer_subChannels (name hostPort : string) (s : Dispatcher PR) :
  subChannels (_getServicePeer name hostPort s)
  = subChannels match subPeers_get name hostPort s with
                | Some _ => s
                | None => subPeers_add name hostPort s
                end.
Proof. unfold _getServicePeer. now rewrite withPeer_set. Qed.

Lemma _getServicePeer_peersOf (name hostPort : string) (s : Dispatcher PR)
    (k : string) :
  peersOf k (_getServicePeer name hostPort s)
  = if String.eqb k name && has name (subChannels s)
    then if mem hostPort (peersOf name s) then peersOf name s
         else (peersOf name s ++ [hostPort])%list
    else peersOf k s.
Proof.
  unfold peersOf at 1. rewrite _getServicePeer_subChannels.
  fold (peersOf k match subPeers_get name hostPort s with
                  | Some _ => s
                  | None => subPeers_add name hostPort s
                  end).
  unfold subPeers_get.
  destruct (mem hostPort (peersOf name s)) eqn:M.
  - destruct (get hostPort (peers s)).
    + destruct (String.eqb_spec k name) as [->|]; cbn [andb]; [|reflexivity].
      now destruct (has name (subChannels s)).
    + rewrite subPeers_add_peersOf, M.
      destruct (String.eqb_spec k name) as [->|]; cbn [andb]; reflexivity.
  - rewrite subPeers_add_peersOf, M. reflexivity.
Qed.

Lemma _getServicePeer_get (name hostPort : string) (s : Dispatcher PR) (k : string) :
  get k (peers (_getServicePeer name hostPort s))
  = if String.eqb k hostPort
    then Some (serving name
                 match get hostPort (peers s) with
                 | Some p => p
                 | None => newPeer
                 end)
    else get k (peers s).
Proof.
  unfold _getServicePeer. rewrite withPeer_get.
  fold (serving name).
  unfold subPeers_get.
  destruct (String.eqb_spec k hostPort) as [->|Hne].
  - destruct (mem hostPort (peersOf name s)).
    + destruct (get hostPort (peers s)) as [p|] eqn:G.
      * now rewrite G.
      * rewrite subPeers_add_get, String.eqb_refl, G. reflexivity.
    + rewrite subPeers_add_get, String.eqb_refl. reflexivity.
  - destruct (mem hostPort (peersOf name s)).
    + destruct (get hostPort (peers s)) as [p|] eqn:G; [reflexivity|].
      rewrite subPeers_add_get.
      destruct (String.eqb_spec k hostPort); [contradiction|reflexivity].
    + rewrite subPeers_add_get.
      destruct (String.eqb_spec k hostPort); [contradiction|reflexivity].
Qed.

Lemma _getServicePeer_has (name hostPort : string) (s : Dispatcher PR) (k : string) :
  has k (subChannels (_getServicePeer name hostPort s)) = has k (subChannels s).
Proof.
  destruct (_getServicePeer_shape name hostPort s) as [A _].
  specialize (A k). unfold shapeOf in A. unfold has.
  destruct (get k (subChannels (_getServicePeer name hostPort s)));
    destruct (get k (subChannels s)); cbn in A; congruence.
Qed.

(** Every peer of the channel [name] is in the peer table and serves
    [name]. *)
Definition peersServe (name : string) (s : Dispatcher PR) : Prop :=
  forall h, mem h (peersOf name s) = true ->
            exists p, get h (peers s) = Some p
                      /\ mem name (serviceProxyServices p) = true.

Lemma _getServicePeer_peersServe (name hostPort : string) (s : Dispatcher PR) :
  peersServe name s -> peersServe name (_getServicePeer name hostPort s).
Proof.
  intros P h. rewrite _getServicePeer_peersOf, _getServicePeer_get,
    String.eqb_refl. cbn [andb].
  destruct (String.eqb_spec h hostPort) as [->|Hne].
  - intros _. eexists. split; [reflexivity|apply serving_serves].
  - intros M. apply P.
    destruct (has name (subChannels s)); [|exact M].
    destruct (mem hostPort (peersOf name s)); [exact M|].
    rewrite mem_app in M.
    destruct (String.eqb_spec h hostPort); [contradiction|].
    now rewrite Bool.orb_false_r in M.
Qed.

(** The loop that adds the peers of a list to a registered channel. *)
Lemma addPeers_result (name : string) (l : list string) (s : Dispatcher PR) :
  has name (subChannels s) = true ->
  let s' := fold_left (fun s0 h => _getServicePeer name h s0) l s in
  (forall h, mem h (peersOf name s') = mem h (peersOf name s) || mem h l)
  /\ (forall k, has k (subChannels s') = has k (subChannels s))
  /\ (forall k, modeOf k s' = modeOf k s)
  /\ (peersServe name s -> peersServe name s').
Proof.
  revert s. induction l as [|x l IH]; intros s H; cbn [fold_left].
  - split; [intros h; cbn; now rewrite Bool.orb_false_r|].
    split; [reflexivity|]. split; [reflexivity|auto].
  - assert (H1 : has name (subChannels (_getServicePeer name x s)) = true)
      by now rewrite _getServicePeer_has.
    destruct (IH _ H1) as (A & B & C & D). cbv zeta in *.
    split; [|split; [|split]].
    + intros h. rewrite A, _getServicePeer_peersOf, String.eqb_refl, H.
      cbn [andb].
      change (mem h (x :: l)) with (String.eqb h x || mem h l).
      destruct (mem x (peersOf name s)) eqn:Mx.
      * destruct (String.eqb_spec h x) as [->|]; cbn [orb]; [|reflexivity].
        now rewrite Mx.
      * rewrite mem_app. now rewrite Bool.orb_assoc.
    + intros k. rewrite B. apply _getServicePeer_has.
    + intros k. rewrite C, !modeOf_shapeOf.
      destruct (_getServicePeer_shape name x s) as [E _]. now rewrite E.
    + intros P. apply D. now apply _getServicePeer_peersServe.
Qed.

Lemma createServiceChannel_result (serviceName : string) (s : Dispatcher PR) :
  let s' := createServiceChannel serviceName s in
  let exitNames :=
    match get serviceName (relaysFor s) with
    | Some exitNames => exitNames
    | None => sort (EgressNodes.exitsFor (egressNodes s) serviceName)
    end in
  let isExit := EgressNodes.isExitFor (egressNodes s) serviceName in
  modeOf serviceName s' = Some (if isExit then exit else forward)
  /\ get serviceName (relaysFor s') = Some exitNames
  /\ (forall h, mem h (peersOf serviceName s')
                = if isExit then false else mem h exitNames)
  /\ peersServe serviceName s'.
Proof.
  cbv zeta. unfold createServiceChannel. cbv zeta.
  set (exitNames := match get serviceName (relaysFor s) with
                    | Some e => e
                    | None => sort (EgressNodes.exitsFor (egressNodes s) serviceName)
                    end).
  set (s1 := match get serviceName (relaysFor s) with
             | Some _ => s
             | None =>
                 set_relaysFor (put serviceName exitNames (relaysFor s)) s
             end).
  assert (E1 : egressNodes s1 = egressNodes s
               /\ get serviceName (relaysFor s1) = Some exitNames).
  { unfold s1, exitNames.
    destruct (get serviceName (relaysFor s)) eqn:G; [now split|].
    split; [reflexivity|]. cbn [relaysFor set_relaysFor]. apply get_put_same. }
  destruct E1 as [E1 R1]. rewrite E1.
  set (ch := {| serviceProxyMode := _ |}).
  set (s2 := set_subChannels (put serviceName ch (subChannels s1)) s1).
  assert (G2 : get serviceName (subChannels s2) = Some ch)
    by (unfold s2; cbn [subChannels set_subChannels]; apply get_put_same).
  assert (P2 : peersOf serviceName s2 = [])
    by (unfold peersOf; now rewrite G2).
  assert (M2 : modeOf serviceName s2
               = Some (if EgressNodes.isExitFor (egressNodes s) serviceName
                       then exit else forward))
    by (unfold modeOf; now rewrite G2).
  assert (S2 : peersServe serviceName s2)
    by (intros h; rewrite P2; discriminate).
  destruct (EgressNodes.isExitFor (egressNodes s) serviceName) eqn:X.
  - split; [exact M2|]. split; [exact R1|]. split; [|exact S2].
    intros h. now rewrite P2.
  - assert (H2 : has serviceName (subChannels s2) = true)
      by (unfold has; now rewrite G2).
    destruct (addPeers_result serviceName exitNames s2 H2) as (A & B & C & D).
    cbv zeta in *.
    split; [now rewrite C|]. split; [|split].
    + assert (R : forall l (s0 : Dispatcher PR),
                 relaysFor (fold_left
                              (fun s0 h => _getServicePeer serviceName h s0) l s0)
                 = relaysFor s0).
      { clear. induction l as [|x l IH]; intros s0; cbn [fold_left];
          [reflexivity|].
        rewrite IH. unfold _getServicePeer. rewrite withPeer_set.
        cbn [relaysFor set_peers].
        destruct (subPeers_get serviceName x s0); [reflexivity|].
        unfold subPeers_add. rewrite withChannel_set.
        cbn [relaysFor set_subChannels].
        now destruct (has x (peers s0)). }
      rewrite R. exact R1.
    + intros h. rewrite A, P2. reflexivity.
    + now apply D.
Qed.

(** X15.  The channel that [createServiceChannel] makes.  Its mode is exit
    when the ring says that this router is an exit for the service and
    forward when not; the exit nodes of the service are kept in
    [relaysFor], from the ring unless they were there already; an exit
    channel starts without peers, and the peers of a forward channel are
    exactly those exit nodes, each of them in the peer table and marked as
    serving the service. *)
Theorem createServiceChannel_channel (serviceName : string) (s : Dispatcher PR) :
  let s' := createServiceChannel serviceName s in
  let exitNames :=
    match get serviceName (relaysFor s) with
    | Some exitNames => exitNames
    | None => sort (EgressNodes.exitsFor (egressNodes s) serviceName)
    end in
  let isExit := EgressNodes.isExitFor (egressNodes s) serviceName in
  modeOf serviceName s' = Some (if isExit then exit else forward)
  /\ get serviceName (relaysFor s') = Some exitNames
  /\ (forall h, mem h (peersOf serviceName s')
                = if isExit then false else mem h exitNames)
  /\ peersServe serviceName s'.
Proof. apply createServiceChannel_result. Qed.

End ChannelFacts.

(** ** Admission: the channel of a request *)

Section AdmissionFacts.
Context {PR : Type} {prOps : PartialRange.Ops PR}.
Import ServiceProxy.

(** The channel that a request is handed to. *)
Lemma getServiceChannel_create (serviceName : string) (s : Dispatcher PR) :
  let s' := getServiceChannel serviceName true s in
  has serviceName (subChannels s') = true
  /\ modeOf serviceName s'
     = (if has serviceName (subChannels s) then modeOf serviceName s
        else Some (if EgressNodes.isExitFor (egressNodes s) serviceName
                   then exit else forward))
  /\ touchesChannels s s'.
Proof.
  cbv zeta. split; [|split; [|apply getServiceChannel_touches]].
  - unfold getServiceChannel.
    destruct (has serviceName (subChannels s)) eqn:H; cbn [negb andb]; [exact H|].
    destruct (createServiceChannel_result serviceName s) as (M & _).
    cbv zeta in M. unfold modeOf in M. unfold has.
    destruct (get serviceName (subChannels (createServiceChannel serviceName s)));
      [reflexivity|discriminate].
  - unfold getServiceChannel.
    destruct (has serviceName (subChannels s)) eqn:H; cbn [negb andb];
      [reflexivity|].
    now destruct (createServiceChannel_result serviceName s) as (M & _).
Qed.

Lemma rateLimit_state (cn : option string) (serviceName : string)
    (s : Dispatcher PR) :
  fst (rateLimit cn serviceName s)
  = set_rateLimiter (rateLimiter (fst (rateLimit cn serviceName s))) s.
Proof.
  unfold rateLimit.
  repeat match goal with
         | |- context [if ?b then _ else _] => destruct b
         end; reflexivity.
Qed.

Lemma touchesChannels_rateLimiter (s s' : Dispatcher PR) :
  touchesChannels s s' -> rateLimiter s' = rateLimiter s.
Proof. unfold touchesChannels. intros ->. reflexivity. Qed.

(** X16.  A request is handed to a registered channel.  When [handleRequest]
    hands a request to a relay handler, it is the handler of the channel
    of the routing delegate, or of the service when no delegate is set;
    that channel is registered; a channel that was made for the request
    is an exit channel when the ring says that this router is an exit for
    the service, and a forward channel when not; a channel that was there
    keeps its mode. *)
Theorem handleRequest_hands_to_registered_channel (req : Request)
    (s s' : Dispatcher PR) (name : string) :
  handleRequest req s = (s', handlerHandles name) ->
  name = orStr match headers req with Some h => rd h | None => None end
           (serviceName req)
  /\ has name (subChannels s') = true
  /\ modeOf name s'
     = if has name (subChannels s) then modeOf name s
       else Some (if EgressNodes.isExitFor (egressNodes s) name
                  then exit else forward).
Proof.
  unfold handleRequest.
  destruct (String.eqb (serviceName req) ""); [discriminate|].
  set (next := orStr _ (serviceName req)).
  destruct (isBlocked _ next s); [discriminate|].
  destruct (rateLimiterEnabled s).
  - pose proof (rateLimit_state
                  match headers req with Some h => cn h | None => None end
                  next s) as R.
    destruct (rateLimit _ next s) as [s1 reason]. cbn [fst] in R.
    destruct reason; try discriminate.
    + now destruct (connectionOps req).
    + intros [= <- <-]. split; [reflexivity|].
      destruct (getServiceChannel_create next s1) as (A & B & _).
      cbv zeta in A, B. split; [exact A|]. rewrite B, R. reflexivity.
  - intros [= <- <-]. split; [reflexivity|].
    destruct (getServiceChannel_create next s) as (A & B & _).
    split; [exact A|exact B].
Qed.

Lemma rateLimiter_off (req : Request)
    (reqFrame : LazyFrame) (s : Dispatcher PR) :
  rateLimiterEnabled s = false ->
  rateLimiter (fst (handleRequest req s)) = rateLimiter s
  /\ rateLimiter (fst (fst (handleLazily reqFrame s))) = rateLimiter s
  /\ (forall message, snd (handleRequest req s) <> sendError "Busy" message)
  /\ (forall message,
        snd (fst (handleLazily reqFrame s)) <> sendError "Busy" message).
Proof.
  intros Off.
  assert (T : forall n, rateLimiter (getServiceChannel n true s) = rateLimiter s).
  { intros n. apply touchesChannels_rateLimiter, getServiceChannel_touches. }
  unfold handleRequest, handleLazily. rewrite Off.
  split; [|split; [|split]].
  - destruct (String.eqb (serviceName req) ""); [reflexivity|].
    destruct (isBlocked _ _ s); [reflexivity|]. cbn [fst]. apply T.
  - destruct (readService reqFrame) as [sn|]; [|reflexivity].
    destruct (String.eqb sn ""); [reflexivity|].
    destruct (readHeaders reqFrame) as [value|]; [|reflexivity].
    destruct (negb (truthyStr _)); [reflexivity|].
    destruct (isBlocked _ sn s); [reflexivity|].
    match goal with
    | |- context [get ?n (subChannels (getServiceChannel ?n true s))] =>
        destruct (get n (subChannels (getServiceChannel n true s))) as [c|];
        [destruct (handlerHandlesLazily c)|]; cbn [fst]; apply T
    end.
  - intros message.
    destruct (String.eqb (serviceName req) ""); [discriminate|].
    destruct (isBlocked _ _ s); discriminate.
  - intros message.
    destruct (readService reqFrame) as [sn|]; [|discriminate].
    destruct (String.eqb sn ""); [discriminate|].
    destruct (readHeaders reqFrame) as [value|]; [|discriminate].
    destruct (negb (truthyStr _)); [discriminate|].
    destruct (isBlocked _ sn s); [discriminate|].
    match goal with
    | |- context [get ?n (subChannels (getServiceChannel ?n true s))] =>
        destruct (get n (subChannels (getServiceChannel n true s))) as [c|];
        [destruct (handlerHandlesLazily c)|]; discriminate
    end.
Qed.

(** X17.  After [disableRateLimiter] no request is counted or turned
    away as busy: [handleRequest] and [handleLazily] leave the counters of
    the rate limiter as they are, and neither answers [Busy]. *)
Theorem disableRateLimiter_counts_nothing (req : Request)
    (reqFrame : LazyFrame) (s : Dispatcher PR) :
  let s' := disableRateLimiter s in
  rateLimiter (fst (handleRequest req s')) = rateLimiter s
  /\ rateLimiter (fst (fst (handleLazily reqFrame s'))) = rateLimiter s
  /\ (forall message, snd (handleRequest req s') <> sendError "Busy" message)
  /\ (forall message,
        snd (fst (handleLazily reqFrame s')) <> sendError "Busy" message).
Proof.
  cbv zeta.
  apply (rateLimiter_off req reqFrame (disableRateLimiter s)). reflexivity.
Qed.

End AdmissionFacts.

(** A request of [alice] to [steve] on the router as constructed: the
    channel of [steve] is made for the request, as an exit channel. *)
Lemma handleRequest_hands_to_registered_channel_witness :
  let req := Scenario.requestTo "steve" true in
  let s' := fst (ServiceProxy.handleRequest req Scenario.router) in
  ServiceProxy.handleRequest req Scenario.router
  = (s', ServiceProxy.handlerHandles "steve")
  /\ has "steve" (ServiceProxy.subChannels s') = true
  /\ ServiceProxy.modeOf "steve" s' = Some exit.
Proof.
  intros req s'.
  assert (H : ServiceProxy.handleRequest req Scenario.router
              = (s', ServiceProxy.handlerHandles "steve")) by reflexivity.
  destruct (handleRequest_hands_to_registered_channel req Scenario.router s'
              "steve" H) as (_ & A & B).
  split; [exact H|]. split; [exact A|exact B].
Defined.

(** ** Advertise and unadvertise *)

Section AdvertiseFacts.
Context {PR : Type} {prOps : PartialRange.Ops PR}.
Import ServiceProxy.

(** The peer after [ensurePeerConnected] found it. *)
Definition connected (p : Peer) : Peer :=
  if connectedOut p then p else set_connectedOut true (set_draining None p).

Lemma ensurePeerConnected_off (serviceName hostPort : string) (now : Z)
    (s : Dispatcher PR) :
  partialAffinityEnabled s = false ->
  ensurePeerConnected serviceName hostPort now s
  = set_peers match get hostPort (peers s) with
              | Some p => put hostPort (connected p) (peers s)
              | None => peers s
              end
      (set_peersToPrune (del hostPort (peersToPrune s)) s).
Proof.
  intros Off. unfold ensurePeerConnected. rewrite Off.
  cbn [peers set_peersToPrune].
  destruct (get hostPort (peers s)) as [p|] eqn:G.
  - unfold connected. destruct (connectedOut p) eqn:C.
    + rewrite (put_get_same _ _ _ G). now destruct s.
    + destruct (draining p) eqn:D.
      * unfold connectTo, clearDrain. rewrite !withPeer_set.
        cbn [peers set_peers set_peersToPrune]. rewrite G, get_put_same.
        rewrite put_put_same. reflexivity.
      * unfold connectTo. rewrite withPeer_set.
        cbn [peers set_peers set_peersToPrune]. rewrite G.
        replace (set_draining None p) with p
          by (destruct p; cbn in *; now subst).
        reflexivity.
  - now destruct s.
Qed.

Lemma connected_spec (p : Peer) :
  connectedOut (connected p) = true
  /\ serviceProxyServices (connected p) = serviceProxyServices p.
Proof.
  unfold connected. destruct (connectedOut p) eqn:C; now split.
Qed.

(** The dispatcher's own answer to [isExitFor] is the mode of the
    registered channel. *)
Lemma isExitFor_mode (serviceName : string) (s : Dispatcher PR) :
  isExitFor serviceName s = true ->
  modeOf serviceName (getOrCreateServiceChannel serviceName s) = Some exit.
Proof.
  unfold isExitFor. intros H.
  destruct (getServiceChannel_create serviceName s) as (_ & M & _).
  unfold getOrCreateServiceChannel. cbv zeta in M. rewrite M.
  unfold has, modeOf.
  destruct (get serviceName (subChannels s)) as [c|]; [|now rewrite H].
  now destruct (serviceProxyMode c) as [[|]|].
Qed.

Lemma isExitFor_not_mode (serviceName : string) (s : Dispatcher PR) :
  isExitFor serviceName s = false ->
  modeOf serviceName (getOrCreateServiceChannel serviceName s) <> Some exit.
Proof.
  unfold isExitFor. intros H.
  destruct (getServiceChannel_create serviceName s) as (_ & M & _).
  unfold getOrCreateServiceChannel. cbv zeta in M. rewrite M.
  unfold has, modeOf.
  destruct (get serviceName (subChannels s)) as [c|]; [|now rewrite H].
  destruct (serviceProxyMode c) as [[|]|]; congruence.
Qed.

Lemma createServiceChannel_other (serviceName : string) (s : Dispatcher PR)
    (k : string) :
  k <> serviceName ->
  get k (subChannels (createServiceChannel serviceName s)) = get k (subChannels s).
Proof.
  intros Hne. unfold createServiceChannel. cbv zeta.
  assert (F : forall l (s0 : Dispatcher PR),
             get k (subChannels
                      (fold_left
                         (fun s' exitName => _getServicePeer serviceName exitName s')
                         l s0))
             = get k (subChannels s0)).
  { induction l as [|x l IH]; intros s0; cbn [fold_left]; [reflexivity|].
    rewrite IH, _getServicePeer_subChannels.
    destruct (subPeers_get serviceName x s0); [reflexivity|].
    unfold subPeers_add. rewrite withChannel_get.
    destruct (String.eqb_spec k serviceName); [contradiction|].
    now destruct (has x (peers s0)). }
  destruct (EgressNodes.isExitFor _ serviceName); rewrite ?F;
    cbn [subChannels set_subChannels]; rewrite get_put_other by exact Hne;
    now destruct (get serviceName (relaysFor s)).
Qed.

Lemma getOrCreateServiceChannel_other (serviceName : string)
    (s : Dispatcher PR) (k : string) :
  k <> serviceName ->
  get k (subChannels (getOrCreateServiceChannel serviceName s))
  = get k (subChannels s).
Proof.
  intros Hne. unfold getOrCreateServiceChannel, getServiceChannel.
  destruct (negb (has serviceName (subChannels s)) && true); [|reflexivity].
  now apply createServiceChannel_other.
Qed.

Lemma getOrCreateServiceChannel_peersOf (serviceName : string)
    (s : Dispatcher PR) :
  isExitFor serviceName s = true ->
  forall k, peersOf k (getOrCreateServiceChannel serviceName s) = peersOf k s.
Proof.
  intros X k. destruct (String.eqb_spec k serviceName) as [->|Hne].
  - unfold getOrCreateServiceChannel, getServiceChannel.
    destruct (has serviceName (subChannels s)) eqn:H; cbn [negb andb];
      [reflexivity|].
    destruct (createServiceChannel_result serviceName s) as (_ & _ & P & _).
    cbv zeta in P. unfold isExitFor in X. unfold has in H.
    unfold peersOf at 2.
    destruct (get serviceName (subChannels s)); [discriminate|].
    rewrite X in P.
    destruct (peersOf serviceName (createServiceChannel serviceName s))
      as [|h l]; [reflexivity|].
    specialize (P h). cbn in P. now rewrite String.eqb_refl in P.
  - unfold peersOf. now rewrite getOrCreateServiceChannel_other.
Qed.

Lemma getOrCreateServiceChannel_peers_exit (serviceName : string)
    (s : Dispatcher PR) :
  isExitFor serviceName s = true ->
  peers (getOrCreateServiceChannel serviceName s) = peers s.
Proof.
  unfold isExitFor, getOrCreateServiceChannel, getServiceChannel, has.
  destruct (get serviceName (subChannels s)); cbn [negb andb]; [reflexivity|].
  intros X. unfold createServiceChannel. cbv zeta.
  replace (EgressNodes.isExitFor _ serviceName) with true
    by (now destruct (get serviceName (relaysFor s))).
  now destruct (get serviceName (relaysFor s)).
Qed.

Lemma del_del_same {V : Type} (k : string) (o : obj V) :
  del k (del k o) = del k o.
Proof.
  unfold del. induction o as [|[k0 v0] o IH]; simpl; [reflexivity|].
  destruct (negb (String.eqb k k0)) eqn:E; simpl; rewrite ?E, IH; reflexivity.
Qed.

Lemma getOrCreateServiceChannel_off (serviceName : string) (s : Dispatcher PR) :
  let s' := getOrCreateServiceChannel serviceName s in
  partialAffinityEnabled s' = partialAffinityEnabled s
  /\ exitServices s' = exitServices s
  /\ peersToPrune s' = peersToPrune s
  /\ peersToReap s' = peersToReap s
  /\ knownPeers s' = knownPeers s
  /\ egressNodes s' = egressNodes s.
Proof.
  cbv zeta.
  pose proof (getServiceChannel_touches serviceName true s) as T.
  unfold getOrCreateServiceChannel. unfold touchesChannels in T.
  rewrite T. repeat split; reflexivity.
Qed.

(** What an advertisement leaves behind on an exit node without partial
    affinity. *)
Lemma refreshServicePeer_result (serviceName hostPort : string) (now : Z)
    (s : Dispatcher PR) :
  isExitFor serviceName s = true ->
  partialAffinityEnabled s = false ->
  let s' := refreshServicePeer serviceName hostPort now s in
  modeOf serviceName s' = Some exit
  /\ (forall k, peersOf k s'
                = if String.eqb k serviceName
                  then if mem hostPort (peersOf serviceName s)
                       then peersOf serviceName s
                       else (peersOf serviceName s ++ [hostPort])%list
                  else peersOf k s)
  /\ exitServices s' = put serviceName now (exitServices s)
  /\ knownPeers s' = addIndexEntry (knownPeers s) hostPort serviceName now
  /\ peersToReap s' = deleteIndexEntry (peersToReap s) hostPort serviceName
  /\ peersToPrune s' = del hostPort (peersToPrune s)
  /\ (forall k, get k (peers s')
                = if String.eqb k hostPort
                  then Some (connected
                               (serving serviceName
                                  match get hostPort (peers s) with
                                  | Some p => p
                                  | None => newPeer
                                  end))
                  else get k (peers s))
  /\ partialAffinityEnabled s' = false
  /\ egressNodes s' = egressNodes s.
Proof.
  intros X Off. cbv zeta. unfold refreshServicePeer.
  pose proof (isExitFor_mode serviceName s X) as M1.
  pose proof (getOrCreateServiceChannel_peersOf serviceName s X) as P1.
  destruct (getOrCreateServiceChannel_off serviceName s)
    as (A1 & E1 & U1 & R1 & K1 & G1). cbv zeta in *.
  pose proof (getOrCreateServiceChannel_peers_exit serviceName s X) as Q1.
  set (s1 := getOrCreateServiceChannel serviceName s) in *.
  rewrite M1. cbn [partialAffinityEnabled set_exitServices]. rewrite A1, Off.
  set (s5 := set_knownPeers _ _).
  assert (H5 : has serviceName (subChannels s5) = true).
  { unfold s5. cbn [subChannels set_knownPeers set_peersToReap set_peersToPrune
                    set_exitServices].
    unfold modeOf in M1. unfold has.
    now destruct (get serviceName (subChannels s1)). }
  assert (S5 : getOrCreateServiceChannel serviceName s5 = s5).
  { unfold getOrCreateServiceChannel, getServiceChannel. now rewrite H5. }
  unfold getServicePeer. rewrite S5.
  set (s6 := _getServicePeer serviceName hostPort s5).
  assert (T6 : touchesChannels s5 s6) by apply _getServicePeer_touches.
  assert (Off6 : partialAffinityEnabled s6 = false).
  { unfold touchesChannels in T6. rewrite T6. unfold s5.
    cbn [partialAffinityEnabled set_peers set_subChannels set_relaysFor
         set_knownPeers set_peersToReap set_peersToPrune set_exitServices].
    now rewrite A1. }
  rewrite (ensurePeerConnected_off _ _ _ _ Off6).
  assert (P6 : forall k, peersOf k s6
                 = if String.eqb k serviceName
                   then if mem hostPort (peersOf serviceName s)
                        then peersOf serviceName s
                        else (peersOf serviceName s ++ [hostPort])%list
                   else peersOf k s).
  { intros k. unfold s6. rewrite _getServicePeer_peersOf, H5.
    rewrite Bool.andb_true_r.
    assert (E : forall k', peersOf k' s5 = peersOf k' s)
      by (intros k'; rewrite <- P1; reflexivity).
    now rewrite !E. }
  assert (G6 : forall k, get k (peers s6)
                 = if String.eqb k hostPort
                   then Some (serving serviceName
                                match get hostPort (peers s1) with
                                | Some p => p
                                | None => newPeer
                                end)
                   else get k (peers s1)).
  { intros k. unfold s6. now rewrite _getServicePeer_get. }
  assert (F6 : exitServices s6 = put serviceName now (exitServices s)
               /\ knownPeers s6
                  = addIndexEntry (knownPeers s) hostPort serviceName now
               /\ peersToReap s6
                  = deleteIndexEntry (peersToReap s) hostPort serviceName
               /\ peersToPrune s6 = del hostPort (peersToPrune s)
               /\ egressNodes s6 = egressNodes s).
  { unfold touchesChannels in T6. rewrite T6. unfold s5.
    cbn [exitServices knownPeers peersToReap peersToPrune egressNodes
         set_peers set_subChannels set_relaysFor
         set_knownPeers set_peersToReap set_peersToPrune set_exitServices].
    now rewrite E1, K1, R1, U1, G1. }
  destruct F6 as (F6a & F6b & F6c & F6d & F6e).
  cbn [modeOf peersOf subChannels set_peers set_peersToPrune exitServices
       knownPeers peersToReap peersToPrune peers partialAffinityEnabled
       egressNodes].
  assert (M6 : modeOf serviceName s6 = Some exit).
  { rewrite modeOf_shapeOf.
    destruct (_getServicePeer_shape serviceName hostPort s5) as [Sh _].
    fold s6 in Sh. rewrite Sh.
    change (shapeOf serviceName s5) with (shapeOf serviceName s1).
    rewrite <- modeOf_shapeOf. exact M1. }
  split; [exact M6|].
  split; [exact P6|].
  split; [exact F6a|]. split; [exact F6b|]. split; [exact F6c|].
  split.
  { rewrite F6d. apply del_del_same. }
  split.
  { intros k. rewrite (G6 hostPort), String.eqb_refl, get_put, G6, Q1.
    destruct (String.eqb k hostPort); reflexivity. }
  split; [exact Off6|exact F6e].
Qed.

(** X18.  What an advertisement leaves behind.  On a router that is an
    exit for the service, with partial affinity off, [refreshServicePeer]
    puts the worker among the peers of the service channel, after the
    peers that were there, and leaves the peers of every other channel
    alone; it stamps the service in [exitServices] and the worker in
    [knownPeers] with the time, takes the worker out of [peersToPrune],
    and the peer of the worker is in the peer table, connected out and
    marked as serving the service. *)
Theorem refreshServicePeer_registers_worker (serviceName hostPort : string)
    (now : Z) (s : Dispatcher PR) :
  isExitFor serviceName s = true ->
  partialAffinityEnabled s = false ->
  let s' := refreshServicePeer serviceName hostPort now s in
  modeOf serviceName s' = Some exit
  /\ peersOf serviceName s'
     = (if mem hostPort (peersOf serviceName s) then peersOf serviceName s
        else (peersOf serviceName s ++ [hostPort])%list)
  /\ (forall k, k <> serviceName -> peersOf k s' = peersOf k s)
  /\ get serviceName (exitServices s') = Some now
  /\ indexEntry (knownPeers s') hostPort serviceName = Some now
  /\ has hostPort (peersToPrune s') = false
  /\ exists p, get hostPort (peers s') = Some p
               /\ connectedOut p = true
               /\ mem serviceName (serviceProxyServices p) = true.
Proof.
  intros X Off.
  destruct (refreshServicePeer_result serviceName hostPort now s X Off)
    as (M & P & E & K & R & U & G & _).
  cbv zeta in *. split; [exact M|]. split; [|split; [|split; [|split; [|split]]]].
  - rewrite P, String.eqb_refl. reflexivity.
  - intros k Hne. rewrite P.
    destruct (String.eqb_spec k serviceName); [contradiction|reflexivity].
  - rewrite E. apply get_put_same.
  - rewrite K, addIndexEntry_cell, !String.eqb_refl. reflexivity.
  - rewrite U. unfold has. now rewrite get_del_same.
  - rewrite G, String.eqb_refl. eexists. split; [reflexivity|].
    destruct (connected_spec
                (serving serviceName
                   match get hostPort (peers s) with
                   | Some p => p
                   | None => newPeer
                   end)) as [C S].
    split; [exact C|]. rewrite S. apply serving_serves.
Qed.

(** X19.  An advertisement that reaches a router that is no exit for the
    service registers nothing: the service channel is made when it was not
    there, and nothing else changes. *)
Theorem refreshServicePeer_on_forward_node (serviceName hostPort : string)
    (now : Z) (s : Dispatcher PR) :
  isExitFor serviceName s = false ->
  refreshServicePeer serviceName hostPort now s
  = getOrCreateServiceChannel serviceName s.
Proof.
  intros X. unfold refreshServicePeer.
  pose proof (isExitFor_not_mode serviceName s X) as M.
  destruct (modeOf serviceName (getOrCreateServiceChannel serviceName s))
    as [[|]|]; congruence.
Qed.

(** *** Unadvertise after advertise *)


Lemma remove_absent (h : string) (l : list string) :
  mem h l = false -> remove h l = l.
Proof.
  unfold mem, remove. induction l as [|a l IH]; simpl; [reflexivity|].
  destruct (String.eqb h a); simpl; [discriminate|].
  intros H. now rewrite IH.
Qed.

Lemma remove_remove (h : string) (l : list string) :
  remove h (remove h l) = remove h l.
Proof.
  unfold remove. induction l as [|a l IH]; simpl; [reflexivity|].
  destruct (negb (String.eqb h a)) eqn:E; simpl; rewrite ?E, IH; reflexivity.
Qed.



(** X21.  An advertised worker is discovered.  After the advertisement the
    discovery of the service on that router lists the worker, converted
    from its host and port. *)
Theorem advertised_worker_is_discovered (serviceName hostPort : string)
    (now : Z) (s : Dispatcher PR) :
  isExitFor serviceName s = true ->
  partialAffinityEnabled s = false ->
  serviceName <> "" ->
  exists hosts,
    HyperbahnHandler.discoverAffine serviceName
      (refreshServicePeer serviceName hostPort now s)
    = HyperbahnHandler.discovered hosts
    /\ In (HyperbahnHandler.convertHost hostPort) hosts.
Proof.
  intros X Off Hne.
  destruct (refreshServicePeer_result serviceName hostPort now s X Off)
    as (M & P & _).
  cbv zeta in *.
  set (s' := refreshServicePeer serviceName hostPort now s) in *.
  assert (Hm : mem hostPort (peersOf serviceName s') = true).
  { rewrite P, String.eqb_refl.
    destruct (mem hostPort (peersOf serviceName s)) eqn:Hm; [exact Hm|].
    rewrite mem_app, String.eqb_refl. apply Bool.orb_true_r. }
  unfold HyperbahnHandler.discoverAffine.
  destruct (String.eqb_spec serviceName ""); [contradiction|].
  unfold HyperbahnHandler._getDiscoverHosts, HyperbahnHandler.convertHosts.
  unfold peersOf in Hm.
  destruct (get serviceName (subChannels s')) as [c|]; [|discriminate].
  apply mem_In in Hm.
  apply (in_map HyperbahnHandler.convertHost) in Hm.
  destruct (map HyperbahnHandler.convertHost (chanPeers c)) as [|d hosts];
    [contradiction|].
  eexists. split; [reflexivity|exact Hm].
Qed.

End AdvertiseFacts.

(** The worker of the scenario advertises [steve] at the time 1000. *)
Lemma refreshServicePeer_registers_worker_witness :
  ServiceProxy.modeOf "steve" Scenario.advertised = Some exit
  /\ ServiceProxy.peersOf "steve" Scenario.advertised = [Scenario.worker]
  /\ get "steve" (ServiceProxy.exitServices Scenario.advertised) = Some 1000
  /\ indexEntry (ServiceProxy.knownPeers Scenario.advertised)
       Scenario.worker "steve" = Some 1000
  /\ has Scenario.worker (ServiceProxy.peersToPrune Scenario.advertised) = false.
Proof.
  destruct (refreshServicePeer_registers_worker "steve" Scenario.worker 1000
              Scenario.router) as (M & P & _ & E & K & U & _).
  - reflexivity.
  - reflexivity.
  - split; [exact M|]. split; [exact P|]. split; [exact E|].
    split; [exact K|exact U].
Defined.

(** The router of a ring in which it is an exit for [steve] only. *)
Lemma refreshServicePeer_on_forward_node_witness :
  let s := ServiceProxy.ServiceDispatchHandler
             (Scenario.options Scenario.ringExitForSteve false
                (Scenario.limiter 1000 []) false) in
  ServiceProxy.refreshServicePeer "bob" Scenario.worker 1000 s
  = ServiceProxy.getOrCreateServiceChannel "bob" s.
Proof.
  intros s.
  apply (refreshServicePeer_on_forward_node "bob" Scenario.worker 1000 s).
  reflexivity.
Defined.


(** The worker of the scenario, advertised on the router as constructed. *)
Lemma advertised_worker_is_discovered_witness :
  exists hosts,
    HyperbahnHandler.discoverAffine "steve"
      (ServiceProxy.refreshServicePeer "steve" Scenario.worker 1000
         Scenario.router)
    = HyperbahnHandler.discovered hosts
    /\ In (HyperbahnHandler.convertHost Scenario.worker) hosts.
Proof.
  refine (advertised_worker_is_discovered "steve" Scenario.worker 1000
            Scenario.router _ _ _).
  - vm_compute. reflexivity.
  - vm_compute. reflexivity.
  - discriminate.
Defined.

(** ** The exit nodes, as the dispatcher sees them *)

Section ExitFacts.
Context {PR : Type} {prOps : PartialRange.Ops PR}.
Import ServiceProxy.

(** *** The answer of the dispatcher to [isExitFor] *)

Lemma isExitFor_shapeOf (k : string) (s : Dispatcher PR) :
  isExitFor k s
  = match shapeOf k s with
    | None => EgressNodes.isExitFor (egressNodes s) k
    | Some (Some exit) => true
    | Some _ => false
    end.
Proof.
  unfold isExitFor, shapeOf.
  now destruct (get k (subChannels s)) as [c|].
Qed.

Lemma sameShape_isExitFor (s s' : Dispatcher PR) :
  sameShape s s' -> forall k, isExitFor k s' = isExitFor k s.
Proof.
  intros (A & B & _) k. now rewrite !isExitFor_shapeOf, A, B.
Qed.

Lemma getOrCreateServiceChannel_isExitFor (serviceName : string)
    (s : Dispatcher PR) (k : string) :
  isExitFor k (getOrCreateServiceChannel serviceName s) = isExitFor k s.
Proof.
  destruct (getOrCreateServiceChannel_off serviceName s) as (_ & _ & _ & _ & _ & G).
  cbv zeta in G.
  destruct (String.eqb_spec k serviceName) as [->|Hne].
  - destruct (getServiceChannel_create serviceName s) as (H & M & _).
    cbv zeta in H, M. fold (getOrCreateServiceChannel serviceName s) in H, M.
    unfold isExitFor at 1. unfold has, modeOf in *.
    destruct (get serviceName (subChannels (getOrCreateServiceChannel serviceName s)))
      as [c|]; [|discriminate].
    rewrite M. unfold isExitFor.
    destruct (get serviceName (subChannels s)) as [c0|]; [reflexivity|].
    now destruct (EgressNodes.isExitFor (egressNodes s) serviceName).
  - unfold isExitFor. rewrite getOrCreateServiceChannel_other by exact Hne.
    now rewrite G.
Qed.

Lemma registered_after (s s' : Dispatcher PR) (name : string) (m : option Mode) :
  sameShape s s' -> shapeOf name s = Some m -> shapeOf name s' = Some m.
Proof. intros (A & _) H. now rewrite A. Qed.

Lemma freshenPartialPeer_shape (hostPort serviceName : string) (now : Z)
    (s : Dispatcher PR) (m : option Mode) :
  shapeOf serviceName s = Some m ->
  sameShape s (freshenPartialPeer hostPort serviceName now s).
Proof.
  intros Hreg. unfold freshenPartialPeer.
  set (connected := match get serviceName (connectedServicePeers s) with
                    | Some connectedPeers => _
                    | None => false
                    end).
  set (s1 := if connected then _ else _).
  assert (B1 : sameShape s s1).
  { unfold s1. destruct connected; now apply sameShape_fields. }
  set (s3 := set_knownPeers _ _).
  assert (B3 : sameShape s s3).
  { eapply sameShape_trans; [exact B1|]. now apply sameShape_fields. }
  pose proof (getPartialRange_shape serviceName now s3 m
                (registered_after _ _ _ _ B3 Hreg)) as B4.
  destruct (getPartialRange serviceName now s3) as [s4 partialRange].
  cbn [fst] in B4.
  assert (B4' : sameShape s s4) by (eapply sameShape_trans; eassumption).
  match goal with
  | |- sameShape s (if ?b then _ else _) => destruct b
  end;
    (eapply sameShape_trans; [exact B4'|]);
    [apply ensurePeerConnected_shape|apply ensurePeerDisconnected_shape].
Qed.

Lemma refreshServicePeerPartially_shape (serviceName hostPort : string)
    (now : Z) (s : Dispatcher PR) (m : option Mode) :
  shapeOf serviceName s = Some m ->
  sameShape s (refreshServicePeerPartially serviceName hostPort now s).
Proof.
  intros Hreg. unfold refreshServicePeerPartially.
  destruct (subPeers_get serviceName hostPort s);
    [now apply (freshenPartialPeer_shape _ _ _ _ m)|].
  set (s1 := match get serviceName (partialRanges s) with
             | Some partialRange => _
             | None => s
             end).
  assert (B1 : sameShape s s1).
  { unfold s1. destruct (get serviceName (partialRanges s));
      [now apply sameShape_fields|apply sameShape_refl]. }
  set (s2 := _getServicePeer serviceName hostPort s1).
  assert (B2 : sameShape s s2).
  { eapply sameShape_trans; [exact B1|apply _getServicePeer_shape]. }
  set (s4 := set_knownPeers _ _).
  assert (B4 : sameShape s s4).
  { eapply sameShape_trans; [exact B2|now apply sameShape_fields]. }
  pose proof (ensurePartialConnections_shape serviceName "advertise" now s4 m
                (registered_after _ _ _ _ B4 Hreg)) as B5.
  destruct (ensurePartialConnections serviceName "advertise" now s4)
    as [s5 [change|]]; cbn [fst] in B5.
  - destruct (noop change); [|eapply sameShape_trans; eassumption].
    destruct (mem hostPort (isAffine change));
      (eapply sameShape_trans; [exact B4|]);
      (eapply sameShape_trans; [exact B5|]); now apply sameShape_fields.
  - eapply sameShape_trans; eassumption.
Qed.

Lemma refreshServicePeer_shape (serviceName hostPort : string) (now : Z)
    (s : Dispatcher PR) :
  sameShape (getOrCreateServiceChannel serviceName s)
    (refreshServicePeer serviceName hostPort now s).
Proof.
  unfold refreshServicePeer.
  set (s1 := getOrCreateServiceChannel serviceName s).
  destruct (modeOf serviceName s1) as [[|]|] eqn:M; try apply sameShape_refl.
  assert (Hreg : shapeOf serviceName s1 = Some (Some exit)).
  { rewrite modeOf_shapeOf in M.
    destruct (getServiceChannel_create serviceName s) as (H & _).
    cbv zeta in H. fold (getOrCreateServiceChannel serviceName s) in H.
    fold s1 in H. unfold shapeOf in *. unfold has in H.
    destruct (get serviceName (subChannels s1)); [|discriminate].
    cbn in *. now rewrite M. }
  set (s2 := set_exitServices _ s1).
  assert (B2 : sameShape s1 s2) by now apply sameShape_fields.
  destruct (partialAffinityEnabled s2).
  - eapply sameShape_trans; [exact B2|].
    apply (refreshServicePeerPartially_shape _ _ _ _ (Some exit)).
    now apply (registered_after _ _ _ _ B2).
  - set (s5 := set_knownPeers _ _).
    assert (B5 : sameShape s1 s5) by now apply sameShape_fields.
    eapply sameShape_trans; [exact B5|].
    unfold getServicePeer.
    rewrite (getOrCreateServiceChannel_registered serviceName s5 (Some exit))
      by now apply (registered_after _ _ _ _ B5).
    eapply sameShape_trans;
      [apply _getServicePeer_shape|apply ensurePeerConnected_shape].
Qed.

Lemma removeServicePeer_shape (serviceName hostPort : string) (now : Z)
    (s : Dispatcher PR) :
  sameShape s (stateOf (removeServicePeer serviceName hostPort now s)).
Proof.
  unfold removeServicePeer.
  destruct (get serviceName (subChannels s)) as [c|] eqn:Gc;
    [|apply sameShape_refl].
  destruct (get hostPort (peers s)) as [p|]; [|apply sameShape_refl].
  assert (Hreg : shapeOf serviceName s = Some (serviceProxyMode c))
    by (unfold shapeOf; now rewrite Gc).
  set (s1 := subPeers_delete serviceName hostPort s).
  assert (B1 : sameShape s s1) by apply subPeers_delete_shape.
  set (s2 := if partialAffinityEnabled s1 then _ else s1).
  assert (B2 : sameShape s s2).
  { unfold s2. destruct (partialAffinityEnabled s1); [|exact B1].
    set (s' := match get serviceName (partialRanges s1) with
               | Some partialRange => _
               | None => s1
               end).
    assert (B' : sameShape s s').
    { unfold s'. destruct (get serviceName (partialRanges s1)); [|exact B1].
      eapply sameShape_trans; [exact B1|now apply sameShape_fields]. }
    pose proof (ensurePartialConnections_shape serviceName "unadvertise" now s'
                  (serviceProxyMode c) (registered_after _ _ _ _ B' Hreg)) as B''.
    destruct (ensurePartialConnections serviceName "unadvertise" now s')
      as [s'' [change|]]; cbn [fst] in B''.
    - destruct (noop change); [|eapply sameShape_trans; eassumption].
      eapply sameShape_trans; [exact B'|].
      eapply sameShape_trans; [exact B''|now apply sameShape_fields].
    - eapply sameShape_trans; eassumption. }
  destruct (remainingServices _ 0 _ hostPort s2 []) as [[|x l]|msg r];
    cbn [stateOf]; try exact B2.
  destruct (get hostPort (peers s2)) as [peer|]; [|exact B2].
  destruct (draining peer) as [d|].
  - destruct (String.prefix "reaped" (reason d)); cbn [stateOf]; [exact B2|].
    eapply sameShape_trans; [exact B2|].
    eapply sameShape_trans; apply withPeer_shape.
  - cbn [stateOf]. eapply sameShape_trans; [exact B2|apply withPeer_shape].
Qed.

(** X22.  The dispatcher keeps its answers to [isExitFor] between membership
    changes.  [isExitFor] answers from the mode of the service channel
    rather than from the ring; an advertisement, an unadvertisement and
    the channel made for a request leave the answer for every service as
    it was, with or without partial affinity. *)
Theorem isExitFor_is_stable (serviceName hostPort : string) (now : Z)
    (s : Dispatcher PR) (k : string) :
  isExitFor k (refreshServicePeer serviceName hostPort now s) = isExitFor k s
  /\ isExitFor k (stateOf (removeServicePeer serviceName hostPort now s))
     = isExitFor k s
  /\ isExitFor k (getOrCreateServiceChannel serviceName s) = isExitFor k s.
Proof.
  split; [|split].
  - rewrite (sameShape_isExitFor _ _ (refreshServicePeer_shape _ _ _ _)).
    apply getOrCreateServiceChannel_isExitFor.
  - apply sameShape_isExitFor, removeServicePeer_shape.
  - apply getOrCreateServiceChannel_isExitFor.
Qed.

End ExitFacts.

(** ** The relay of advertisements: the fan-out *)

Section FanOutFacts.
Import HyperbahnHandler.

(** The services listed for an exit node. *)
Definition relayedTo (servicesByExitNode : obj (list Service))
    (exitNode : string) : list Service :=
  match get exitNode servicesByExitNode with
  | Some l => l
  | None => []
  end.

Lemma keys_put_In {V : Type} (k k' : string) (v : V) (o : obj V) :
  In k (keys (put k' v o)) <-> k = k' \/ In k (keys o).
Proof.
  induction o as [|[k0 v0] o IH]; simpl.
  - split; [intros [<-|[]]; now left|intros [->|[]]; now left].
  - destruct (String.eqb_spec k' k0) as [->|Hne]; simpl.
    + split; [intros [<-|H]; [now left|right; now right]|].
      intros [->|[<-|H]]; [now left|now left|now right].
    + rewrite IH. split.
      * intros [<-|[->|H]]; [right; now left|now left|right; now right].
      * intros [->|[<-|H]]; [right; now left|now left|right; now right].
Qed.

Lemma keys_put_NoDup {V : Type} (k : string) (v : V) (o : obj V) :
  NoDup (keys o) -> NoDup (keys (put k v o)).
Proof.
  induction o as [|[k0 v0] o IH]; simpl; intros H.
  - constructor; [intros []|constructor].
  - inversion H as [|? ? Hnotin Hnd]; subst.
    destruct (String.eqb_spec k k0) as [->|Hne]; simpl.
    + now constructor.
    + constructor; [|now apply IH].
      intros Hin. apply keys_put_In in Hin. destruct Hin as [->|Hin];
        [now apply Hne|contradiction].
Qed.

Lemma pushToExits_spec (exitHosts : list string) (service : Service)
    (acc : obj (list Service)) :
  let acc' := pushToExits exitHosts service acc in
  (forall e x, In x (relayedTo acc' e)
               <-> In x (relayedTo acc e) \/ (x = service /\ In e exitHosts))
  /\ (forall e, In e (keys acc') <-> In e (keys acc) \/ In e exitHosts)
  /\ (NoDup (keys acc) -> NoDup (keys acc')).
Proof.
  revert acc. induction exitHosts as [|h exitHosts IH]; intros acc; cbv zeta;
    cbn [pushToExits fold_left].
  - split; [|split]; [intros; simpl; tauto|intros; simpl; tauto|auto].
  - set (acc1 := put h (_ ++ [service])%list acc).
    destruct (IH acc1) as (A & B & C). cbv zeta in *.
    fold (pushToExits exitHosts service acc1).
    assert (R1 : forall e x, In x (relayedTo acc1 e)
                   <-> In x (relayedTo acc e) \/ (x = service /\ e = h)).
    { intros e x. unfold relayedTo, acc1. rewrite get_put.
      destruct (String.eqb_spec e h) as [->|Hne].
      - rewrite in_app_iff. simpl. intuition.
      - intuition. }
    split; [|split].
    + intros e x. rewrite A, R1. simpl. intuition.
    + intros e. rewrite B. unfold acc1. rewrite keys_put_In. simpl. intuition.
    + intros H. apply C. unfold acc1. now apply keys_put_NoDup.
Qed.

Lemma groupByExitNode_spec (egressNodes : EgressNodes.t) (remoteName : string)
    (services : list Service) (acc : obj (list Service)) :
  let step := fun servicesByExitNode service =>
                let service := stamp remoteName service in
                if String.eqb (serviceName service) "" then servicesByExitNode
                else
                  pushToExits
                    (EgressNodes.exitsFor egressNodes (serviceName service))
                    service servicesByExitNode in
  let acc' := fold_left step services acc in
  let sent := fun e x =>
                exists service,
                  In service services
                  /\ x = stamp remoteName service
                  /\ serviceName service <> ""
                  /\ In e (EgressNodes.exitsFor egressNodes (serviceName service)) in
  (forall e x, In x (relayedTo acc' e) <-> In x (relayedTo acc e) \/ sent e x)
  /\ (forall e, In e (keys acc') <-> In e (keys acc) \/ exists x, sent e x)
  /\ (NoDup (keys acc) -> NoDup (keys acc')).
Proof.
  cbv zeta. revert acc. induction services as [|service services IH];
    intros acc; cbn [fold_left].
  - split; [|split]; [| |auto].
    + intros e x. split; [now left|]. intros [H|(sv & [] & _)]. exact H.
    + intros e. split; [now left|]. intros [H|(x & sv & [] & _)]. exact H.
  - set (acc1 := if String.eqb (serviceName (stamp remoteName service)) ""
                 then acc else _).
    destruct (IH acc1) as (A & B & C).
    assert (S1 : (forall e x, In x (relayedTo acc1 e)
                    <-> In x (relayedTo acc e)
                        \/ (x = stamp remoteName service
                            /\ serviceName service <> ""
                            /\ In e (EgressNodes.exitsFor egressNodes
                                       (serviceName service))))
                 /\ (forall e, In e (keys acc1)
                      <-> In e (keys acc)
                          \/ (serviceName service <> ""
                              /\ In e (EgressNodes.exitsFor egressNodes
                                         (serviceName service))))
                 /\ (NoDup (keys acc) -> NoDup (keys acc1))).
    { unfold acc1. cbn [serviceName stamp].
      destruct (String.eqb_spec (serviceName service) "") as [E|Hne].
      - split; [|split]; [intros; tauto|intros; tauto|auto].
      - destruct (pushToExits_spec
                    (EgressNodes.exitsFor egressNodes (serviceName service))
                    (stamp remoteName service) acc) as (P & Q & R).
        cbv zeta in *. split; [|split]; [| |exact R].
        + intros e x. rewrite P. tauto.
        + intros e. rewrite Q. tauto. }
    destruct S1 as (S1 & S2 & S3).
    split; [|split].
    + intros e x. rewrite A, S1. split.
      * intros [[H|(-> & Hne & Hin)]|(sv & Hin & Hrest)].
        -- now left.
        -- right. exists service. split; [now left|]. now split.
        -- right. exists sv. split; [now right|exact Hrest].
      * intros [H|(sv & [<-|Hin] & -> & Hne & He)].
        -- left. now left.
        -- left. right. now split.
        -- right. exists sv. now split.
    + intros e. rewrite B, S2. split.
      * intros [[H|(Hne & Hin)]|(x & sv & Hin & Hrest)].
        -- now left.
        -- right. exists (stamp remoteName service), service.
           split; [now left|]. now split.
        -- right. exists x, sv. split; [now right|exact Hrest].
      * intros [H|(x & sv & [<-|Hin] & -> & Hne & He)].
        -- left. now left.
        -- left. right. now split.
        -- right. exists (stamp remoteName sv), sv. now split.
    + intros H. apply C. now apply S3.
Qed.

(** X23.  The fan-out of an advertisement.  [sendRelays] sends one relay to
    each exit node of a named service, and no relay twice to a node; the
    relay to a node lists exactly the services that have the node among
    their exit nodes, each with the host-port of the connection set;
    a service without a name is in no relay; and the response counts the
    relays. *)
Theorem sendRelays_fans_out (egressNodes : EgressNodes.t) (remoteName : string)
    (advertised : list Service) (endpointName : string) :
  let sent := sendRelays egressNodes remoteName advertised endpointName in
  let exitOf := fun exitNode service =>
                  serviceName service <> ""
                  /\ In exitNode
                       (EgressNodes.exitsFor egressNodes (serviceName service)) in
  (forall exitNode,
     In exitNode (map (fun relay => relayHostPort (opts relay)) (relays sent))
     <-> exists service, In service advertised /\ exitOf exitNode service)
  /\ NoDup (map (fun relay => relayHostPort (opts relay)) (relays sent))
  /\ (forall relay, In relay (relays sent) ->
        endpoint (opts relay) = endpointName
        /\ forall x, In x (services relay)
                     <-> exists service,
                           In service advertised
                           /\ x = stamp remoteName service
                           /\ exitOf (relayHostPort (opts relay)) service)
  /\ connectionCount sent = Z.of_nat (List.length (relays sent))
  /\ counter sent = 1 + connectionCount sent.
Proof.
  cbv zeta. unfold sendRelays. cbn [relays connectionCount counter].
  destruct (groupByExitNode_spec egressNodes remoteName advertised [])
    as (A & B & C). cbv zeta in *.
  fold (groupByExitNode egressNodes remoteName advertised) in A, B, C.
  set (grouped := groupByExitNode egressNodes remoteName advertised) in *.
  rewrite map_map. cbn [opts relayHostPort]. rewrite map_id.
  split; [|split; [|split; [|split]]].
  - intros e. rewrite B. cbn [keys map]. split.
    + intros [[]|(x & sv & Hin & _ & Hne & He)]. exists sv. now split.
    + intros (sv & Hin & Hne & He). right.
      exists (stamp remoteName sv), sv. now split.
  - apply C. constructor.
  - intros relay Hin. apply in_map_iff in Hin.
    destruct Hin as (e & <- & He). cbn [opts services endpoint relayHostPort].
    split; [reflexivity|].
    intros x. fold (relayedTo grouped e). rewrite A. unfold relayedTo.
    cbn [get]. split.
    + intros [[]|(sv & Hin & -> & Hne & Hex)]. exists sv. now split.
    + intros (sv & Hin & -> & Hne & Hex). right. exists sv. now split.
  - now rewrite length_map.
  - reflexivity.
Qed.

(** X24.  The response of [sendRelays] waits for the relays.  [sendRelays]
    calls [onFinish] once itself and every relay calls it once when it
    has finished; of these calls only the last one gives the response,
    whatever their order. *)
Theorem sendRelays_responds_last (egressNodes : EgressNodes.t)
    (remoteName : string) (advertised : list Service) (endpointName : string) :
  let sent := sendRelays egressNodes remoteName advertised endpointName in
  let n := List.length (relays sent) in
  onFinishes (S n) (counter sent) = (repeat false n ++ [true])%list.
Proof.
  cbv zeta. unfold sendRelays. cbn [relays counter]. rewrite length_map.
  generalize (List.length (keys (groupByExitNode egressNodes remoteName advertised))).
  intros n.
  assert (H : forall calls counter, counter = 1 + Z.of_nat calls ->
                onFinishes (S calls) counter = (repeat false calls ++ [true])%list).
  { induction calls as [|calls IH]; intros counter E.
    - subst. reflexivity.
    - cbn [onFinishes repeat app] in *. unfold onFinish at 1.
      destruct (Z.eqb_spec (counter - 1) 0) as [E0|_]; [lia|].
      f_equal. apply IH. lia. }
  now apply H.
Qed.

End FanOutFacts.

(** ** The relay of advertisements: the exit node *)

Section RelayFacts.
Context {PR : Type} {prOps : PartialRange.Ops PR}.
Import ServiceProxy HyperbahnHandler.

Lemma handleRelay_ad (services : list Service) (now : Z) (s : Dispatcher PR)
    (logs : list RelayLog) :
  partialAffinityEnabled s = false ->
  (forall service, In service services ->
                   isExitFor (serviceName service) s = true) ->
  exists s',
    handleRelay "ad" services now s logs = Ok (s', logs)
    /\ (forall k h, mem h (peersOf k s) = true -> mem h (peersOf k s') = true)
    /\ (forall service, In service services ->
          mem (hostPort service) (peersOf (serviceName service) s') = true).
Proof.
  revert s. induction services as [|service services IH]; intros s Off X.
  - exists s. split; [reflexivity|]. split; [auto|intros ? []].
  - cbn [handleRelay]. cbn [String.eqb Ascii.eqb Bool.eqb andb].
    unfold advertise.
    set (s1 := refreshServicePeer (serviceName service) (hostPort service) now s).
    assert (X0 : isExitFor (serviceName service) s = true)
      by (apply X; now left).
    destruct (refreshServicePeer_result (serviceName service) (hostPort service)
                now s X0 Off) as (_ & P & _ & _ & _ & _ & _ & Off1 & _).
    cbv zeta in P, Off1. fold s1 in P, Off1.
    assert (X1 : forall sv, In sv services -> isExitFor (serviceName sv) s1 = true).
    { intros sv Hin. unfold s1.
      rewrite (sameShape_isExitFor _ _ (refreshServicePeer_shape _ _ _ _)).
      rewrite getOrCreateServiceChannel_isExitFor. apply X. now right. }
    destruct (IH s1 Off1 X1) as (s' & Hrun & Hmono & Hall).
    exists s'. split; [exact Hrun|].
    assert (Mono1 : forall k h, mem h (peersOf k s) = true ->
                                mem h (peersOf k s1) = true).
    { intros k h Hm. rewrite P.
      destruct (String.eqb_spec k (serviceName service)) as [->|]; [|exact Hm].
      destruct (mem (hostPort service) (peersOf (serviceName service) s));
        [exact Hm|].
      rewrite mem_app, Hm. reflexivity. }
    split.
    + intros k h Hm. apply Hmono, Mono1, Hm.
    + intros sv [<-|Hin]; [|now apply Hall].
      apply Hmono. rewrite P, String.eqb_refl.
      destruct (mem (hostPort service) (peersOf (serviceName service) s)) eqn:Hm;
        [exact Hm|].
      rewrite mem_app, String.eqb_refl. apply Bool.orb_true_r.
Qed.

(** X25.  A relayed advertisement registers every service of the batch.  On
    a router that is an exit for all the services of a [relay-ad], with
    partial affinity off, [handleRelay] goes through, logs no error, and
    afterwards each service of the batch has its worker among the peers
    of its channel; no peer that was in a channel is lost. *)
Theorem handleRelayAdvertise_registers_batch (services : list Service)
    (now : Z) (s : Dispatcher PR) :
  partialAffinityEnabled s = false ->
  (forall service, In service services ->
                   isExitFor (serviceName service) s = true) ->
  exists s',
    handleRelayAdvertise services now s = Ok (s', [])
    /\ (forall k h, mem h (peersOf k s) = true -> mem h (peersOf k s') = true)
    /\ (forall service, In service services ->
          mem (hostPort service) (peersOf (serviceName service) s') = true).
Proof. intros Off X. now apply handleRelay_ad. Qed.

Lemma handleRelay_other (endpointName : string) (services : list Service)
    (now : Z) (s : Dispatcher PR) (logs : list RelayLog) :
  endpointName <> "ad" -> endpointName <> "unad" ->
  handleRelay endpointName services now s logs
  = Ok (s, (logs ++ map (unexpectedEndpoint endpointName) services)%list).
Proof.
  intros N1 N2. revert logs.
  induction services as [|service services IH]; intros logs;
    cbn [handleRelay map].
  - now rewrite app_nil_r.
  - destruct (String.eqb_spec endpointName "ad"); [contradiction|].
    destruct (String.eqb_spec endpointName "unad"); [contradiction|].
    rewrite IH, <- app_assoc. reflexivity.
Qed.

(** X26.  A relay for an endpoint other than [ad] and [unad] changes
    nothing: [handleRelay] logs one error for each service, in their
    order, leaves the dispatcher as it is, and goes through to the
    response. *)
Theorem handleRelay_unexpected_endpoint (endpointName : string)
    (services : list Service) (now : Z) (s : Dispatcher PR) :
  endpointName <> "ad" -> endpointName <> "unad" ->
  handleRelay endpointName services now s []
  = Ok (s, map (unexpectedEndpoint endpointName) services).
Proof. intros N1 N2. now rewrite handleRelay_other. Qed.

End RelayFacts.

(** *** The bound of the retries is reached *)

Section SendRelayBound.

Context {Err : Type}.
Variable classify : option Err -> string.
Variable isFatal : option Err -> bool.

Import HyperbahnHandler.

(** An attempt that fails with a network or timeout error. *)
Definition failsRetryably (a : @Attempt Err) : bool :=
  match a with
  | identifyFailed err => retryable classify (Some err)
  | responded err response =>
      retryable classify err
      && negb match response with Some true => true | _ => false end
  end.

Definition isSetTimeout (e : @Event Err) : bool :=
  match e with setTimeout _ => true | _ => false end.

Lemma relayPolicy_unreachable (self : Handler) (opts : RelayOpts)
    (network : Z -> Attempt) (further : nat) (attempt : Z) :
  (forall i, failsRetryably (network i) = true) ->
  let trace := relayPolicy classify isFatal further self opts network attempt in
  attemptsMade trace = (1 + further)%nat
  /\ List.length (filter isSetTimeout trace) = further
  /\ forallb (fun e => match e with
                       | setTimeout delay => delay =? relayAdRetryTime self
                       | _ => true
                       end) trace = true.
Proof.
  intros Hfail. cbv zeta. unfold attemptsMade.
  revert attempt. induction further as [|further IH]; intros attempt;
    cbn [relayPolicy]; specialize (Hfail attempt);
    destruct (network attempt) as [err|err response];
    cbn [attemptEvents failsRetryably] in *.
  - repeat split.
  - apply Bool.andb_true_iff in Hfail. destruct Hfail as [_ Hr].
    destruct response as [[|]|]; try discriminate; repeat split.
  - rewrite Hfail. destruct (IH (attempt + 1)) as (A & B & C).
    cbn [app filter isAttempt isSetTimeout List.length forallb].
    rewrite A, B, C, Z.eqb_refl. repeat split.
  - apply Bool.andb_true_iff in Hfail. destruct Hfail as [He Hr].
    rewrite He. destruct (IH (attempt + 1)) as (A & B & C).
    destruct response as [[|]|]; try discriminate;
      cbn [app filter isAttempt isSetTimeout List.length forallb];
      rewrite A, B, C, Z.eqb_refl; repeat split.
Qed.

(** X27.  The bound of the retries is reached.  When every attempt fails
    with an error classified as [NetworkError] or [Timeout], [sendRelay]
    makes one attempt and [maxRelayAdAttempts] further ones, no fewer,
    each further one after a timeout of [relayAdRetryTime]. *)
Theorem sendRelay_retries_to_the_bound (self : Handler) (opts : RelayOpts)
    (network : Z -> Attempt) :
  (forall i, failsRetryably (network i) = true) ->
  exists trace,
    sendRelay classify isFatal self opts network = Some trace
    /\ attemptsMade trace = (1 + Z.to_nat (maxRelayAdAttempts self))%nat
    /\ List.length (filter isSetTimeout trace)
       = Z.to_nat (maxRelayAdAttempts self)
    /\ forallb (fun e => match e with
                         | setTimeout delay => delay =? relayAdRetryTime self
                         | _ => true
                         end) trace = true.
Proof.
  intros Hfail. eexists. split.
  - unfold sendRelay. apply tryRequest_relayPolicy. f_equal. lia.
  - now apply relayPolicy_unreachable.
Qed.

End SendRelayBound.

(** The handler with the option [maxRelayAdAttempts: 0], which the
    constructor replaces by the default 2, and an exit node that cannot be
    identified: three attempts, two timeouts of one second. *)
Lemma sendRelay_retries_to_the_bound_witness :
  let self :=
    HyperbahnHandler.HyperbahnHandler "autobahn"
      {| HyperbahnHandler.opt_relayAdTimeout := None;
         HyperbahnHandler.opt_relayAdRetryTime := None;
         HyperbahnHandler.opt_maxRelayAdAttempts := Some 0 |} in
  let opts := {| HyperbahnHandler.relayHostPort := "10.0.0.2:21300";
                 HyperbahnHandler.endpoint := "relay-ad" |} in
  let classify := fun _ : option unit => "NetworkError" in
  let isFatal := fun _ : option unit => false in
  let network := fun _ : Z => HyperbahnHandler.identifyFailed tt in
  exists trace,
    HyperbahnHandler.sendRelay classify isFatal self opts network = Some trace
    /\ HyperbahnHandler.attemptsMade trace = 3%nat
    /\ List.length (filter isSetTimeout trace) = 2%nat
    /\ forallb (fun e => match e with
                         | HyperbahnHandler.setTimeout delay => delay =? 1000
                         | _ => true
                         end) trace = true.
Proof.
  intros self opts classify isFatal network.
  apply (sendRelay_retries_to_the_bound classify isFatal self opts network).
  intros i. reflexivity.
Defined.

(** A relay with the services [steve] and [bob] of one worker. *)
Lemma handleRelayAdvertise_registers_batch_witness :
  let services :=
    [ {| HyperbahnHandler.serviceName := "steve"; HyperbahnHandler.cost := 0;
         HyperbahnHandler.hostPort := Scenario.worker |};
      {| HyperbahnHandler.serviceName := "bob"; HyperbahnHandler.cost := 0;
         HyperbahnHandler.hostPort := Scenario.worker |} ] in
  exists s',
    HyperbahnHandler.handleRelayAdvertise services 1000 Scenario.router
    = ServiceProxy.Ok (s', [])
    /\ mem Scenario.worker (ServiceProxy.peersOf "steve" s') = true
    /\ mem Scenario.worker (ServiceProxy.peersOf "bob" s') = true.
Proof.
  intros services.
  destruct (handleRelayAdvertise_registers_batch services 1000 Scenario.router)
    as (s' & Hrun & _ & Hall).
  - reflexivity.
  - intros service [<-|[<-|[]]]; reflexivity.
  - exists s'. split; [exact Hrun|]. split.
    + apply (Hall {| HyperbahnHandler.serviceName := "steve";
                     HyperbahnHandler.cost := 0;
                     HyperbahnHandler.hostPort := Scenario.worker |}).
      now left.
    + apply (Hall {| HyperbahnHandler.serviceName := "bob";
                     HyperbahnHandler.cost := 0;
                     HyperbahnHandler.hostPort := Scenario.worker |}).
      right. now left.
Defined.

(** A relay that names the endpoint [relay-ad] instead of [ad]. *)
Lemma handleRelay_unexpected_endpoint_witness :
  let service :=
    {| HyperbahnHandler.serviceName := "steve"; HyperbahnHandler.cost := 0;
       HyperbahnHandler.hostPort := Scenario.worker |} in
  HyperbahnHandler.handleRelay "relay-ad" [service] 1000 Scenario.router []
  = ServiceProxy.Ok
      (Scenario.router,
       [HyperbahnHandler.unexpectedEndpoint "relay-ad" service]).
Proof.
  intros service.
  apply (handleRelay_unexpected_endpoint "relay-ad" [service] 1000
           Scenario.router); discriminate.
Defined.

(** ** The peer reaper: the peers it leaves alone *)

Section ReaperFrameFacts.
Context {PR : Type} {prOps : PartialRange.Ops PR}.
Import ServiceProxy.

(** A step that leaves the peer of [hostPort] as it is, in the peer table
    and in the sub-channels. *)
Definition spares (hostPort : string) (s s' : Dispatcher PR) : Prop :=
  get hostPort (peers s') = get hostPort (peers s)
  /\ forall k, mem hostPort (peersOf k s') = mem hostPort (peersOf k s).

Lemma spares_refl (hostPort : string) (s : Dispatcher PR) : spares hostPort s s.
Proof. now split. Qed.

Lemma spares_trans (hostPort : string) (s1 s2 s3 : Dispatcher PR) :
  spares hostPort s1 s2 -> spares hostPort s2 s3 -> spares hostPort s1 s3.
Proof.
  intros [A1 B1] [A2 B2]. split; [congruence|].
  intros k. now rewrite B2, B1.
Qed.

Lemma spares_fields (hostPort : string) (s s' : Dispatcher PR) :
  peers s' = peers s -> subChannels s' = subChannels s -> spares hostPort s s'.
Proof.
  intros P C. split; [now rewrite P|]. intros k. unfold peersOf. now rewrite C.
Qed.

Lemma withPeer_spares (hostPort h : string) (f : Peer -> Peer)
    (s : Dispatcher PR) :
  h <> hostPort -> spares hostPort s (withPeer h f s).
Proof.
  intros Hne. split.
  - rewrite withPeer_get.
    destruct (String.eqb_spec hostPort h); [congruence|reflexivity].
  - intros k. unfold peersOf. now rewrite withPeer_set.
Qed.

Lemma subPeers_delete_spares (hostPort name h : string) (s : Dispatcher PR) :
  h <> hostPort -> spares hostPort s (subPeers_delete name h s).
Proof.
  intros Hne. unfold subPeers_delete. split.
  - now rewrite withChannel_set.
  - intros k. rewrite peersOf_withChannel.
    destruct (String.eqb_spec k name) as [->|]; [|reflexivity].
    unfold peersOf. destruct (get name (subChannels s)) as [c|]; [|reflexivity].
    cbn [chanPeers set_chanPeers]. rewrite mem_remove.
    destruct (String.eqb_spec hostPort h); [congruence|reflexivity].
Qed.

Lemma reapService_spares (hostPort serviceName h : string) (now : Z)
    (s : Dispatcher PR) :
  h <> hostPort ->
  spares hostPort s (stateOf (reapService serviceName h now s)).
Proof.
  intros Hne. unfold reapService.
  set (s1 := if has serviceName (subChannels s) then _ else s).
  assert (B1 : spares hostPort s s1).
  { unfold s1. destruct (has serviceName (subChannels s));
      [now apply subPeers_delete_spares|apply spares_refl]. }
  set (s2 := deletePeerIndex serviceName h s1).
  assert (B2 : spares hostPort s s2).
  { eapply spares_trans; [exact B1|]. unfold s2, deletePeerIndex.
    destruct (partialAffinityEnabled s1); now apply spares_fields. }
  destruct (get serviceName (partialRanges s2)); cbn [stateOf]; [|exact B2].
  eapply spares_trans; [exact B2|now apply spares_fields].
Qed.

Lemma reapServices_spares (hostPort h : string) (fuel : nat) (i : Z)
    (serviceNames : ServiceNames) (now : Z) (s : Dispatcher PR) :
  h <> hostPort ->
  spares hostPort s (stateOf (reapServices fuel i serviceNames h now s)).
Proof.
  intros Hne. revert i s. induction fuel as [|fuel IH]; intros i s;
    cbn [reapServices]; [apply spares_refl|].
  pose proof (reapService_spares hostPort (namesKey serviceNames i) h now s Hne)
    as B.
  destruct (reapService (namesKey serviceNames i) h now s) as [s'|m s'];
    cbn [stateOf] in *; [|exact B].
  eapply spares_trans; [exact B|apply IH].
Qed.

Lemma reapSinglePeer_spares (hostPort h : string) (serviceNames : ServiceNames)
    (now : Z) (s : Dispatcher PR) :
  h <> hostPort ->
  spares hostPort s (stateOf (reapSinglePeer h serviceNames now s)).
Proof.
  intros Hne. unfold reapSinglePeer.
  destruct (has h (knownPeers s)); [apply spares_refl|].
  destruct (get h (peers s)) as [peer|]; [|apply spares_refl].
  assert (R : forall s0, spares hostPort s s0 ->
              spares hostPort s
                (stateOf
                   match reapServices (reapServicesBound serviceNames) 0
                           serviceNames h now s0 with
                   | Ok s'' =>
                       Ok (drain h
                             {| goal := DRAIN_GOAL_CLOSE_PEER;
                                reason := "reaped for expired advertisement";
                                direction := DirBoth;
                                timeout := drainTimeout s'';
                                callback := reapThenDeleteIt h |} s'')
                   | Throw message s'' => Throw message s''
                   end)).
  { intros s0 B0.
    pose proof (reapServices_spares hostPort h (reapServicesBound serviceNames)
                  0 serviceNames now s0 Hne) as B.
    destruct (reapServices _ 0 serviceNames h now s0) as [s''|m s''];
      cbn [stateOf] in *.
    - eapply spares_trans; [exact B0|].
      eapply spares_trans; [exact B|]. now apply withPeer_spares.
    - eapply spares_trans; eassumption. }
  destruct (draining peer) as [d|]; [|apply R, spares_refl].
  destruct (String.prefix "peer pruned" (reason d));
    [|apply spares_refl].
  apply R. now apply withPeer_spares.
Qed.

Lemma has_false_keys {V : Type} (k : string) (o : obj V) :
  has k o = false -> forall kv, In kv o -> fst kv <> k.
Proof.
  unfold has. induction o as [|[k0 v0] o IH]; simpl; [intros _ ? []|].
  destruct (String.eqb_spec k k0) as [->|Hne]; [discriminate|].
  intros H kv [<-|Hin]; [simpl; congruence|now apply IH].
Qed.

Lemma scanEach_reap_spares (hostPort : string) (now : Z)
    (collection : obj (obj Z)) (s : Dispatcher PR) :
  (forall kv, In kv collection -> fst kv <> hostPort) ->
  spares hostPort s
    (stateOf
       (scanEach
          (fun h level s' => reapSinglePeer h (NamesLevel level) now s')
          collection s)).
Proof.
  revert s. induction collection as [|[h level] collection IH]; intros s Hk;
    cbn [scanEach]; [apply spares_refl|].
  assert (Hne : h <> hostPort) by (apply (Hk (h, level)); now left).
  pose proof (reapSinglePeer_spares hostPort h (NamesLevel level) now s Hne) as B.
  destruct (reapSinglePeer h (NamesLevel level) now s) as [s'|m s'];
    cbn [stateOf] in *; [|exact B].
  eapply spares_trans; [exact B|]. apply IH.
  intros kv Hin. apply Hk. now right.
Qed.

Lemma peerReaper_run_spares (hostPort : string) (now : Z) (s : Dispatcher PR) :
  has hostPort (peersToReap s) = false ->
  spares hostPort s (stateOf (peerReaper_run now s)).
Proof.
  intros H. unfold peerReaper_run, getPeersToReap.
  eapply spares_trans; [|apply scanEach_reap_spares, has_false_keys, H].
  now apply spares_fields.
Qed.

(** X28.  The reaper touches listed peers only.  A peer that is not a key of
    [peersToReap] comes out of a tick of the reaper as it went in: the
    same peer in the peer table, not draining unless it was, and in the
    same sub-channels; this also holds for the state that a tick leaves
    when it throws. *)
Theorem peerReaper_run_spares_unlisted_peer (hostPort : string) (now : Z)
    (s : Dispatcher PR) :
  has hostPort (peersToReap s) = false ->
  let s' := stateOf (peerReaper_run now s) in
  get hostPort (peers s') = get hostPort (peers s)
  /\ forall k, mem hostPort (peersOf k s') = mem hostPort (peersOf k s).
Proof. intros H. now apply peerReaper_run_spares. Qed.

(** X29.  A worker that advertises again is spared.  A worker that waits in
    [peersToReap] for the one service it advertised, and advertises that
    service again, is out of [peersToReap]; the next tick of the reaper
    leaves its peer connected, not reaped, and among the peers of the
    service channel. *)
Theorem readvertised_worker_survives_tick (serviceName hostPort : string)
    (now now' : Z) (s : Dispatcher PR) :
  isExitFor serviceName s = true ->
  partialAffinityEnabled s = false ->
  match get hostPort (peersToReap s) with
  | Some level => exists stamp, level = [(serviceName, stamp)] /\ stamp <> 0
  | None => True
  end ->
  let advertised := refreshServicePeer serviceName hostPort now s in
  let ticked := stateOf (peerReaper_run now' advertised) in
  has hostPort (peersToReap advertised) = false
  /\ get hostPort (peers ticked) = get hostPort (peers advertised)
  /\ mem hostPort (peersOf serviceName ticked) = true.
Proof.
  intros X Off Hlevel. cbv zeta.
  destruct (refreshServicePeer_result serviceName hostPort now s X Off)
    as (_ & P & _ & _ & R & _).
  cbv zeta in *.
  set (advertised := refreshServicePeer serviceName hostPort now s) in *.
  assert (H : has hostPort (peersToReap advertised) = false).
  { rewrite R. unfold has, deleteIndexEntry.
    destruct (get hostPort (peersToReap s)) as [level|] eqn:G; [|now rewrite G].
    destruct Hlevel as (stamp & -> & Hs). cbn [get].
    rewrite String.eqb_refl. unfold truthy.
    destruct (Z.eqb_spec stamp 0); [contradiction|]. cbn [negb].
    unfold del at 1. cbn [filter fst]. rewrite String.eqb_refl.
    cbn [negb isObjectEmpty]. now rewrite get_del_same. }
  split; [exact H|].
  destruct (peerReaper_run_spares hostPort now' advertised H) as [A B].
  split; [exact A|]. rewrite B, P, String.eqb_refl.
  destruct (mem hostPort (peersOf serviceName s)) eqn:Hm; [exact Hm|].
  rewrite mem_app, String.eqb_refl. apply Bool.orb_true_r.
Qed.

End ReaperFrameFacts.

(** The first tick after the advertisement: the worker is known, and not
    listed in [peersToReap]. *)
Lemma peerReaper_run_spares_unlisted_peer_witness :
  let s' := ServiceProxy.stateOf
              (ServiceProxy.peerReaper_run 2000 Scenario.advertised) in
  get Scenario.worker (ServiceProxy.peers s')
  = get Scenario.worker (ServiceProxy.peers Scenario.advertised)
  /\ mem Scenario.worker (ServiceProxy.peersOf "steve" s') = true.
Proof.
  intros s'.
  destruct (peerReaper_run_spares_unlisted_peer Scenario.worker 2000
              Scenario.advertised) as [A B].
  - reflexivity.
  - split; [exact A|]. fold s' in B. rewrite B. reflexivity.
Defined.

(** The silent worker of the scenario advertises again at the time 2500,
    before the tick at the time 3000. *)
Lemma readvertised_worker_survives_tick_witness :
  let advertised :=
    ServiceProxy.refreshServicePeer "steve" Scenario.worker 2500
      Scenario.silent in
  let ticked := ServiceProxy.stateOf (ServiceProxy.peerReaper_run 3000 advertised) in
  has Scenario.worker (ServiceProxy.peersToReap advertised) = false
  /\ get Scenario.worker (ServiceProxy.peers ticked)
     = get Scenario.worker (ServiceProxy.peers advertised)
  /\ mem Scenario.worker (ServiceProxy.peersOf "steve" ticked) = true.
Proof.
  refine (readvertised_worker_survives_tick "steve" Scenario.worker 2500 3000
            Scenario.silent _ _ _).
  - vm_compute. reflexivity.
  - vm_compute. reflexivity.
  - vm_compute. exists 1000. split; [reflexivity|discriminate].
Defined.

(** ** Membership changes: the peers of the service channels *)

Section MembershipFacts.
Context {PR : Type} {prOps : PartialRange.Ops PR}.
Import ServiceProxy.

(** A step that works on the sub-channel [n]: it registers and removes no
    sub-channel, leaves every other sub-channel as it is, and leaves
    [relaysFor], the ring view and the affinity switch alone. *)
Definition touchesChannel (n : string) (s s' : Dispatcher PR) : Prop :=
  keys (subChannels s') = keys (subChannels s)
  /\ (forall k, k <> n -> get k (subChannels s') = get k (subChannels s))
  /\ relaysFor s' = relaysFor s
  /\ egressNodes s' = egressNodes s
  /\ partialAffinityEnabled s' = partialAffinityEnabled s.

Lemma touchesChannel_refl (n : string) (s : Dispatcher PR) : touchesChannel n s s.
Proof. repeat split. Qed.

Lemma touchesChannel_trans (n : string) (s1 s2 s3 : Dispatcher PR) :
  touchesChannel n s1 s2 -> touchesChannel n s2 s3 -> touchesChannel n s1 s3.
Proof.
  intros (A1 & B1 & C1 & D1 & E1) (A2 & B2 & C2 & D2 & E2).
  repeat split; try congruence.
  intros k Hne. now rewrite B2, B1.
Qed.

Lemma touchesChannel_fields (n : string) (s s' : Dispatcher PR) :
  subChannels s' = subChannels s -> relaysFor s' = relaysFor s ->
  egressNodes s' = egressNodes s ->
  partialAffinityEnabled s' = partialAffinityEnabled s ->
  touchesChannel n s s'.
Proof. intros A B C D. repeat split; try assumption; now rewrite A. Qed.

Lemma has_keys {V : Type} (k : string) (o : obj V) :
  has k o = existsb (String.eqb k) (keys o).
Proof.
  unfold has. induction o as [|[k0 v0] o IH]; simpl; [reflexivity|].
  destruct (String.eqb k k0); [reflexivity|exact IH].
Qed.

Lemma touchesChannel_has (n : string) (s s' : Dispatcher PR) (k : string) :
  touchesChannel n s s' -> has k (subChannels s') = has k (subChannels s).
Proof. intros (A & _). now rewrite !has_keys, A. Qed.

Lemma withPeer_touchesChannel (n hostPort : string) (f : Peer -> Peer)
    (s : Dispatcher PR) :
  touchesChannel n s (withPeer hostPort f s).
Proof. rewrite withPeer_set. now apply touchesChannel_fields. Qed.

Lemma withChannel_touchesChannel (n : string) (f : SubChannel -> SubChannel)
    (s : Dispatcher PR) :
  touchesChannel n s (withChannel n f s).
Proof.
  rewrite withChannel_set.
  destruct (get n (subChannels s)) as [c|] eqn:G;
    [|now apply touchesChannel_fields].
  repeat split; cbn [subChannels set_subChannels].
  - now apply keys_put_existing with (v' := c).
  - intros k Hne. now apply get_put_other.
Qed.

Lemma subPeers_add_touchesChannel (n hostPort : string) (s : Dispatcher PR) :
  touchesChannel n s (subPeers_add n hostPort s).
Proof.
  unfold subPeers_add.
  eapply touchesChannel_trans; [|apply withChannel_touchesChannel].
  destruct (has hostPort (peers s));
    [apply touchesChannel_refl|now apply touchesChannel_fields].
Qed.

Lemma _getServicePeer_touchesChannel (n hostPort : string) (s : Dispatcher PR) :
  touchesChannel n s (_getServicePeer n hostPort s).
Proof.
  unfold _getServicePeer.
  eapply touchesChannel_trans; [|apply withPeer_touchesChannel].
  destruct (subPeers_get n hostPort s);
    [apply touchesChannel_refl|apply subPeers_add_touchesChannel].
Qed.

Lemma fold_left_touchesChannel {A : Type} (n : string)
    (step : Dispatcher PR -> A -> Dispatcher PR) (l : list A)
    (s s1 : Dispatcher PR) :
  touchesChannel n s s1 ->
  (forall s' a, touchesChannel n s' (step s' a)) ->
  touchesChannel n s (fold_left step l s1).
Proof.
  intros H Hstep. revert s1 H. induction l as [|a l IH]; intros s1 H; simpl.
  - exact H.
  - apply IH. eapply touchesChannel_trans; [exact H|apply Hstep].
Qed.

Lemma ensurePeerConnected_touchesChannel (n serviceName hostPort : string)
    (now : Z) (s : Dispatcher PR) :
  touchesChannel n s (ensurePeerConnected serviceName hostPort now s).
Proof.
  unfold ensurePeerConnected.
  set (s1 := if partialAffinityEnabled s then _ else s).
  assert (B1 : touchesChannel n s s1).
  { unfold s1. destruct (partialAffinityEnabled s);
      [now apply touchesChannel_fields|apply touchesChannel_refl]. }
  set (s2 := set_peersToPrune _ s1).
  assert (B2 : touchesChannel n s s2).
  { eapply touchesChannel_trans; [exact B1|now apply touchesChannel_fields]. }
  destruct (get hostPort (peers s2)) as [peer|]; [|exact B2].
  destruct (connectedOut peer); [exact B2|].
  eapply touchesChannel_trans; [exact B2|].
  eapply touchesChannel_trans; [|apply withPeer_touchesChannel].
  destruct (draining peer);
    [apply withPeer_touchesChannel|apply touchesChannel_refl].
Qed.

Lemma ensurePeerDisconnected_touchesChannel (n serviceName hostPort reason : string)
    (now : Z) (s : Dispatcher PR) :
  touchesChannel n s (ensurePeerDisconnected serviceName hostPort reason now s).
Proof.
  unfold ensurePeerDisconnected.
  set (s1 := if partialAffinityEnabled s then _ else s).
  assert (B1 : touchesChannel n s s1).
  { unfold s1. destruct (partialAffinityEnabled s);
      [now apply touchesChannel_fields|apply touchesChannel_refl]. }
  destruct (get hostPort (connectedPeerServices s1)) as [[|? ?]|];
    try exact B1;
    (eapply touchesChannel_trans; [exact B1|now apply touchesChannel_fields]).
Qed.

Lemma getOrCreateServiceChannel_has (n : string) (s : Dispatcher PR) :
  has n (subChannels s) = true -> getOrCreateServiceChannel n s = s.
Proof.
  intros H. unfold getOrCreateServiceChannel, getServiceChannel. now rewrite H.
Qed.

Lemma getPartialRange_touchesChannel (n : string) (now : Z) (s : Dispatcher PR) :
  has n (subChannels s) = true ->
  touchesChannel n s (fst (getPartialRange n now s)).
Proof.
  intros Hreg. unfold getPartialRange.
  destruct (get n (partialRanges s)) as [partialRange|].
  - destruct (PartialRange.isValid partialRange); apply touchesChannel_refl.
  - rewrite (getOrCreateServiceChannel_has n s Hreg).
    match goal with
    | |- context [PartialRange.isValid ?r] => destruct (PartialRange.isValid r)
    end; now apply touchesChannel_fields.
Qed.

Lemma ensurePartialConnections_touchesChannel (n reason : string) (now : Z)
    (s : Dispatcher PR) :
  has n (subChannels s) = true ->
  touchesChannel n s (fst (ensurePartialConnections n reason now s)).
Proof.
  intros Hreg. unfold ensurePartialConnections.
  pose proof (getPartialRange_touchesChannel n now s Hreg) as B1.
  destruct (getPartialRange n now s) as [s1 [partialRange|]];
    cbn [fst] in B1 |- *; [|exact B1].
  set (affine := PartialRange.affineWorkers partialRange).
  set (s2 := fold_left (fun s' worker => _getServicePeer n worker s') affine s1).
  assert (B2 : touchesChannel n s s2).
  { apply fold_left_touchesChannel; [exact B1|].
    intros. apply _getServicePeer_touchesChannel. }
  set (toDisconnect := filter _ _).
  assert (B4 : touchesChannel n s
    (fold_left
       (fun s' worker =>
          ensurePeerDisconnected n worker "service peer affinity change" now
            (_getServicePeer n worker s'))
       toDisconnect
       (fold_left
          (fun s' worker =>
             ensurePeerConnected n worker now (_getServicePeer n worker s'))
          affine s2))).
  { apply fold_left_touchesChannel;
      [apply fold_left_touchesChannel; [exact B2|]|]; intros s' a.
    - eapply touchesChannel_trans;
        [apply _getServicePeer_touchesChannel
        |apply ensurePeerConnected_touchesChannel].
    - eapply touchesChannel_trans;
        [apply _getServicePeer_touchesChannel
        |apply ensurePeerDisconnected_touchesChannel]. }
  destruct affine; destruct toDisconnect; cbn [fst]; assumption.
Qed.

Lemma changeToExit_touchesChannel (n : string) (s : Dispatcher PR) :
  touchesChannel n s (changeToExit n s).
Proof.
  unfold changeToExit, subPeers_clear.
  eapply touchesChannel_trans; apply withChannel_touchesChannel.
Qed.

Lemma changeToForward_touchesChannel (exitNodes : list string) (n : string)
    (now : Z) (s : Dispatcher PR) :
  touchesChannel n s (changeToForward exitNodes n now s).
Proof.
  unfold changeToForward.
  apply fold_left_touchesChannel;
    [apply fold_left_touchesChannel|]; try (intros s' a).
  - unfold subPeers_clear.
    eapply touchesChannel_trans; apply withChannel_touchesChannel.
  - apply ensurePeerDisconnected_touchesChannel.
  - apply _getServicePeer_touchesChannel.
Qed.

Lemma updateExitNodes_touchesChannel (exitNodes : list string) (n : string)
    (s : Dispatcher PR) :
  touchesChannel n s (updateExitNodes exitNodes n s).
Proof.
  unfold updateExitNodes.
  apply fold_left_touchesChannel;
    [apply fold_left_touchesChannel; [apply touchesChannel_refl|]|];
    intros s' a.
  - destruct (mem a exitNodes); [apply touchesChannel_refl|].
    unfold subPeers_delete. apply withChannel_touchesChannel.
  - apply _getServicePeer_touchesChannel.
Qed.

Lemma updateServiceNodes_touchesChannel (n : string) (now : Z)
    (s : Dispatcher PR) :
  has n (subChannels s) = true ->
  touchesChannel n s (updateServiceNodes n now s).
Proof.
  intros Hreg. unfold updateServiceNodes.
  destruct (partialAffinityEnabled s);
    [now apply ensurePartialConnections_touchesChannel
    |apply touchesChannel_refl].
Qed.

(** *** The peers of the channel that is reconciled *)

Lemma peersOf_changeToExit (n : string) (s : Dispatcher PR) :
  peersOf n (changeToExit n s) = [].
Proof.
  unfold changeToExit, subPeers_clear.
  rewrite peersOf_withChannel, String.eqb_refl.
  now destruct (get n (subChannels (withChannel n _ s))).
Qed.

Lemma peersOf_changeToForward (exitNodes : list string) (n : string) (now : Z)
    (s : Dispatcher PR) (h : string) :
  has n (subChannels s) = true ->
  mem h (peersOf n (changeToForward exitNodes n now s)) = mem h exitNodes.
Proof.
  intros Hreg. unfold changeToForward.
  set (s1 := withChannel n (set_serviceProxyMode (Some forward)) s).
  set (s2 := subPeers_clear n s1).
  set (s3 := fold_left _ (peersOf n s1) s2).
  assert (T2 : touchesChannel n s s2).
  { unfold s2, s1, subPeers_clear.
    eapply touchesChannel_trans; apply withChannel_touchesChannel. }
  assert (P2 : peersOf n s2 = []).
  { unfold s2, subPeers_clear. rewrite peersOf_withChannel, String.eqb_refl.
    now destruct (get n (subChannels s1)). }
  assert (T3 : subChannels s3 = subChannels s2).
  { unfold s3. generalize (peersOf n s1) as l. generalize s2 as s0.
    intros s0 l. revert s0. induction l as [|x l IH]; intros s0;
      cbn [fold_left]; [reflexivity|].
    rewrite IH. unfold ensurePeerDisconnected.
    destruct (partialAffinityEnabled s0); cbn;
      match goal with
      | |- context [match ?x with _ => _ end] => destruct x as [[|? ?]|]
      end; reflexivity. }
  assert (H3 : has n (subChannels s3) = true).
  { rewrite T3, (touchesChannel_has n s s2 n T2). exact Hreg. }
  destruct (addPeers_result n exitNodes s3 H3) as (A & _).
  cbv zeta in A. rewrite A.
  unfold peersOf at 1. rewrite T3. fold (peersOf n s2). now rewrite P2.
Qed.

Lemma dropOld_result (exitNodes : list string) (n : string) (l : list string)
    (s : Dispatcher PR) :
  let s' := fold_left
              (fun s' oldName =>
                 if mem oldName exitNodes then s'
                 else subPeers_delete n oldName s') l s in
  (forall h, mem h (peersOf n s')
             = mem h (peersOf n s) && negb (mem h l && negb (mem h exitNodes)))
  /\ touchesChannel n s s'.
Proof.
  cbv zeta. revert s. induction l as [|x l IH]; intros s; cbn [fold_left].
  - split; [intros h; cbn; now rewrite Bool.andb_true_r|apply touchesChannel_refl].
  - set (s1 := if mem x exitNodes then s else subPeers_delete n x s).
    destruct (IH s1) as (A & T).
    assert (P1 : forall h, mem h (peersOf n s1)
                   = mem h (peersOf n s)
                     && negb (String.eqb h x && negb (mem h exitNodes))).
    { intros h. unfold s1. destruct (mem x exitNodes) eqn:Mx.
      - destruct (String.eqb_spec h x) as [->|]; cbn;
          [rewrite Mx|]; now rewrite Bool.andb_true_r.
      - unfold subPeers_delete. rewrite peersOf_withChannel, String.eqb_refl.
        unfold peersOf. destruct (get n (subChannels s)) as [c|];
          [|reflexivity].
        cbn [chanPeers set_chanPeers]. rewrite mem_remove.
        destruct (String.eqb_spec h x) as [->|]; cbn;
          [now rewrite Mx, Bool.andb_false_r|now rewrite Bool.andb_true_r]. }
    assert (T1 : touchesChannel n s s1).
    { unfold s1. destruct (mem x exitNodes); [apply touchesChannel_refl|].
      unfold subPeers_delete. apply withChannel_touchesChannel. }
    split; [|eapply touchesChannel_trans; eassumption].
    intros h. rewrite A, P1.
    change (mem h (x :: l)) with (String.eqb h x || mem h l).
    destruct (mem h (peersOf n s)), (String.eqb h x), (mem h l),
      (mem h exitNodes); reflexivity.
Qed.

Lemma peersOf_updateExitNodes (exitNodes : list string) (n : string)
    (s : Dispatcher PR) (h : string) :
  has n (subChannels s) = true ->
  mem h (peersOf n (updateExitNodes exitNodes n s)) = mem h exitNodes.
Proof.
  intros Hreg. unfold updateExitNodes.
  destruct (dropOld_result exitNodes n (peersOf n s) s) as (A & T).
  cbv zeta in A, T.
  set (s1 := fold_left _ (peersOf n s) s) in *.
  assert (H1 : has n (subChannels s1) = true)
    by (rewrite (touchesChannel_has n s s1 n T); exact Hreg).
  destruct (addPeers_result n exitNodes s1 H1) as (B & _).
  cbv zeta in B. rewrite B, A.
  destruct (mem h (peersOf n s)), (mem h exitNodes); reflexivity.
Qed.

(** What [updateServiceChannel] leaves in the channel it works on, and
    around it. *)
Lemma updateServiceChannel_result (n : string) (now : Z) (s : Dispatcher PR)
    (m : Mode) :
  modeOf n s = Some m ->
  let s' := updateServiceChannel n now s in
  let exitNodes := EgressNodes.exitsFor (egressNodes s) n in
  keys (subChannels s') = keys (subChannels s)
  /\ (forall k, k <> n -> get k (subChannels s') = get k (subChannels s))
  /\ relaysFor s' = put n (sort exitNodes) (relaysFor s)
  /\ egressNodes s' = egressNodes s
  /\ partialAffinityEnabled s' = partialAffinityEnabled s
  /\ (if EgressNodes.isExitFor (egressNodes s) n
      then match m with
           | forward => peersOf n s' = []
           | exit => partialAffinityEnabled s = false -> peersOf n s' = peersOf n s
           end
      else forall h, mem h (peersOf n s') = mem h exitNodes).
Proof.
  intros M. cbv zeta.
  assert (Hreg : has n (subChannels s) = true).
  { unfold modeOf in M. unfold has. now destruct (get n (subChannels s)). }
  unfold updateServiceChannel.
  set (exitNodes := EgressNodes.exitsFor (egressNodes s) n).
  set (s1 := set_relaysFor (put n (sort exitNodes) (relaysFor s)) s).
  change (egressNodes s1) with (egressNodes s).
  change (partialAffinityEnabled s1) with (partialAffinityEnabled s).
  assert (W : forall s2 s',
             subChannels s2 = subChannels s1 -> relaysFor s2 = relaysFor s1 ->
             egressNodes s2 = egressNodes s1 ->
             partialAffinityEnabled s2 = partialAffinityEnabled s1 ->
             touchesChannel n s2 s' ->
             keys (subChannels s') = keys (subChannels s)
             /\ (forall k, k <> n -> get k (subChannels s') = get k (subChannels s))
             /\ relaysFor s' = put n (sort exitNodes) (relaysFor s)
             /\ egressNodes s' = egressNodes s
             /\ partialAffinityEnabled s' = partialAffinityEnabled s).
  { intros s2 s' C R E A (T1 & T2 & T3 & T4 & T5).
    repeat split.
    - rewrite T1, C. reflexivity.
    - intros k Hne. rewrite (T2 k Hne), C. reflexivity.
    - rewrite T3, R. reflexivity.
    - rewrite T4, E. reflexivity.
    - rewrite T5, A. reflexivity. }
  destruct (EgressNodes.isExitFor (egressNodes s) n) eqn:X.
  - set (s2 := if partialAffinityEnabled s then _ else s1).
    assert (F2 : subChannels s2 = subChannels s1 /\ relaysFor s2 = relaysFor s1
                 /\ egressNodes s2 = egressNodes s1
                 /\ partialAffinityEnabled s2 = partialAffinityEnabled s1).
    { unfold s2. destruct (partialAffinityEnabled s); [|now repeat split].
      destruct (get n (partialRanges s1)); now repeat split. }
    destruct F2 as (C2 & R2 & E2 & A2).
    assert (M2 : modeOf n s2 = Some m) by (unfold modeOf; now rewrite C2).
    assert (H2 : has n (subChannels s2) = true) by now rewrite C2.
    rewrite M2. destruct m.
    + pose proof (updateServiceNodes_touchesChannel n now s2 H2) as T.
      destruct (W s2 _ C2 R2 E2 A2 T) as (W1 & W2 & W3 & W4 & W5).
      repeat split; try assumption.
      intros Off. unfold updateServiceNodes. rewrite A2.
      change (partialAffinityEnabled s1) with (partialAffinityEnabled s).
      rewrite Off. unfold peersOf. now rewrite C2.
    + pose proof (changeToExit_touchesChannel n s2) as T.
      destruct (W s2 _ C2 R2 E2 A2 T) as (W1 & W2 & W3 & W4 & W5).
      repeat split; try assumption. apply peersOf_changeToExit.
  - set (s2 := if partialAffinityEnabled s then _ else s1).
    assert (F2 : subChannels s2 = subChannels s1 /\ relaysFor s2 = relaysFor s1
                 /\ egressNodes s2 = egressNodes s1
                 /\ partialAffinityEnabled s2 = partialAffinityEnabled s1).
    { unfold s2. destruct (partialAffinityEnabled s); now repeat split. }
    destruct F2 as (C2 & R2 & E2 & A2).
    assert (M2 : modeOf n s2 = Some m) by (unfold modeOf; now rewrite C2).
    assert (H2 : has n (subChannels s2) = true) by now rewrite C2.
    rewrite M2. destruct m.
    + pose proof (changeToForward_touchesChannel exitNodes n now s2) as T.
      destruct (W s2 _ C2 R2 E2 A2 T) as (W1 & W2 & W3 & W4 & W5).
      repeat split; try assumption.
      intros h. now apply peersOf_changeToForward.
    + pose proof (updateExitNodes_touchesChannel exitNodes n s2) as T.
      destruct (W s2 _ C2 R2 E2 A2 T) as (W1 & W2 & W3 & W4 & W5).
      repeat split; try assumption.
      intros h. now apply peersOf_updateExitNodes.
Qed.

(** *** The loop of [updateServiceChannels] *)

Section Loop.

Variable now : Z.
Variable s0 : Dispatcher PR.
Variable name : string.

Let exitNodes0 := EgressNodes.exitsFor (egressNodes s0) name.
Let isExit0 := EgressNodes.isExitFor (egressNodes s0) name.

Definition sameGlobals (s : Dispatcher PR) : Prop :=
  egressNodes s = egressNodes s0
  /\ partialAffinityEnabled s = partialAffinityEnabled s0
  /\ keys (subChannels s) = keys (subChannels s0).

(** The channel [name] has not been worked on. *)
Definition untouched (s : Dispatcher PR) : Prop :=
  get name (subChannels s) = get name (subChannels s0).

(** The channel [name], of mode [m] at the start, has been reconciled. *)
Definition reconciledChannel (m : Mode) (s : Dispatcher PR) : Prop :=
  modeOf name s = Some (if isExit0 then exit else forward)
  /\ get name (relaysFor s) = Some (sort exitNodes0)
  /\ (if isExit0
      then partialAffinityEnabled s0 = false ->
           peersOf name s = match m with
                            | exit => peersOf name s0
                            | forward => []
                            end
      else forall h, mem h (peersOf name s) = mem h exitNodes0).

Lemma step_other (n : string) (s : Dispatcher PR) :
  n <> name ->
  sameGlobals s ->
  let s1 := updateServiceChannels_step now s n in
  sameGlobals s1
  /\ get name (subChannels s1) = get name (subChannels s)
  /\ get name (relaysFor s1) = get name (relaysFor s).
Proof.
  intros Hne (G1 & G2 & G3). cbv zeta. unfold updateServiceChannels_step.
  destruct (modeOf n s) as [m|] eqn:M; [|now repeat split].
  destruct (updateServiceChannel_result n now s m M) as (A & B & C & D & E & _).
  cbv zeta in *. repeat split; try congruence.
  - apply B. congruence.
  - rewrite C. apply get_put_other. congruence.
Qed.

Lemma step_self_mode (s : Dispatcher PR) (m : Mode) :
  modeOf name s = Some m ->
  egressNodes s = egressNodes s0 ->
  modeOf name (updateServiceChannel name now s)
  = Some (if isExit0 then exit else forward).
Proof.
  intros M G.
  assert (Hs : shapeOf name s = Some (Some m)).
  { unfold modeOf in M. unfold shapeOf.
    destruct (get name (subChannels s)); cbn; [now rewrite M|discriminate]. }
  pose proof (updateServiceChannel_setsMode name now s m Hs) as S.
  apply setsMode_registered in S. rewrite modeOf_shapeOf, S.
  unfold modeFor, isExit0. now rewrite G.
Qed.

Lemma step_self (s : Dispatcher PR) (m : Mode) :
  modeOf name s0 = Some m ->
  sameGlobals s ->
  untouched s \/ reconciledChannel m s ->
  let s1 := updateServiceChannels_step now s name in
  sameGlobals s1 /\ reconciledChannel m s1.
Proof.
  intros M0 (G1 & G2 & G3) Hcase. cbv zeta. unfold updateServiceChannels_step.
  assert (Hm : exists m', modeOf name s = Some m'
                 /\ (untouched s /\ m' = m
                     \/ reconciledChannel m s
                        /\ m' = (if isExit0 then exit else forward))).
  { destruct Hcase as [U|R].
    - exists m. split; [unfold modeOf in *; now rewrite U|]. left. now split.
    - exists (if isExit0 then exit else forward). split; [apply R|].
      right. now split. }
  destruct Hm as (m' & M & Hm). rewrite M.
  destruct (updateServiceChannel_result name now s m' M)
    as (A & B & C & D & E & P).
  cbv zeta in *. split; [repeat split; congruence|].
  split; [now apply (step_self_mode s m')|].
  split; [rewrite C, G1; apply get_put_same|].
  rewrite G1 in P. fold isExit0 exitNodes0 in P. rewrite G2 in P.
  destruct Hm as [(U & ->)|(R & ->)].
  - assert (P0 : peersOf name s = peersOf name s0)
      by (unfold peersOf; now rewrite U).
    destruct isExit0; [|exact P].
    intros Off. destruct m; [rewrite <- P0; now apply P|exact P].
  - destruct R as (_ & _ & R).
    destruct isExit0; [|exact P].
    intros Off. rewrite (P Off). now apply R.
Qed.

Lemma loop_keeps_reconciled (m : Mode) (names : list string)
    (s : Dispatcher PR) :
  modeOf name s0 = Some m ->
  sameGlobals s -> reconciledChannel m s ->
  let s' := fold_left (updateServiceChannels_step now) names s in
  sameGlobals s' /\ reconciledChannel m s'.
Proof.
  intros M0. cbv zeta. revert s.
  induction names as [|n names IH]; intros s G R; cbn [fold_left];
    [now split|].
  destruct (String.eqb_spec n name) as [->|Hne].
  - destruct (step_self s m M0 G (or_intror R)) as (G1 & R1).
    cbv zeta in *. now apply IH.
  - destruct (step_other n s Hne G) as (G1 & C1 & L1). cbv zeta in *.
    apply IH; [exact G1|].
    destruct R as (Ra & Rb & Rc).
    split; [unfold modeOf in *; now rewrite C1|].
    split; [now rewrite L1|]. unfold peersOf in *. now rewrite C1.
Qed.

Lemma loop_reconciles (m : Mode) (names : list string) (s : Dispatcher PR) :
  modeOf name s0 = Some m ->
  sameGlobals s -> untouched s ->
  let s' := fold_left (updateServiceChannels_step now) names s in
  sameGlobals s'
  /\ (existsb (String.eqb name) names = true -> reconciledChannel m s').
Proof.
  intros M0. cbv zeta. revert s.
  induction names as [|n names IH]; intros s G U; cbn [fold_left existsb].
  - split; [exact G|discriminate].
  - destruct (String.eqb_spec name n) as [<-|Hne].
    + destruct (step_self s m M0 G (or_introl U)) as (G1 & R1). cbv zeta in *.
      destruct (loop_keeps_reconciled m names _ M0 G1 R1) as (G' & R').
      split; [exact G'|]. intros _. exact R'.
    + assert (Hne' : n <> name) by congruence.
      destruct (step_other n s Hne' G) as (G1 & C1 & L1). cbv zeta in *.
      apply IH; [exact G1|]. unfold untouched in *. congruence.
Qed.

Lemma loop_untouched (names : list string) (s : Dispatcher PR) :
  modeOf name s0 = None ->
  sameGlobals s -> untouched s ->
  let s' := fold_left (updateServiceChannels_step now) names s in
  sameGlobals s' /\ untouched s'.
Proof.
  intros M0. cbv zeta. revert s.
  induction names as [|n names IH]; intros s G U; cbn [fold_left];
    [now split|].
  destruct (String.eqb_spec n name) as [->|Hne].
  - assert (E : updateServiceChannels_step now s name = s).
    { unfold updateServiceChannels_step.
      replace (modeOf name s) with (@None Mode); [reflexivity|].
      unfold modeOf in *. now rewrite U. }
    rewrite E. now apply IH.
  - destruct (step_other n s Hne G) as (G1 & C1 & _). cbv zeta in *.
    apply IH; [exact G1|]. unfold untouched in *. congruence.
Qed.

End Loop.

(** X30.  The peers of the channels after a membership change.
    [updateServiceChannels] registers and removes no sub-channel.  For
    every service channel it renews the exit nodes kept in [relaysFor];
    a channel of a service this router is no exit for has exactly the exit
    nodes of the ring as its peers, whatever its peers were; with partial
    affinity off, a channel that turns from forward to exit starts without
    peers, and a channel that stays exit keeps its peers.  A sub-channel
    that is no service channel is left as it is. *)
Theorem updateServiceChannels_reconciles_peers (now : Z) (s : Dispatcher PR)
    (name : string) :
  let s' := updateServiceChannels now s in
  let exitNodes := EgressNodes.exitsFor (egressNodes s) name in
  keys (subChannels s') = keys (subChannels s)
  /\ match modeOf name s with
     | None => get name (subChannels s') = get name (subChannels s)
     | Some m =>
         get name (relaysFor s') = Some (sort exitNodes)
         /\ (if EgressNodes.isExitFor (egressNodes s) name
             then partialAffinityEnabled s = false ->
                  peersOf name s' = match m with
                                    | exit => peersOf name s
                                    | forward => []
                                    end
             else forall h, mem h (peersOf name s') = mem h exitNodes)
     end.
Proof.
  cbv zeta. unfold updateServiceChannels.
  set (s1 := fold_left (updateServiceChannels_step now) (keys (subChannels s)) s).
  set (s2 := match circuits s1 with Some registry => _ | None => s1 end).
  assert (FC : subChannels s2 = subChannels s1)
    by (unfold s2; now destruct (circuits s1)).
  assert (FR : relaysFor s2 = relaysFor s1)
    by (unfold s2; now destruct (circuits s1)).
  assert (FP : peersOf name s2 = peersOf name s1)
    by (unfold peersOf; now rewrite FC).
  rewrite FC, FR, FP.
  assert (G0 : sameGlobals s s) by now repeat split.
  destruct (modeOf name s) as [m|] eqn:M.
  - destruct (loop_reconciles now s name m (keys (subChannels s)) s M G0
                eq_refl) as ((_ & _ & K) & V).
    fold s1 in K, V. split; [exact K|].
    assert (Hin : existsb (String.eqb name) (keys (subChannels s)) = true).
    { rewrite <- has_keys. unfold modeOf in M. unfold has.
      now destruct (get name (subChannels s)). }
    destruct (V Hin) as (_ & R & P). split; [exact R|exact P].
  - destruct (loop_untouched now s name (keys (subChannels s)) s M G0 eq_refl)
      as ((_ & _ & K) & U).
    fold s1 in K, U. split; [exact K|exact U].
Qed.

End MembershipFacts.
